(** * Blogging API: visibility, ownership, listing and lifecycle

    A shallow embedding of the controllers, the authentication middleware and
    the Blog model of the blogging API, and the properties of its
    specification that were checked against it.

    Conventions of the embedding.
    - A JavaScript string is a [string]; its characters stand for code units
      in the Latin-1 range.
    - A JavaScript Number holding a count or a timestamp is a [Z]. Doubles are
      exact on integers of magnitude up to 2^53; the one place where the code
      iterates arithmetic on a stored Number ([read_count += 1]) goes through
      [JS.to_double].
    - A Number computed from the query string ([page], [limit], [skip],
      [pages]) is a [JS.Number]: [parseInt] rounds a long numeral to the
      nearest double and gives Infinity for a very long one, and the
      arithmetic on them rounds again.
    - An ObjectId is the string [toString()] gives for it; the type stands for
      well-formed ids (a malformed id is a cast error of the store layer).
    - A collection is the list of its documents in insertion order. A query
      with no sort, or with a sort that leaves ties, yields its documents in
      an order of the store's choosing.
    - A handler is a function from the store to a response and a new store.
    - [next(error)] hands the error to the error-handling middleware, which is
      not part of the sources read here: it is the response [NextError]. *)

From Stdlib Require Import ZArith List String Ascii Bool Lia.
From Stdlib Require Import Sorting.Sorted Sorting.Permutation.
Import ListNotations.

Local Open Scope string_scope.
Local Open Scope Z_scope.

(* ================================================================= *)
(** ** JavaScript primitives used by the sources *)

Module JS.

(** [\s] of a regular expression and the white space [trim] strips,
    restricted to Latin-1: TAB, LF, VT, FF, CR, SP, NBSP. *)
Definition isWhiteSpace (c : ascii) : bool :=
  let n := nat_of_ascii c in
  ((n =? 9) || (n =? 10) || (n =? 11) || (n =? 12) || (n =? 13)
   || (n =? 32) || (n =? 160))%nat.

Fixpoint trimStart (s : string) : string :=
  match s with
  | EmptyString => EmptyString
  | String c r => if isWhiteSpace c then trimStart r else s
  end.

Fixpoint trimEnd (s : string) : string :=
  match s with
  | EmptyString => EmptyString
  | String c r =>
      match trimEnd r with
      | EmptyString => if isWhiteSpace c then EmptyString else String c EmptyString
      | r' => String c r'
      end
  end.

(** [String.prototype.trim] *)
Definition trim (s : string) : string := trimEnd (trimStart s).

(** [s.split(/\s+/)]: the pieces between maximal runs of white space. A
    leading or trailing run leaves an empty piece, and the empty string
    splits into one empty piece. [in_ws] records that the previous character
    belonged to a run, [cur] is the piece being read. *)
Fixpoint split_ws_go (in_ws : bool) (cur : string) (s : string) : list string :=
  match s with
  | EmptyString => [cur]
  | String c r =>
      if isWhiteSpace c then
        if in_ws then split_ws_go true cur r
        else cur :: split_ws_go true EmptyString r
      else split_ws_go false (cur ++ String c EmptyString) r
  end.

Definition split_ws (s : string) : list string := split_ws_go false EmptyString s.

(** [s.split(sep)] for a one-character separator: every occurrence cuts,
    empty pieces are kept. *)
Fixpoint split_on_go (sep : ascii) (cur : string) (s : string) : list string :=
  match s with
  | EmptyString => [cur]
  | String c r =>
      if Ascii.eqb c sep then cur :: split_on_go sep EmptyString r
      else split_on_go sep (cur ++ String c EmptyString) r
  end.

Definition split_on (sep : ascii) (s : string) : list string :=
  split_on_go sep EmptyString s.

(** [s.startsWith(p)] *)
Definition startsWith (s p : string) : bool := String.prefix p s.

(** [arr.includes(x)] on an array of strings *)
Definition includes (arr : list string) (x : string) : bool :=
  existsb (String.eqb x) arr.

(** Truthiness of a value that is [undefined] or a string. *)
Definition truthy (o : option string) : bool :=
  match o with
  | Some s => negb (String.eqb s EmptyString)
  | None => false
  end.

(** Value of a digit in the given radix, if it is one. *)
Definition digit_value (radix : Z) (c : ascii) : option Z :=
  let n := Z.of_nat (nat_of_ascii c) in
  let v :=
    if (48 <=? n) && (n <=? 57) then Some (n - 48)
    else if (97 <=? n) && (n <=? 122) then Some (n - 87)
    else if (65 <=? n) && (n <=? 90) then Some (n - 55)
    else None in
  match v with
  | Some d => if d <? radix then Some d else None
  | None => None
  end.

(** The longest prefix of digits, read in the radix; [None] when it is empty. *)
Fixpoint parse_digits (radix : Z) (acc : option Z) (s : string) : option Z :=
  match s with
  | EmptyString => acc
  | String c r =>
      match digit_value radix c with
      | Some d =>
          parse_digits radix
            (Some (match acc with Some a => a * radix + d | None => d end)) r
      | None => acc
      end
  end.

(** The exact value of the numeral [parseInt(s)] reads with no radix
    argument; [None] when it reads none. Leading white space is skipped, a
    sign is read, a [0x] prefix selects radix 16, and what follows the digits
    is ignored. *)
Definition numeral (s : string) : option Z :=
  let s1 := trimStart s in
  let '(neg, s2) :=
    match s1 with
    | String "-"%char r => (true, r)
    | String "+"%char r => (false, r)
    | _ => (false, s1)
    end in
  let '(radix, s3) :=
    match s2 with
    | String "0"%char (String "x"%char r) => (16, r)
    | String "0"%char (String "X"%char r) => (16, r)
    | _ => (10, s2)
    end in
  match parse_digits radix None s3 with
  | Some v => Some (if neg then - v else v)
  | None => None
  end.

(** The double nearest to an integer, ties to even (finite range). *)
Definition to_double (z : Z) : Z :=
  let a := Z.abs z in
  if a <=? 2 ^ 53 then z
  else
    let e := Z.log2 a - 52 in
    let q := Z.shiftr a e in
    let r := Z.land a (Z.ones e) in
    let h := Z.shiftl 1 (e - 1) in
    let m :=
      if r <? h then q
      else if h <? r then q + 1
      else if Z.even q then q else q + 1 in
    Z.sgn z * Z.shiftl m e.

(** [x + y] on Numbers holding integers. *)
Definition add (x y : Z) : Z := to_double (x + y).

(** [Math.ceil(a / b)] on Numbers holding integers, [b] not zero. *)
Definition ceil_div (a b : Z) : Z := - ((- a) / b).

(** A Number read from a query string: an integer that is a double, an
    infinity, or NaN. Zero and minus zero are not told apart (both are falsy,
    and both print as 0). *)
Inductive Number : Type :=
| Int (z : Z)
| Infinity (negative : bool)
| NaN.

(** The Number an integer rounds to: its nearest double, an infinity from
    2^1024 on. *)
Definition of_Z (z : Z) : Number :=
  let d := to_double z in
  if Z.abs d <? 2 ^ 1024 then Int d else Infinity (z <? 0).

(** [parseInt(s)]: the numeral read, as a Number. *)
Definition parseInt (s : string) : Number :=
  match numeral s with
  | Some v => of_Z v
  | None => NaN
  end.

(** [parseInt(x) || d] where [x] is a query parameter: [undefined] parses to
    NaN, and NaN and zero are falsy. *)
Definition parseInt_or (x : option string) (d : Z) : Number :=
  match x with
  | None => Int d
  | Some s =>
      match parseInt s with
      | Int v => if v =? 0 then Int d else Int v
      | Infinity n => Infinity n
      | NaN => Int d
      end
  end.

(** [x < 0] *)
Definition negative (x : Number) : bool :=
  match x with
  | Int z => z <? 0
  | Infinity n => n
  | NaN => false
  end.

(** [-x] *)
Definition neg (x : Number) : Number :=
  match x with
  | Int z => Int (- z)
  | Infinity n => Infinity (negb n)
  | NaN => NaN
  end.

(** [x - y] *)
Definition sub (x y : Number) : Number :=
  match x, y with
  | Int a, Int b => of_Z (a - b)
  | Infinity n, Int _ => Infinity n
  | Int _, Infinity n => Infinity (negb n)
  | Infinity n, Infinity m => if Bool.eqb n m then NaN else Infinity n
  | _, _ => NaN
  end.

(** [x * y] *)
Definition mul (x y : Number) : Number :=
  match x, y with
  | Int a, Int b => of_Z (a * b)
  | Infinity n, Int b | Int b, Infinity n =>
      if b =? 0 then NaN else Infinity (xorb n (b <? 0))
  | Infinity n, Infinity m => Infinity (xorb n m)
  | _, _ => NaN
  end.

(** [Math.ceil(a / b)] for a count [a] and a Number [b]. The quotient of two
    doubles is rounded; for a count below 2^53 the rounding does not reach
    the next integer, and the ceiling is that of the exact quotient. *)
Definition ceil_quot (a : Z) (b : Number) : Number :=
  match b with
  | Int z =>
      if z =? 0 then (if a =? 0 then NaN else Infinity (a <? 0))
      else Int (ceil_div a z)
  | Infinity _ => Int 0
  | NaN => NaN
  end.

End JS.

(* ================================================================= *)
(** ** Documents and the store *)

Definition ObjectId := string.

(** models/User.js is not among the sources; these are the fields the
    controllers read. *)
Record User := mkUser {
  user_id : ObjectId;
  first_name : string;
  last_name : string;
  email : string;
  password : string
}.

(** models/Blog.js, [blogSchema] with [timestamps: true]. *)
Record Blog := mkBlog {
  blog_id : ObjectId;
  title : string;
  description : option string;
  author : ObjectId;
  state : string;
  read_count : Z;
  reading_time : Z;
  tags : list string;
  body : string;
  createdAt : Z;
  updatedAt : Z
}.

Record Store := mkStore {
  users : list User;
  blogs : list Blog
}.

Definition set_state (s : string) (b : Blog) : Blog :=
  mkBlog (blog_id b) (title b) (description b) (author b) s (read_count b)
         (reading_time b) (tags b) (body b) (createdAt b) (updatedAt b).

Definition set_read_count (n : Z) (b : Blog) : Blog :=
  mkBlog (blog_id b) (title b) (description b) (author b) (state b) n
         (reading_time b) (tags b) (body b) (createdAt b) (updatedAt b).

Definition set_reading_time (n : Z) (b : Blog) : Blog :=
  mkBlog (blog_id b) (title b) (description b) (author b) (state b)
         (read_count b) n (tags b) (body b) (createdAt b) (updatedAt b).

Definition set_updatedAt (t : Z) (b : Blog) : Blog :=
  mkBlog (blog_id b) (title b) (description b) (author b) (state b)
         (read_count b) (reading_time b) (tags b) (body b) (createdAt b) t.

Definition set_blogs (bs : list Blog) (st : Store) : Store :=
  mkStore (users st) bs.

(** [Model.findById] *)
Definition Blog_findById (st : Store) (id : ObjectId) : option Blog :=
  find (fun b => String.eqb (blog_id b) id) (blogs st).

Definition User_findById (st : Store) (id : ObjectId) : option User :=
  find (fun u => String.eqb (user_id u) id) (users st).

(** The document with the id of [b] is replaced by [b]. *)
Definition replace_blog (b : Blog) (bs : list Blog) : list Blog :=
  map (fun x => if String.eqb (blog_id x) (blog_id b) then b else x) bs.

Definition remove_blog (id : ObjectId) (bs : list Blog) : list Blog :=
  filter (fun x => negb (String.eqb (blog_id x) id)) bs.

(* ================================================================= *)
(** ** Responses and errors *)

(** What a [try] block of a handler can throw. *)
Inductive Error : Type :=
| TypeError          (* property read on [null] *)
| SyntaxError        (* [new RegExp] on a malformed pattern *)
| ValidationError    (* schema validators *)
| DuplicateKeyError  (* unique index on [title] *)
| MongoServerError.  (* the store refuses the command *)

(** [res.status(s).json({ success: true, ... })],
    [res.status(s).json({ success: false, message })] and [next(error)]. *)
Inductive Response (A : Type) : Type :=
| Success (status : Z) (payload : A)
| Failure (status : Z) (message : string)
| NextError (e : Error).

Arguments Success {A} status payload.
Arguments Failure {A} status message.
Arguments NextError {A} e.

(** The error monad of a [try] block. *)
Definition Result (A : Type) : Type := (Error + A)%type.

Definition ret {A : Type} (a : A) : Result A := inr a.
Definition throw {A : Type} (e : Error) : Result A := inl e.
Definition bind {A B : Type} (m : Result A) (k : A -> Result B) : Result B :=
  match m with
  | inl e => inl e
  | inr a => k a
  end.

Notation "x <- m ;; k" := (bind m (fun x => k))
  (at level 61, m at next level, right associativity).

(** [try { ... } catch (error) { next(error); }]: every handler writes to the
    store as its last fallible step, so an exception leaves the store as it
    was. *)
Definition try_next {A : Type} (st : Store)
    (m : Result (Response A * Store)) : Response A * Store :=
  match m with
  | inr r => r
  | inl e => (NextError e, st)
  end.

(** [populate("author", "first_name last_name email")] *)
Record AuthorView := mkAuthorView {
  av_id : ObjectId;
  av_first_name : string;
  av_last_name : string;
  av_email : string
}.

Record PopulatedBlog := mkPopulated {
  doc : Blog;
  author_doc : option AuthorView   (* [null] when the reference dangles *)
}.

Record BlogReply (A : Type) := mkBlogReply {
  message : option string;
  data : A
}.
Arguments mkBlogReply {A} message data.
Arguments message {A} _.
Arguments data {A} _.

Record ListReply (A : Type) := mkListReply {
  count : Z;
  total : Z;
  page : JS.Number;
  pages : JS.Number;
  items : list A      (* the [data] array *)
}.
Arguments mkListReply {A} count total page pages items.
Arguments count {A} _.
Arguments total {A} _.
Arguments page {A} _.
Arguments pages {A} _.
Arguments items {A} _.

Record SigninReply := mkSigninReply {
  si_message : string;
  si_id : ObjectId;
  si_first_name : string;
  si_last_name : string;
  si_email : string;
  si_token : string
}.

(* ================================================================= *)
(** ** models/Blog.js *)

Definition wordsPerMinute : Z := 200.

(** [this.body.trim().split(/\s+/).length] *)
Definition wordCount (body : string) : Z :=
  Z.of_nat (List.length (JS.split_ws (JS.trim body))).

(** [blogSchema.pre("save")]: reading time is computed when [body] is
    modified. *)
Definition pre_save (body_modified : bool) (b : Blog) : Blog :=
  if body_modified then
    set_reading_time (JS.ceil_div (wordCount (body b)) wordsPerMinute) b
  else b.

Definition state_enum : list string := ["draft"; "published"].

(** The schema validators: [title] and [body] required, [state] in its enum. *)
Definition valid_title (t : string) : bool := negb (String.eqb t EmptyString).
Definition valid_body (t : string) : bool := negb (String.eqb t EmptyString).
Definition valid_state (s : string) : bool := JS.includes state_enum s.

(** The unique index on [title], for a document with id [self]. *)
Definition title_taken (self : ObjectId) (t : string) (bs : list Blog) : bool :=
  existsb (fun x => negb (String.eqb (blog_id x) self) && String.eqb (title x) t) bs.

(** [doc.save()] of a loaded document: a document with no modified path is
    not written; otherwise the hooks run and [updatedAt] is stamped. *)
Definition Blog_save (now : Z) (modified body_modified : bool) (b : Blog)
    (st : Store) : Blog * Store :=
  if modified then
    let b' := set_updatedAt now (pre_save body_modified b) in
    (b', set_blogs (replace_blog b' (blogs st)) st)
  else (b, st).

(** The body of [POST /api/blogs] after destructuring. *)
Record CreateBody := mkCreateBody {
  cb_title : option string;
  cb_description : option string;
  cb_tags : option (list string);
  cb_body : option string
}.

(** [Blog.create({ title, description, tags, body, author })]: setters
    ([trim]), defaults, validation, the pre-save hook, insertion. [newId] is
    the ObjectId generated for the document. *)
Definition Blog_create (newId : ObjectId) (now : Z) (cb : CreateBody)
    (authorId : ObjectId) (st : Store) : Result (Blog * Store) :=
  match option_map JS.trim (cb_title cb), cb_body cb with
  | Some t, Some bd =>
      if valid_title t && valid_body bd then
        if title_taken newId t (blogs st) then throw DuplicateKeyError
        else
          let b := mkBlog newId t (option_map JS.trim (cb_description cb))
                     authorId "draft" 0 0
                     (match cb_tags cb with
                      | Some ts => map JS.trim ts
                      | None => []
                      end)
                     bd now now in
          let b' := pre_save true b in
          ret (b', set_blogs (blogs st ++ [b']) st)
      else throw ValidationError
  | _, _ => throw ValidationError
  end.

(** The body of [PUT /api/blogs/:id], for a body that carries schema paths
    with values of their types: each path is absent or holds a value of the
    type the schema gives it. The handler passes the body on as it is; a
    body with a null, with a value that needs a cast or with an update
    operator is outside this type (a null [state], for one, passes the enum
    validator and is stored). *)
Record Patch := mkPatch {
  p_title : option string;
  p_description : option string;
  p_author : option ObjectId;
  p_state : option string;
  p_read_count : option Z;
  p_reading_time : option Z;
  p_tags : option (list string);
  p_body : option string
}.

Definition or_else {A : Type} (o : option A) (d : A) : A :=
  match o with
  | Some a => a
  | None => d
  end.

(** [$set] of every path of the patch. *)
Definition apply_patch (now : Z) (p : Patch) (b : Blog) : Blog :=
  mkBlog (blog_id b)
         (or_else (option_map JS.trim (p_title p)) (title b))
         (match p_description p with
          | Some d => Some (JS.trim d)
          | None => description b
          end)
         (or_else (p_author p) (author b))
         (or_else (p_state p) (state b))
         (or_else (p_read_count p) (read_count b))
         (or_else (p_reading_time p) (reading_time b))
         (or_else (option_map (map JS.trim) (p_tags p)) (tags b))
         (or_else (p_body p) (body b))
         (createdAt b)
         now.

(** Update validators ([runValidators: true]) look at the paths of the
    patch only. *)
Definition valid_patch (p : Patch) : bool :=
  match option_map JS.trim (p_title p) with
  | Some t => valid_title t
  | None => true
  end
  && match p_body p with
     | Some bd => valid_body bd
     | None => true
     end
  && match p_state p with
     | Some s => valid_state s
     | None => true
     end.

(** [Blog.findByIdAndUpdate(id, patch, { new: true, runValidators: true })]:
    a query-level update. Document middleware ([pre("save")]) does not run. *)
Definition Blog_findByIdAndUpdate (id : ObjectId) (p : Patch) (now : Z)
    (st : Store) : Result (option Blog * Store) :=
  if valid_patch p then
    match Blog_findById st id with
    | None => ret (None, st)
    | Some b =>
        let b' := apply_patch now p b in
        if title_taken id (title b') (blogs st) then throw DuplicateKeyError
        else ret (Some b', set_blogs (replace_blog b' (blogs st)) st)
    end
  else throw ValidationError.

(* ================================================================= *)
(** ** The store's query engine *)

(** A filter object: the conditions a handler puts in [query]. *)
Record Filter := mkFilter {
  f_state : option string;
  f_author : option ObjectId;
  f_title : option (string -> bool);     (* a compiled regular expression *)
  f_tags_in : option (list string)       (* [{ $in: [...] }] *)
}.

Definition with_author (a : ObjectId) (f : Filter) : Filter :=
  mkFilter (f_state f) (Some a) (f_title f) (f_tags_in f).
Definition with_title (re : string -> bool) (f : Filter) : Filter :=
  mkFilter (f_state f) (f_author f) (Some re) (f_tags_in f).
Definition with_tags_in (ts : list string) (f : Filter) : Filter :=
  mkFilter (f_state f) (f_author f) (f_title f) (Some ts).
Definition with_state (s : string) (f : Filter) : Filter :=
  mkFilter (Some s) (f_author f) (f_title f) (f_tags_in f).

Definition matches (f : Filter) (b : Blog) : bool :=
  match f_state f with
  | Some s => String.eqb (state b) s
  | None => true
  end
  && match f_author f with
     | Some a => String.eqb (author b) a
     | None => true
     end
  && match f_title f with
     | Some re => re (title b)
     | None => true
     end
  && match f_tags_in f with
     | Some ts => existsb (JS.includes ts) (tags b)
     | None => true
     end.

(** The numeric paths a sort can name. *)
Definition numeric_path (k : string) (b : Blog) : option Z :=
  if String.eqb k "read_count" then Some (read_count b)
  else if String.eqb k "reading_time" then Some (reading_time b)
  else if String.eqb k "createdAt" then Some (createdAt b)
  else if String.eqb k "updatedAt" then Some (updatedAt b)
  else None.

Definition compare_path (k : string) (a b : Blog) : comparison :=
  match numeric_path k a, numeric_path k b with
  | Some x, Some y => Z.compare x y
  | _, _ => Eq
  end.

(** A sort object is the list of its keys with their directions; [-1] is
    descending. The empty object orders nothing. *)
Fixpoint sort_cmp (spec : list (string * Z)) (a b : Blog) : comparison :=
  match spec with
  | [] => Eq
  | (k, d) :: rest =>
      match compare_path k a b with
      | Eq => sort_cmp rest a b
      | c => if d <? 0 then CompOpp c else c
      end
  end.

Fixpoint insert_doc (spec : list (string * Z)) (x : Blog) (l : list Blog)
    : list Blog :=
  match l with
  | [] => [x]
  | y :: r =>
      match sort_cmp spec x y with
      | Gt => y :: insert_doc spec x r
      | _ => x :: l
      end
  end.

(** [.sort(spec)]: a stable sort of the documents as they come. *)
Definition Blog_sort (spec : list (string * Z)) (l : list Blog) : list Blog :=
  fold_right (insert_doc spec) [] l.

Fixpoint insert_ranked (rank : Blog -> Z) (x : Blog) (l : list Blog)
    : list Blog :=
  match l with
  | [] => [x]
  | y :: r =>
      if rank y <? rank x then y :: insert_ranked rank x r else x :: l
  end.

(** The documents by increasing rank, those of equal rank in the order of
    the list. *)
Definition scan_by (rank : Blog -> Z) (l : list Blog) : list Blog :=
  fold_right (insert_ranked rank) [] l.

(** A cursor skips [n] documents, and hands over at most [n]; a count
    negative or beyond the length of the list is read as zero or as that
    length. *)
Definition drop {A : Type} (n : Z) (l : list A) : list A :=
  skipn (Z.to_nat (Z.min n (Z.of_nat (List.length l)))) l.

Definition take {A : Type} (n : Z) (l : list A) : list A :=
  firstn (Z.to_nat (Z.min n (Z.of_nat (List.length l)))) l.

(** [Blog.countDocuments(query)] *)
Definition Blog_countDocuments (f : Filter) (st : Store) : Z :=
  Z.of_nat (List.length (filter (matches f) (blogs st))).

Definition author_view (u : User) : AuthorView :=
  mkAuthorView (user_id u) (first_name u) (last_name u) (email u).

Definition populate (st : Store) (b : Blog) : PopulatedBlog :=
  mkPopulated b (option_map author_view (User_findById st (author b))).

(* ================================================================= *)
(** ** Collaborators outside the sources *)

(** The regular-expression engine, the token library, the password
    comparison of the User model, and what the store leaves open.
    - [RegExp_i p] is [new RegExp(p, "i")] as its [test] function, [None]
      when the constructor throws;
    - [jwt_verify t] is [jwt.verify(t, secret).id], [None] when it throws
      (malformed, forged or expired token, or no token at all);
    - [jwt_sign id] is [jwt.sign({ id }, secret, { expiresIn })];
    - [comparePassword u p] is [user.comparePassword(p)];
    - [plan_rank f spec limit skip bs] is the order in which the store's plan
      for a find command yields the documents of the collection [bs]: by
      increasing rank, ties in insertion order. The store promises no order
      beyond the sort asked for; rank 0 throughout is a collection scan, and
      the rank [- createdAt] is what a scan of the index
      [{ state: 1, createdAt: -1 }] the schema declares yields within one
      state;
    - [first_batch l] is the number of documents of the result [l] that the
      first reply of the store holds (101 unless they are large), which is
      all a cursor with a negative limit hands over;
    - [read_beyond x] is the integer the store takes for a limit or a skip
      sent as [x] when [x] is not an integer of magnitude up to 2^53, [None]
      when it refuses the command. *)
Class Collaborators := {
  RegExp_i : string -> option (string -> bool);
  jwt_verify : option string -> option ObjectId;
  jwt_sign : ObjectId -> string;
  comparePassword : User -> string -> bool;
  plan_rank : Filter -> list (string * Z) -> JS.Number -> JS.Number ->
              list Blog -> Blog -> Z;
  first_batch : list Blog -> nat;
  read_beyond : JS.Number -> option Z
}.

Section Program.

Context `{Collaborators}.

Definition new_RegExp_i (p : string) : Result (string -> bool) :=
  match RegExp_i p with
  | Some re => ret re
  | None => throw SyntaxError
  end.

(* ----------------------------------------------------------------- *)
(** *** The find command *)

(** The integer the store takes for a limit or a skip. *)
Definition store_reads (x : JS.Number) : option Z :=
  match x with
  | JS.Int z => if Z.abs z <=? 2 ^ 53 then Some z else read_beyond x
  | _ => read_beyond x
  end.

(** [Blog.find(query).sort(spec).limit(limit).skip(skip)]. The driver sends
    a negative limit as its magnitude and asks for a single batch. The store
    refuses a negative skip, skips before it limits, and reads a zero limit
    as no limit. *)
Definition Blog_find (f : Filter) (spec : list (string * Z))
    (limit skip : JS.Number) (st : Store) : Result (list Blog) :=
  let found :=
    scan_by (plan_rank f spec limit skip (blogs st))
            (filter (matches f) (blogs st)) in
  let sorted := Blog_sort spec found in
  let single := JS.negative limit in
  match store_reads (if single then JS.neg limit else limit),
        store_reads skip with
  | Some l, Some s =>
      if (l <? 0) || (s <? 0) then throw MongoServerError
      else
        let rest := drop s sorted in
        let docs := if l =? 0 then rest else take l rest in
        ret (if single then firstn (first_batch docs) docs else docs)
  | _, _ => throw MongoServerError
  end.

(* ----------------------------------------------------------------- *)
(** *** middleware/auth.js *)

(** The token both middlewares read: [Some t] when the header is present and
    starts with "Bearer", with [t] the second piece of the header split at
    spaces ([undefined] when there is none). *)
Definition bearer (authorization : option string) : option (option string) :=
  match authorization with
  | Some h =>
      if JS.truthy (Some h) && JS.startsWith h "Bearer"
      then Some (nth_error (JS.split_on " "%char h) 1)
      else None
  | None => None
  end.

(** [protect]: the user the request goes on with, or the response sent. *)
Definition protect {A : Type} (authorization : option string) (st : Store)
    : User + Response A :=
  let token :=
    match bearer authorization with
    | Some t => t
    | None => None
    end in
  if negb (JS.truthy token) then
    inr (Failure 401 "Not authorized to access this route")
  else
    match jwt_verify token with
    | Some id =>
        match User_findById st id with
        | Some u => inl u
        | None => inr (Failure 401 "User not found")
        end
    | None => inr (Failure 401 "Token is invalid or expired")
    end.

(** [optionalAuth]: the value of [req.user] when [next()] is called; it
    always is. *)
Definition optionalAuth (authorization : option string) (st : Store)
    : option User :=
  match bearer authorization with
  | Some token =>
      match jwt_verify token with
      | Some id => User_findById st id
      | None => None
      end
  | None => None
  end.

(* ----------------------------------------------------------------- *)
(** *** controllers/blogController.js *)

Definition createBlog (newId : ObjectId) (now : Z) (req_user : User)
    (req_body : CreateBody) (st : Store) : Response (BlogReply Blog) * Store :=
  try_next st (
    r <- Blog_create newId now req_body (user_id req_user) st ;;
    let '(blog, st') := r in
    ret (Success 201 (mkBlogReply (Some "Blog created successfully") blog), st')).

(** The query string of the listings. *)
Record ListQuery := mkListQuery {
  q_page : option string;
  q_limit : option string;
  q_order_by : option string;
  q_title : option string;
  q_tags : option string;
  q_author : option string;
  q_state : option string
}.

Definition validSortFields : list string :=
  ["read_count"; "reading_time"; "createdAt"].

(** [User.findOne({ $or: [{ first_name: re }, { last_name: re }] })] *)
Definition User_findOne_name (re : string -> bool) (st : Store) : option User :=
  find (fun u => re (first_name u) || re (last_name u)) (users st).

Definition published_filter : Filter :=
  mkFilter (Some "published") None None None.

(** The filter [getPublishedBlogs] builds from the query string. *)
Definition published_query (q : ListQuery) (st : Store) : Result Filter :=
  let query := published_filter in
  query <- (if JS.truthy (q_author q) then
              re <- new_RegExp_i (or_else (q_author q) "") ;;
              match User_findOne_name re st with
              | Some a => ret (with_author (user_id a) query)
              | None => ret query
              end
            else ret query) ;;
  query <- (if JS.truthy (q_title q) then
              re <- new_RegExp_i (or_else (q_title q) "") ;;
              ret (with_title re query)
            else ret query) ;;
  ret (if JS.truthy (q_tags q)
       then with_tags_in (JS.split_on ","%char (or_else (q_tags q) "")) query
       else query).

(** The sort object [getPublishedBlogs] builds. *)
Definition published_sort (q : ListQuery) : list (string * Z) :=
  if JS.truthy (q_order_by q) then
    if JS.includes validSortFields (or_else (q_order_by q) "")
    then [(or_else (q_order_by q) "", -1)]
    else []
  else [("createdAt", -1)].

Definition getPublishedBlogs (q : ListQuery) (st : Store)
    : Response (ListReply PopulatedBlog) * Store :=
  try_next st (
    let page := JS.parseInt_or (q_page q) 1 in
    let limit := JS.parseInt_or (q_limit q) 20 in
    let skip := JS.mul (JS.sub page (JS.Int 1)) limit in
    query <- published_query q st ;;
    let sortOption := published_sort q in
    blogs <- Blog_find query sortOption limit skip st ;;
    let blogs := map (populate st) blogs in
    let total := Blog_countDocuments query st in
    ret (Success 200
           (mkListReply (Z.of_nat (List.length blogs)) total page
                        (JS.ceil_quot total limit) blogs),
         st)).

Definition getBlog (req_user : option User) (id : ObjectId) (now : Z)
    (st : Store) : Response (BlogReply PopulatedBlog) * Store :=
  try_next st (
    match option_map (populate st) (Blog_findById st id) with
    | None => ret (Failure 404 "Blog not found", st)
    | Some blog =>
        denied <-
          (if negb (String.eqb (state (doc blog)) "published") then
             match req_user with
             | None => ret true
             | Some u =>
                 match author_doc blog with
                 | None => throw TypeError
                 | Some a => ret (negb (String.eqb (av_id a) (user_id u)))
                 end
             end
           else ret false) ;;
        if denied then ret (Failure 403 "Access denied", st)
        else
          let n := JS.add (read_count (doc blog)) 1 in
          let '(saved, st') :=
            Blog_save now (negb (n =? read_count (doc blog))) false
                      (set_read_count n (doc blog)) st in
          ret (Success 200 (mkBlogReply None (mkPopulated saved (author_doc blog))),
               st')
    end).

(** The filter [getUserBlogs] builds. *)
Definition own_query (req_user : User) (q : ListQuery) : Filter :=
  let query := mkFilter None (Some (user_id req_user)) None None in
  if JS.truthy (q_state q) then with_state (or_else (q_state q) "") query
  else query.

Definition getUserBlogs (req_user : User) (q : ListQuery) (st : Store)
    : Response (ListReply Blog) * Store :=
  try_next st (
    let page := JS.parseInt_or (q_page q) 1 in
    let limit := JS.parseInt_or (q_limit q) 20 in
    let skip := JS.mul (JS.sub page (JS.Int 1)) limit in
    let query := own_query req_user q in
    blogs <- Blog_find query [("createdAt", -1)] limit skip st ;;
    let total := Blog_countDocuments query st in
    ret (Success 200
           (mkListReply (Z.of_nat (List.length blogs)) total page
                        (JS.ceil_quot total limit) blogs),
         st)).

Definition updateBlog (req_user : User) (id : ObjectId) (req_body : Patch)
    (now : Z) (st : Store) : Response (BlogReply (option Blog)) * Store :=
  try_next st (
    match Blog_findById st id with
    | None => ret (Failure 404 "Blog not found", st)
    | Some blog =>
        if negb (String.eqb (author blog) (user_id req_user)) then
          ret (Failure 403 "Not authorized to update this blog", st)
        else
          r <- Blog_findByIdAndUpdate id req_body now st ;;
          let '(blog, st') := r in
          ret (Success 200 (mkBlogReply (Some "Blog updated successfully") blog),
               st')
    end).

(** [req.body.state] is [undefined] or a string here; any other JSON value
    fails the allow-list like an unknown string does. *)
Definition updateBlogState (req_user : User) (id : ObjectId)
    (req_state : option string) (now : Z) (st : Store)
    : Response (BlogReply Blog) * Store :=
  try_next st (
    let state_ := req_state in
    if negb (match state_ with
             | Some s => JS.includes ["draft"; "published"] s
             | None => false
             end) then
      ret (Failure 400 "Invalid state. Must be either draft or published", st)
    else
      match Blog_findById st id with
      | None => ret (Failure 404 "Blog not found", st)
      | Some blog =>
          if negb (String.eqb (author blog) (user_id req_user)) then
            ret (Failure 403 "Not authorized to update this blog", st)
          else
            let s := or_else state_ "" in
            let '(saved, st') :=
              Blog_save now (negb (String.eqb s (state blog))) false
                        (set_state s blog) st in
            ret (Success 200
                   (mkBlogReply (Some ("Blog " ++ s ++ " successfully")) saved),
                 st')
      end).

Definition deleteBlog (req_user : User) (id : ObjectId) (st : Store)
    : Response (BlogReply unit) * Store :=
  try_next st (
    match Blog_findById st id with
    | None => ret (Failure 404 "Blog not found", st)
    | Some blog =>
        if negb (String.eqb (author blog) (user_id req_user)) then
          ret (Failure 403 "Not authorized to delete this blog", st)
        else
          ret (Success 200 (mkBlogReply (Some "Blog deleted successfully") tt),
               set_blogs (remove_blog id (blogs st)) st)
    end).

(* ----------------------------------------------------------------- *)
(** *** controllers/authController.js *)

(** [User.findOne({ email })] *)
Definition User_findOne_email (e : string) (st : Store) : option User :=
  find (fun u => String.eqb (email u) e) (users st).

Definition signin (req_email req_password : option string) (st : Store)
    : Response SigninReply :=
  if negb (JS.truthy req_email) || negb (JS.truthy req_password) then
    Failure 400 "Please provide email and password"
  else
    match User_findOne_email (or_else req_email "") st with
    | None => Failure 401 "Invalid credentials"
    | Some user =>
        let isMatch := comparePassword user (or_else req_password "") in
        if negb isMatch then Failure 401 "Invalid credentials"
        else
          let token := jwt_sign (user_id user) in
          Success 200
            (mkSigninReply "Login successful" (user_id user) (first_name user)
                           (last_name user) (email user) token)
    end.

(* ----------------------------------------------------------------- *)
(** *** routes/blogRoutes.js *)

(** [router.get("/", getPublishedBlogs)]: no middleware reads the header. *)
Definition GET_blogs (authorization : option string) (q : ListQuery)
    (st : Store) : Response (ListReply PopulatedBlog) * Store :=
  getPublishedBlogs q st.

(** [router.get("/:id", optionalAuth, getBlog)] *)
Definition GET_blog (authorization : option string) (id : ObjectId) (now : Z)
    (st : Store) : Response (BlogReply PopulatedBlog) * Store :=
  getBlog (optionalAuth authorization st) id now st.

(** [router.get("/user/me", protect, getUserBlogs)] *)
Definition GET_user_blogs (authorization : option string) (q : ListQuery)
    (st : Store) : Response (ListReply Blog) * Store :=
  match protect authorization st with
  | inl u => getUserBlogs u q st
  | inr r => (r, st)
  end.

(** [router.put("/:id", protect, updateBlog)] *)
Definition PUT_blog (authorization : option string) (id : ObjectId)
    (req_body : Patch) (now : Z) (st : Store)
    : Response (BlogReply (option Blog)) * Store :=
  match protect authorization st with
  | inl u => updateBlog u id req_body now st
  | inr r => (r, st)
  end.

(** [router.patch("/:id/state", protect, updateBlogState)] *)
Definition PATCH_blog_state (authorization : option string) (id : ObjectId)
    (req_state : option string) (now : Z) (st : Store)
    : Response (BlogReply Blog) * Store :=
  match protect authorization st with
  | inl u => updateBlogState u id req_state now st
  | inr r => (r, st)
  end.

(** [router.post("/", protect, createBlog)] *)
Definition POST_blog (authorization : option string) (newId : ObjectId)
    (now : Z) (req_body : CreateBody) (st : Store)
    : Response (BlogReply Blog) * Store :=
  match protect authorization st with
  | inl u => createBlog newId now u req_body st
  | inr r => (r, st)
  end.

(** [router.delete("/:id", protect, deleteBlog)] *)
Definition DELETE_blog (authorization : option string) (id : ObjectId)
    (st : Store) : Response (BlogReply unit) * Store :=
  match protect authorization st with
  | inl u => deleteBlog u id st
  | inr r => (r, st)
  end.

End Program.

(* ================================================================= *)
(** ** A concrete instance for the worked examples *)

Definition to_lower (c : ascii) : ascii :=
  let n := nat_of_ascii c in
  if ((65 <=? n) && (n <=? 90))%nat then ascii_of_nat (n + 32) else c.

Fixpoint iprefix (p s : string) : bool :=
  match p, s with
  | EmptyString, _ => true
  | String a p', String b s' => Ascii.eqb (to_lower a) (to_lower b) && iprefix p' s'
  | String _ _, EmptyString => false
  end.

(** Case-insensitive substring test: what [new RegExp(p, "i").test(s)]
    computes for a pattern [p] of letters and digits. *)
Fixpoint icontains (p s : string) : bool :=
  iprefix p s
  || match s with
     | EmptyString => false
     | String _ r => icontains p r
     end.

(** Patterns are literal, a token is valid when it reads "tok:" followed by
    the id it was signed for, and passwords are compared as they are. The
    store scans the collection, sends 101 documents in its first reply,
    reads a limit or a skip that is an integer of the 64-bit range as it is
    and refuses any other. *)
#[local] Instance example_collaborators : Collaborators := {
  RegExp_i p := Some (icontains p);
  jwt_verify t :=
    match t with
    | Some s =>
        if String.prefix "tok:" s
        then Some (String.substring 4 (String.length s - 4) s)
        else None
    | None => None
    end;
  jwt_sign id := "tok:" ++ id;
  comparePassword u p := String.eqb (password u) p;
  plan_rank _ _ _ _ _ _ := 0;
  first_batch _ := 101%nat;
  read_beyond x :=
    match x with
    | JS.Int z => if (- 2 ^ 63 <=? z) && (z <? 2 ^ 63) then Some z else None
    | _ => None
    end
}.

Fixpoint has_paren (s : string) : bool :=
  match s with
  | EmptyString => false
  | String c r => Ascii.eqb c "("%char || has_paren r
  end.

(** The same collaborators with an engine that refuses a pattern holding an
    open parenthesis. *)
Definition strict_collaborators : Collaborators := {|
  RegExp_i p := if has_paren p then None else Some (icontains p);
  jwt_verify := @jwt_verify example_collaborators;
  jwt_sign := @jwt_sign example_collaborators;
  comparePassword := @comparePassword example_collaborators;
  plan_rank := @plan_rank example_collaborators;
  first_batch := @first_batch example_collaborators;
  read_beyond := @read_beyond example_collaborators
|}.

(** The same collaborators with a store whose plan scans the index
    [{ state: 1, createdAt: -1 }]. *)
Definition indexed_collaborators : Collaborators := {|
  RegExp_i := @RegExp_i example_collaborators;
  jwt_verify := @jwt_verify example_collaborators;
  jwt_sign := @jwt_sign example_collaborators;
  comparePassword := @comparePassword example_collaborators;
  plan_rank _ _ _ _ _ b := - createdAt b;
  first_batch := @first_batch example_collaborators;
  read_beyond := @read_beyond example_collaborators
|}.

(** The same collaborators with a store whose first reply holds one
    document. *)
Definition one_document_batch : Collaborators := {|
  RegExp_i := @RegExp_i example_collaborators;
  jwt_verify := @jwt_verify example_collaborators;
  jwt_sign := @jwt_sign example_collaborators;
  comparePassword := @comparePassword example_collaborators;
  plan_rank := @plan_rank example_collaborators;
  first_batch _ := 1%nat;
  read_beyond := @read_beyond example_collaborators
|}.

Definition jane : User :=
  mkUser "64a000000000000000000001" "Jane" "Doe" "jane@test.com" "pw-jane".
Definition john : User :=
  mkUser "64a000000000000000000002" "John" "Doe" "john@test.com" "pw-john".

Definition post1 : Blog :=
  mkBlog "64b000000000000000000001" "First" None (user_id jane) "published"
         0 1 ["x"] "one two three" 1000 1000.
Definition post2 : Blog :=
  mkBlog "64b000000000000000000002" "Second" None (user_id john) "published"
         0 1 ["y"] "four five" 2000 2000.
Definition draft3 : Blog :=
  mkBlog "64b000000000000000000003" "Third" None (user_id jane) "draft"
         0 1 [] "six" 3000 3000.

Definition example_store : Store :=
  mkStore [jane; john] [post1; post2; draft3].

Definition no_query : ListQuery :=
  mkListQuery None None None None None None None.

Definition no_patch : Patch :=
  mkPatch None None None None None None None None.

(* ================================================================= *)
(** ** Vocabulary of the properties *)

(** The requester may see the blog. *)
Definition viewer_allowed (req_user : option User) (b : Blog) : Prop :=
  state b = "published" \/
  exists u, req_user = Some u /\ user_id u = author b.

(** The author reference of a blog resolves to a user of the store. *)
Definition author_resolves (st : Store) (b : Blog) : Prop :=
  User_findById st (author b) <> None.

(** Every blog of the store has an author among its users. *)
Definition authors_resolve (st : Store) : Prop :=
  forall b, In b (blogs st) -> author_resolves st b.

Definition is_success {A : Type} (r : Response A) : Prop :=
  exists p, r = Success 200 p.

(** Single-blog fetches one after the other; each request is the requester
    and the time of the request. *)
Fixpoint fetch_all `{Collaborators} (reqs : list (option User * Z))
    (id : ObjectId) (st : Store)
    : list (Response (BlogReply PopulatedBlog)) * Store :=
  match reqs with
  | [] => ([], st)
  | (req_user, now) :: rest =>
      let '(r, st1) := getBlog req_user id now st in
      let '(rs, st2) := fetch_all rest id st1 in
      (r :: rs, st2)
  end.

(** The first or last name of the user matches. *)
Definition name_matches (re : string -> bool) (u : User) : bool :=
  re (first_name u) || re (last_name u).

Definition published_by (a : ObjectId) (b : Blog) : bool :=
  String.eqb (state b) "published" && String.eqb (author b) a.

(** The page and limit of the specification's words: the default for an
    absent or non-positive value. *)
Definition spec_page_or (x : option string) (d : Z) : JS.Number :=
  match x with
  | None => JS.Int d
  | Some s =>
      match JS.parseInt s with
      | JS.Int v => if v <=? 0 then JS.Int d else JS.Int v
      | JS.Infinity n => if n then JS.Int d else JS.Infinity n
      | JS.NaN => JS.Int d
      end
  end.

(** The word count of the specification's words: the non-empty pieces of the
    body split on runs of white space. *)
Definition nonempty (t : string) : bool := negb (String.eqb t EmptyString).

Definition spec_word_count (body : string) : Z :=
  Z.of_nat (List.length (filter nonempty (JS.split_ws body))).

(** [s.repeat(n)] *)
Fixpoint str_repeat (s : string) (n : nat) : string :=
  match n with
  | O => EmptyString
  | S k => s ++ str_repeat s k
  end.

(** The value a listing takes for a query parameter: the default when the
    parameter is absent, is not a numeral or reads as zero, and otherwise
    the Number [parseInt] gives for the numeral, negative or not: the
    integer itself up to a magnitude of 2^53, its nearest double or an
    infinity beyond. *)
Definition defaults_to (x : option string) (d : Z) (v : JS.Number) : Prop :=
  (x = None -> v = JS.Int d)
  /\ (forall s, x = Some s ->
        JS.numeral s = None \/ JS.numeral s = Some 0 -> v = JS.Int d)
  /\ (forall s n, x = Some s -> JS.numeral s = Some n -> n <> 0 ->
        v = JS.of_Z n /\ v <> JS.Int 0 /\ v <> JS.NaN
        /\ (Z.abs n <= 2 ^ 53 -> v = JS.Int n)).

(** The documents of a result set from [offset] on, at most [limit]. *)
Definition page_slice {A : Type} (offset limit : Z) (l : list A) : list A :=
  firstn (Z.to_nat limit) (skipn (Z.to_nat offset) l).

(** The documents a find command ranges over, in the order its sort and the
    store's plan give them. *)
Definition result_set `{Collaborators} (f : Filter) (spec : list (string * Z))
    (limit skip : JS.Number) (st : Store) : list Blog :=
  Blog_sort spec
    (scan_by (plan_rank f spec limit skip (blogs st))
             (filter (matches f) (blogs st))).

(** The blog as a permitted fetch stores and returns it: counted once more
    and, when the count moved, stamped with the time of the request. *)
Definition viewed (now : Z) (b : Blog) : Blog :=
  let n := JS.add (read_count b) 1 in
  mkBlog (blog_id b) (title b) (description b) (author b) (state b) n
         (reading_time b) (tags b) (body b) (createdAt b)
         (if n =? read_count b then updatedAt b else now).


(** Descending order of a numeric key. *)
Definition desc (key : Blog -> Z) (a b : Blog) : Prop := key b <= key a.

(** The character occurs in the string. *)
Fixpoint has_char (c : ascii) (s : string) : bool :=
  match s with
  | EmptyString => false
  | String d r => Ascii.eqb d c || has_char c r
  end.

(** The header carries no token that names a user of the store. *)
Definition unauthenticated `{Collaborators} (authorization : option string)
    (st : Store) : Prop :=
  forall tok, bearer authorization = Some (Some tok) -> tok <> "" ->
    match jwt_verify (Some tok) with
    | Some id => User_findById st id = None
    | None => True
    end.

(** Every stored state is one of the schema's enum. *)
Definition states_valid (st : Store) : Prop :=
  forall b, In b (blogs st) -> state b = "draft" \/ state b = "published".

(** No two blogs share an id, or a title. *)
Definition ids_unique (st : Store) : Prop := NoDup (map blog_id (blogs st)).
Definition titles_unique (st : Store) : Prop := NoDup (map title (blogs st)).

(* ================================================================= *)
(** ** Lemmas on the store *)

Lemma Blog_findById_id (st : Store) (id : ObjectId) (b : Blog) :
  Blog_findById st id = Some b -> blog_id b = id.
Proof.
  unfold Blog_findById. intros Hf.
  apply find_some in Hf. destruct Hf as [_ He].
  now apply String.eqb_eq in He.
Qed.

Lemma Blog_findById_In (st : Store) (id : ObjectId) (b : Blog) :
  Blog_findById st id = Some b -> In b (blogs st).
Proof.
  unfold Blog_findById. intros Hf. now apply find_some in Hf.
Qed.

Lemma User_findById_id (st : Store) (id : ObjectId) (u : User) :
  User_findById st id = Some u -> user_id u = id.
Proof.
  unfold User_findById. intros Hf.
  apply find_some in Hf. destruct Hf as [_ He].
  now apply String.eqb_eq in He.
Qed.

Lemma find_replace_blog (bs : list Blog) (id : ObjectId) (b b' : Blog) :
  find (fun x => String.eqb (blog_id x) id) bs = Some b ->
  blog_id b' = id ->
  find (fun x => String.eqb (blog_id x) id) (replace_blog b' bs) = Some b'.
Proof.
  intros Hf Hid. induction bs as [|x bs IH]; simpl in *.
  - discriminate.
  - rewrite Hid.
    destruct (String.eqb (blog_id x) id) eqn:Ex.
    + simpl. rewrite Hid, String.eqb_refl. reflexivity.
    + simpl. rewrite Ex. now apply IH.
Qed.

Lemma Blog_findById_replace (st : Store) (id : ObjectId) (b b' : Blog) :
  Blog_findById st id = Some b ->
  blog_id b' = id ->
  Blog_findById (set_blogs (replace_blog b' (blogs st)) st) id = Some b'.
Proof.
  unfold Blog_findById. simpl. apply find_replace_blog.
Qed.

Lemma blog_eta (b : Blog) :
  mkBlog (blog_id b) (title b) (description b) (author b) (state b)
         (read_count b) (reading_time b) (tags b) (body b) (createdAt b)
         (updatedAt b) = b.
Proof. now destruct b. Qed.

Lemma to_double_safe (z : Z) : Z.abs z <= 2 ^ 53 -> JS.to_double z = z.
Proof.
  intros Hz. unfold JS.to_double.
  destruct (Z.leb_spec (Z.abs z) (2 ^ 53)); [reflexivity | lia].
Qed.

(** At 2^53 the counter sticks: the next integer is not a double. *)
Lemma add_one_saturates : JS.add (2 ^ 53) 1 = 2 ^ 53.
Proof. vm_compute. reflexivity. Qed.

Lemma viewer_allowed_dec (req_user : option User) (b : Blog) :
  viewer_allowed req_user b \/ ~ viewer_allowed req_user b.
Proof.
  unfold viewer_allowed.
  destruct (String.eqb (state b) "published") eqn:Es.
  - left. left. now apply String.eqb_eq.
  - apply String.eqb_neq in Es. destruct req_user as [u|].
    + destruct (String.eqb (user_id u) (author b)) eqn:Eu.
      * left. right. exists u. split; [reflexivity|now apply String.eqb_eq].
      * apply String.eqb_neq in Eu. right. intros [Hp | [v [Hv Hid]]].
        -- contradiction.
        -- inversion Hv; subst. contradiction.
    + right. intros [Hp | [v [Hv _]]]; [contradiction|discriminate].
Qed.

Section SingleBlogFetch.

Context `{Collaborators}.

(* ----------------------------------------------------------------- *)
(** *** The three outcomes of the single-blog fetch *)

Lemma getBlog_not_found (req_user : option User) (id : ObjectId) (now : Z)
    (st : Store) :
  Blog_findById st id = None ->
  getBlog req_user id now st = (Failure 404 "Blog not found", st).
Proof.
  intros Hf. unfold getBlog. rewrite Hf. reflexivity.
Qed.

Lemma populated_author (st : Store) (b : Blog) :
  author_resolves st b ->
  exists a, author_doc (populate st b) = Some a /\ av_id a = author b.
Proof.
  unfold author_resolves, populate. intros Hr. simpl.
  destruct (User_findById st (author b)) as [u|] eqn:Eu; [|congruence].
  exists (author_view u). split; [reflexivity|].
  simpl. now apply User_findById_id in Eu.
Qed.

Lemma getBlog_denied (req_user : option User) (id : ObjectId) (now : Z)
    (st : Store) (b : Blog) :
  Blog_findById st id = Some b ->
  author_resolves st b ->
  ~ viewer_allowed req_user b ->
  getBlog req_user id now st = (Failure 403 "Access denied", st).
Proof.
  intros Hf Hr Hn. unfold getBlog. rewrite Hf. simpl.
  destruct (String.eqb (state b) "published") eqn:Es.
  - exfalso. apply Hn. left. now apply String.eqb_eq.
  - simpl. destruct req_user as [u|]; [|reflexivity].
    destruct (populated_author st b Hr) as [a [Ha Hid]].
    simpl in Ha. rewrite Ha. simpl.
    destruct (String.eqb (av_id a) (user_id u)) eqn:Eu; [|reflexivity].
    exfalso. apply Hn. right. exists u. split; [reflexivity|].
    apply String.eqb_eq in Eu. congruence.
Qed.

(** A permitted fetch answers 200 with the incremented document and leaves a
    store in which that document is the one stored under the id. *)
Lemma getBlog_allowed (req_user : option User) (id : ObjectId) (now : Z)
    (st : Store) (b : Blog) :
  Blog_findById st id = Some b ->
  author_resolves st b ->
  viewer_allowed req_user b ->
  exists b' st',
    getBlog req_user id now st
      = (Success 200 (mkBlogReply None (mkPopulated b' (author_doc (populate st b)))),
         st')
    /\ Blog_findById st' id = Some b'
    /\ users st' = users st
    /\ read_count b' = JS.add (read_count b) 1
    /\ author b' = author b
    /\ state b' = state b
    /\ reading_time b' = reading_time b
    /\ body b' = body b
    /\ (st' = st \/ st' = set_blogs (replace_blog b' (blogs st)) st).
Proof.
  intros Hf Hr Ha. unfold getBlog. rewrite Hf. simpl.
  assert (Hden :
    (if negb (String.eqb (state b) "published") then
       match req_user with
       | None => ret true
       | Some u =>
           match option_map author_view (User_findById st (author b)) with
           | None => throw TypeError
           | Some a => ret (negb (String.eqb (av_id a) (user_id u)))
           end
       end
     else ret false) = ret false).
  { destruct (String.eqb (state b) "published") eqn:Es; [reflexivity|]. simpl.
    destruct Ha as [Hp | [u [Hu Hid]]].
    - apply String.eqb_neq in Es. contradiction.
    - subst req_user.
      destruct (populated_author st b Hr) as [a [Hx Hy]].
      simpl in Hx. rewrite Hx.
      replace (String.eqb (av_id a) (user_id u)) with true; [reflexivity|].
      symmetry. apply String.eqb_eq. congruence. }
  rewrite Hden. simpl. unfold Blog_save.
  destruct (JS.add (read_count b) 1 =? read_count b) eqn:En; simpl.
  - apply Z.eqb_eq in En.
    exists (set_read_count (JS.add (read_count b) 1) b), st.
    assert (Hb : set_read_count (JS.add (read_count b) 1) b = b).
    { unfold set_read_count. rewrite En. apply blog_eta. }
    split; [reflexivity|]. split; [now rewrite Hb|].
    repeat (split; [reflexivity|]). now left.
  - eexists. eexists. split; [reflexivity|].
    split; [|repeat (split; [reflexivity|]); now right].
    apply Blog_findById_replace with (b := b); [assumption|].
    simpl. now apply Blog_findById_id with (st := st).
Qed.

(** What a permitted fetch answers and stores, field by field. *)
Lemma getBlog_allowed_view (req_user : option User) (id : ObjectId) (now : Z)
    (st : Store) (b : Blog) :
  Blog_findById st id = Some b ->
  author_resolves st b ->
  viewer_allowed req_user b ->
  exists u st',
    User_findById st (author b) = Some u
    /\ getBlog req_user id now st
       = (Success 200
            (mkBlogReply None
               (mkPopulated (viewed now b) (Some (author_view u)))),
          st')
    /\ Blog_findById st' id = Some (viewed now b)
    /\ users st' = users st.
Proof.
  intros Hf Hr Ha. unfold author_resolves in Hr.
  destruct (User_findById st (author b)) as [u|] eqn:Eu; [|congruence].
  exists u.
  assert (Hden :
    (if negb (String.eqb (state b) "published") then
       match req_user with
       | None => ret true
       | Some v => ret (negb (String.eqb (user_id u) (user_id v)))
       end
     else ret false) = ret false).
  { destruct (String.eqb (state b) "published") eqn:Es; [reflexivity|]. simpl.
    destruct Ha as [Hp | [v [Hv Hid]]].
    - apply String.eqb_neq in Es. contradiction.
    - subst req_user.
      replace (String.eqb (user_id u) (user_id v)) with true; [reflexivity|].
      symmetry. apply String.eqb_eq.
      rewrite (User_findById_id st (author b) u Eu). now symmetry. }
  unfold getBlog, populate. rewrite Hf. simpl. rewrite Eu. simpl.
  rewrite Hden. simpl. unfold Blog_save, viewed.
  destruct (JS.add (read_count b) 1 =? read_count b) eqn:En; simpl.
  - exists st. split; [reflexivity|]. split; [reflexivity|].
    split; [|reflexivity].
    apply Z.eqb_eq in En. rewrite En, blog_eta. exact Hf.
  - eexists. split; [reflexivity|]. split; [reflexivity|].
    split; [|reflexivity].
    apply Blog_findById_replace with (b := b); [assumption|].
    simpl. now apply Blog_findById_id with (st := st).
Qed.

(** C1. The single-blog fetch lets the requester see the blog exactly when
    the blog is published or the requester is present and is its author. A
    permitted fetch answers 200 with the stored blog, counted once more, and
    the summary of its author, and leaves that blog stored under the id; no
    other request is answered 200. Any other request for a draft is answered
    403 "Access denied", and an id under which no blog is stored is answered
    404 "Blog not found", a different response. The blog's author reference
    is taken to resolve, as the data model has it. *)
Theorem getBlog_visibility (st : Store) (req_user : option User) (now : Z) :
  (forall id, Blog_findById st id = None ->
     getBlog req_user id now st = (Failure 404 "Blog not found", st))
  /\
  (forall id b, Blog_findById st id = Some b -> author_resolves st b ->
     (viewer_allowed req_user b ->
        exists u st',
          User_findById st (author b) = Some u
          /\ getBlog req_user id now st
             = (Success 200
                  (mkBlogReply None
                     (mkPopulated (viewed now b) (Some (author_view u)))),
                st')
          /\ Blog_findById st' id = Some (viewed now b)
          /\ users st' = users st)
     /\ ((exists p st', getBlog req_user id now st = (Success 200 p, st')) ->
           viewer_allowed req_user b)
     /\ (~ viewer_allowed req_user b ->
           getBlog req_user id now st = (Failure 403 "Access denied", st)
           /\ fst (getBlog req_user id now st)
                <> Failure 404 "Blog not found")).
Proof.
  split.
  - intros id Hf. now apply getBlog_not_found.
  - intros id b Hf Hr. split; [|split].
    + intros Ha. now apply getBlog_allowed_view.
    + intros [p [st' Hg]].
      destruct (String.eqb (state b) "published") eqn:Es.
      * left. now apply String.eqb_eq.
      * destruct req_user as [u|].
        -- destruct (String.eqb (user_id u) (author b)) eqn:Eu.
           ++ right. exists u. split; [reflexivity|]. now apply String.eqb_eq.
           ++ assert (Hn : ~ viewer_allowed (Some u) b).
              { intros [Hp | [v [Hv Hid]]].
                - apply String.eqb_neq in Es. contradiction.
                - inversion Hv; subst v. apply String.eqb_neq in Eu.
                  contradiction. }
              rewrite (getBlog_denied _ _ _ _ _ Hf Hr Hn) in Hg. discriminate.
        -- assert (Hn : ~ viewer_allowed None b).
           { intros [Hp | [v [Hv _]]]; [|discriminate].
             apply String.eqb_neq in Es. contradiction. }
           rewrite (getBlog_denied _ _ _ _ _ Hf Hr Hn) in Hg. discriminate.
    + intros Hn. rewrite (getBlog_denied _ _ _ _ _ Hf Hr Hn).
      split; [reflexivity|]. simpl. discriminate.
Qed.

Lemma viewer_allowed_ext (req_user : option User) (b b' : Blog) :
  author b' = author b -> state b' = state b ->
  viewer_allowed req_user b -> viewer_allowed req_user b'.
Proof.
  unfold viewer_allowed. intros Ha Hs [Hp | [u [Hu Hid]]].
  - left. congruence.
  - right. exists u. split; congruence.
Qed.

Lemma author_resolves_ext (st st' : Store) (b b' : Blog) :
  users st' = users st -> author b' = author b ->
  author_resolves st b -> author_resolves st' b'.
Proof.
  unfold author_resolves, User_findById. intros Hu Ha. now rewrite Hu, Ha.
Qed.

(** C4. Every fetch by a requester who may see the blog answers 200 and
    stores the blog with [read_count] one higher, whoever asks and however
    often: after N such fetches in a row the stored count is the initial
    count plus N (N itself when it started at 0), as long as the count stays
    within the integers a Number holds exactly. *)
Theorem fetch_all_counts (reqs : list (option User * Z)) :
  forall (st : Store) (id : ObjectId) (b : Blog),
    Blog_findById st id = Some b ->
    author_resolves st b ->
    (forall r, In r reqs -> viewer_allowed (fst r) b) ->
    - 2 ^ 53 <= read_count b ->
    read_count b + Z.of_nat (List.length reqs) <= 2 ^ 53 ->
    Forall is_success (fst (fetch_all reqs id st))
    /\ List.length (fst (fetch_all reqs id st)) = List.length reqs
    /\ exists b',
         Blog_findById (snd (fetch_all reqs id st)) id = Some b'
         /\ read_count b' = read_count b + Z.of_nat (List.length reqs).
Proof.
  induction reqs as [|[req_user now] rest IH]; intros st id b Hf Hr Hall Hlo Hhi.
  - simpl. split; [constructor|]. split; [reflexivity|].
    exists b. split; [assumption|lia].
  - simpl fetch_all.
    destruct (getBlog_allowed req_user id now st b Hf Hr (Hall _ (or_introl eq_refl)))
      as [b1 [st1 [Hg [Hf1 [Hu1 [Hc1 [Ha1 [Hs1 _]]]]]]]].
    rewrite Hg.
    assert (Hlen : Z.of_nat (List.length ((req_user, now) :: rest))
                   = Z.of_nat (List.length rest) + 1)
      by (simpl List.length; lia).
    rewrite Hlen in Hhi.
    assert (Hrc : read_count b1 = read_count b + 1).
    { rewrite Hc1. unfold JS.add. apply to_double_safe. lia. }
    destruct (IH st1 id b1 Hf1) as [Hok [Hn [b' [Hf' Hc']]]].
    + now apply author_resolves_ext with (st := st) (b := b).
    + intros r Hin. apply viewer_allowed_ext with (b := b); try assumption.
      apply Hall. now right.
    + lia.
    + lia.
    + destruct (fetch_all rest id st1) as [rs st2]. simpl in *.
      split; [|split].
      * constructor; [|assumption]. eexists. reflexivity.
      * now rewrite Hn.
      * exists b'. split; [assumption|]. rewrite Hc', Hrc. lia.
Qed.

(* ----------------------------------------------------------------- *)
(** *** The optional identity *)

Lemma getBlog_never_401 (req_user : option User) (id : ObjectId) (now : Z)
    (st : Store) (m : string) :
  fst (getBlog req_user id now st) <> Failure 401 m.
Proof.
  unfold getBlog.
  destruct (Blog_findById st id) as [b|]; simpl; [|discriminate].
  destruct (negb (String.eqb (state b) "published")).
  - destruct req_user as [u|]; simpl.
    + destruct (option_map author_view (User_findById st (author b))); simpl.
      * destruct (negb (String.eqb (av_id a) (user_id u))); simpl;
          [discriminate|].
        destruct (Blog_save now _ false _ st). simpl. discriminate.
      * discriminate.
    + discriminate.
  - simpl. destruct (Blog_save now _ false _ st). simpl. discriminate.
Qed.

Lemma getPublishedBlogs_never_401 (q : ListQuery) (st : Store) (m : string) :
  fst (getPublishedBlogs q st) <> Failure 401 m.
Proof.
  unfold getPublishedBlogs.
  destruct (published_query q st) as [e|f]; simpl; [discriminate|].
  destruct (Blog_find f (published_sort q) _ _ st) as [e|l]; simpl; discriminate.
Qed.

Lemma getBlog_anonymous_draft (id : ObjectId) (now : Z) (st : Store) (b : Blog) :
  Blog_findById st id = Some b ->
  state b <> "published" ->
  getBlog None id now st = (Failure 403 "Access denied", st).
Proof.
  intros Hf Hs. unfold getBlog. rewrite Hf. simpl.
  apply String.eqb_neq in Hs. rewrite Hs. reflexivity.
Qed.

(** C10. A request whose bearer token fails verification is not turned away
    on the routes with an optional identity: [optionalAuth] leaves no user on
    the request, the single-blog route answers what it answers to an
    anonymous request, the public listing never reads the header, neither
    answers 401, and a draft is refused with 403 even when the token was its
    author's. *)
Theorem optionalAuth_invalid_token_is_anonymous
    (authorization : option string) (tok : option string) (st : Store) :
  bearer authorization = Some tok ->
  jwt_verify tok = None ->
  optionalAuth authorization st = None
  /\ (forall id now,
        GET_blog authorization id now st = getBlog None id now st)
  /\ (forall q, GET_blogs authorization q st = getPublishedBlogs q st)
  /\ (forall id now m, fst (GET_blog authorization id now st) <> Failure 401 m)
  /\ (forall q m, fst (GET_blogs authorization q st) <> Failure 401 m)
  /\ (forall id now b,
        Blog_findById st id = Some b -> state b <> "published" ->
        GET_blog authorization id now st = (Failure 403 "Access denied", st)).
Proof.
  intros Hb Hv.
  assert (Ho : optionalAuth authorization st = None).
  { unfold optionalAuth. now rewrite Hb, Hv. }
  split; [assumption|].
  split; [intros; unfold GET_blog; now rewrite Ho|].
  split; [reflexivity|].
  split; [intros; apply getBlog_never_401|].
  split; [intros; apply getPublishedBlogs_never_401|].
  intros id now b Hf Hs. unfold GET_blog. rewrite Ho.
  now apply getBlog_anonymous_draft with (b := b).
Qed.

(** By contrast, a route behind [protect] turns the same request away. *)
Lemma protect_rejects_invalid_token (authorization : option string)
    (tok : option string) (id : ObjectId) (p : Patch) (now : Z) (st : Store) :
  bearer authorization = Some tok ->
  jwt_verify tok = None ->
  exists m, PUT_blog authorization id p now st = (Failure 401 m, st).
Proof.
  intros Hb Hv. unfold PUT_blog, protect. rewrite Hb.
  destruct (negb (JS.truthy tok)); [eexists; reflexivity|].
  rewrite Hv. eexists. reflexivity.
Qed.

End SingleBlogFetch.

(** The draft of Jane, asked for by John and by Jane. *)
Lemma getBlog_visibility_witness :
  Blog_findById example_store (blog_id draft3) = Some draft3
  /\ author_resolves example_store draft3
  /\ ~ viewer_allowed (Some john) draft3
  /\ getBlog (Some john) (blog_id draft3) 5000 example_store
       = (Failure 403 "Access denied", example_store)
  /\ viewer_allowed (Some jane) draft3
  /\ exists st',
       getBlog (Some jane) (blog_id draft3) 5000 example_store
       = (Success 200
            (mkBlogReply None
               (mkPopulated
                  (mkBlog (blog_id draft3) "Third" None (user_id jane) "draft"
                          1 1 [] "six" 3000 5000)
                  (Some (mkAuthorView (user_id jane) "Jane" "Doe"
                                      "jane@test.com")))),
          st')
       /\ Blog_findById st' (blog_id draft3)
          = Some (mkBlog (blog_id draft3) "Third" None (user_id jane) "draft"
                         1 1 [] "six" 3000 5000).
Proof.
  assert (Hf : Blog_findById example_store (blog_id draft3) = Some draft3)
    by reflexivity.
  assert (Hr : author_resolves example_store draft3)
    by (unfold author_resolves; simpl; discriminate).
  assert (Hn : ~ viewer_allowed (Some john) draft3).
  { intros [Hp | [u [Hu Hid]]]; [discriminate|].
    inversion Hu; subst u. discriminate. }
  assert (Hy : viewer_allowed (Some jane) draft3).
  { right. exists jane. split; reflexivity. }
  split; [exact Hf|]. split; [exact Hr|]. split; [exact Hn|].
  split; [|split; [exact Hy|]].
  - destruct (getBlog_visibility example_store (Some john) 5000) as [_ Hv].
    destruct (Hv (blog_id draft3) draft3 Hf Hr) as [_ [_ Hd]].
    exact (proj1 (Hd Hn)).
  - destruct (getBlog_visibility example_store (Some jane) 5000) as [_ Hv].
    destruct (Hv (blog_id draft3) draft3 Hf Hr) as [Ha _].
    destruct (Ha Hy) as [u [st' [Hu [Hg [Hs _]]]]].
    inversion Hu; subst u. exists st'. split; [exact Hg|exact Hs].
Defined.

(** Three fetches of a published blog: anonymous, its author, anonymous. *)
Lemma fetch_all_counts_witness :
  exists b',
    Blog_findById
      (snd (fetch_all [(None, 4001); (Some jane, 4002); (None, 4003)]
                      (blog_id post1) example_store))
      (blog_id post1) = Some b'
    /\ read_count b' = 3.
Proof.
  destruct (fetch_all_counts [(None, 4001); (Some jane, 4002); (None, 4003)]
              example_store (blog_id post1) post1) as [_ [_ [b' [Hf Hc]]]].
  - reflexivity.
  - unfold author_resolves; simpl; discriminate.
  - intros r _. left. reflexivity.
  - simpl. lia.
  - simpl. lia.
  - exists b'. split; [exact Hf|]. exact Hc.
Defined.

(** Jane's token has expired; she asks for her own draft. *)
Lemma optionalAuth_invalid_token_witness :
  bearer (Some "Bearer expired") = Some (Some "expired")
  /\ jwt_verify (Some "expired") = None
  /\ GET_blog (Some "Bearer expired") (blog_id draft3) 5000 example_store
       = (Failure 403 "Access denied", example_store).
Proof.
  split; [reflexivity|]. split; [reflexivity|].
  destruct (@optionalAuth_invalid_token_is_anonymous example_collaborators
              (Some "Bearer expired") (Some "expired") example_store
              eq_refl eq_refl) as [_ [_ [_ [_ [_ Hd]]]]].
  apply (Hd (blog_id draft3) 5000 draft3); [reflexivity|discriminate].
Defined.

(* ================================================================= *)
(** ** Referential integrity of the author *)

Lemma In_replace_blog (b x : Blog) (bs : list Blog) :
  In x (replace_blog b bs) -> x = b \/ In x bs.
Proof.
  unfold replace_blog. intros Hin. apply in_map_iff in Hin.
  destruct Hin as [y [Hy Hin]].
  destruct (String.eqb (blog_id y) (blog_id b)).
  - left. now symmetry.
  - right. now subst.
Qed.

Lemma authors_resolve_replace (st : Store) (b b' : Blog) :
  authors_resolve st -> In b (blogs st) -> author b' = author b ->
  authors_resolve (set_blogs (replace_blog b' (blogs st)) st).
Proof.
  intros Hall Hin Ha x Hx. simpl in Hx.
  apply In_replace_blog in Hx. destruct Hx as [-> | Hx].
  - apply author_resolves_ext with (st := st) (b := b);
      [reflexivity | assumption | now apply Hall].
  - apply author_resolves_ext with (st := st) (b := x);
      [reflexivity | reflexivity | now apply Hall].
Qed.

Section Integrity.

Context `{Collaborators}.

(** The user [protect] lets through is a user of the store. *)
Lemma protect_user (A : Type) (authorization : option string) (st : Store)
    (u : User) :
  @protect _ A authorization st = inl u ->
  User_findById st (user_id u) = Some u.
Proof.
  unfold protect.
  destruct (negb (JS.truthy _)); [discriminate|].
  destruct (jwt_verify _) as [id|]; [|discriminate].
  destruct (User_findById st id) as [v|] eqn:Ev; [|discriminate].
  intros Hu. inversion Hu; subst v.
  now rewrite (User_findById_id st id u Ev).
Qed.

(** What [createBlog] stores and answers. *)
Lemma createBlog_success (newId : ObjectId) (now : Z) (req_user : User)
    (cb : CreateBody) (st st' : Store) (r : BlogReply Blog) :
  createBlog newId now req_user cb st = (Success 201 r, st') ->
  blogs st' = (blogs st ++ [data r])%list
  /\ users st' = users st
  /\ cb_body cb = Some (body (data r))
  /\ author (data r) = user_id req_user
  /\ state (data r) = "draft"
  /\ read_count (data r) = 0
  /\ reading_time (data r)
     = JS.ceil_div (wordCount (body (data r))) wordsPerMinute.
Proof.
  unfold createBlog, Blog_create.
  destruct (option_map JS.trim (cb_title cb)) as [t|]; [|discriminate].
  destruct (cb_body cb) as [bd|]; [|discriminate].
  destruct (valid_title t && valid_body bd); [|discriminate].
  destruct (title_taken newId t (blogs st)); [discriminate|].
  simpl. intros Hr. inversion Hr; subst. simpl. repeat split.
Qed.

Lemma createBlog_authors_resolve (newId : ObjectId) (now : Z) (req_user : User)
    (cb : CreateBody) (st : Store) :
  User_findById st (user_id req_user) <> None ->
  authors_resolve st ->
  authors_resolve (snd (createBlog newId now req_user cb st)).
Proof.
  intros Hu Hall.
  destruct (createBlog newId now req_user cb st) as [r st'] eqn:Ec.
  assert (Hst : st' = st \/ exists p, r = Success 201 p).
  { revert Ec. unfold createBlog.
    destruct (Blog_create newId now cb (user_id req_user) st) as [e|[b s]];
      simpl; intros Hc; inversion Hc; [now left|right; eexists; reflexivity]. }
  destruct Hst as [-> | [p ->]]; [exact Hall|].
  apply createBlog_success in Ec.
  destruct Ec as [Hb [Hus [_ [Ha _]]]].
  simpl. intros b Hin. rewrite Hb in Hin. apply in_app_or in Hin.
  destruct Hin as [Hin | [<- | []]].
  - apply author_resolves_ext with (st := st) (b := b);
      [assumption | reflexivity | now apply Hall].
  - unfold author_resolves, User_findById. rewrite Hus, Ha. exact Hu.
Qed.

Lemma getBlog_authors_resolve (req_user : option User) (id : ObjectId)
    (now : Z) (st : Store) :
  authors_resolve st ->
  authors_resolve (snd (getBlog req_user id now st)).
Proof.
  intros Hall.
  destruct (Blog_findById st id) as [b|] eqn:Ef.
  - pose proof (Blog_findById_In st id b Ef) as Hin.
    destruct (viewer_allowed_dec req_user b) as [Hy | Hn].
    + destruct (getBlog_allowed req_user id now st b Ef (Hall b Hin) Hy)
        as [b' [st' [Hg [_ [_ [_ [Ha [_ [_ [_ Hst]]]]]]]]]].
      rewrite Hg. simpl. destruct Hst as [-> | ->]; [exact Hall|].
      now apply authors_resolve_replace with (b := b).
    + now rewrite (getBlog_denied req_user id now st b Ef (Hall b Hin) Hn).
  - now rewrite getBlog_not_found.
Qed.

Lemma updateBlogState_authors_resolve (req_user : User) (id : ObjectId)
    (req_state : option string) (now : Z) (st : Store) :
  authors_resolve st ->
  authors_resolve (snd (updateBlogState req_user id req_state now st)).
Proof.
  intros Hall. unfold updateBlogState.
  destruct (negb _); [exact Hall|].
  destruct (Blog_findById st id) as [b|] eqn:Ef; [|exact Hall].
  destruct (negb (String.eqb (author b) (user_id req_user))); [exact Hall|].
  unfold Blog_save.
  destruct (negb (String.eqb (or_else req_state "") (state b))); simpl;
    [|exact Hall].
  apply authors_resolve_replace with (b := b);
    [assumption | now apply Blog_findById_In with (id := id) | reflexivity].
Qed.

Lemma deleteBlog_authors_resolve (req_user : User) (id : ObjectId) (st : Store) :
  authors_resolve st ->
  authors_resolve (snd (deleteBlog req_user id st)).
Proof.
  intros Hall. unfold deleteBlog.
  destruct (Blog_findById st id) as [b|]; [|exact Hall].
  destruct (negb (String.eqb (author b) (user_id req_user))); [exact Hall|].
  simpl. intros x Hx. unfold remove_blog in Hx. apply filter_In in Hx.
  apply author_resolves_ext with (st := st) (b := x);
    [reflexivity | reflexivity | now apply Hall].
Qed.

(** The update keeps the invariant when the patch names no author; a patch
    may name any id. *)
Lemma updateBlog_authors_resolve (req_user : User) (id : ObjectId) (p : Patch)
    (now : Z) (st : Store) :
  p_author p = None ->
  authors_resolve st ->
  authors_resolve (snd (updateBlog req_user id p now st)).
Proof.
  intros Hp Hall. unfold updateBlog.
  destruct (Blog_findById st id) as [b|] eqn:Ef; [|exact Hall].
  destruct (negb (String.eqb (author b) (user_id req_user))); [exact Hall|].
  unfold Blog_findByIdAndUpdate. rewrite Ef.
  destruct (valid_patch p); [|exact Hall].
  destruct (title_taken id _ (blogs st)); [exact Hall|].
  simpl.
  apply authors_resolve_replace with (b := b);
    [assumption | now apply Blog_findById_In with (id := id) |].
  unfold apply_patch. simpl. now rewrite Hp.
Qed.

End Integrity.

(** A patch that names an id no user has leaves a dangling author; the
    draft branch of the fetch then reads [_id] of [null]. *)
Lemma updateBlog_breaks_authors_resolve :
  let patch := mkPatch None None (Some "64a0000000000000000000ee") None None None None None in
  let st' := snd (updateBlog jane (blog_id draft3) patch 6000 example_store) in
  exists b,
    Blog_findById st' (blog_id draft3) = Some b
    /\ User_findById st' (author b) = None
    /\ getBlog (Some john) (blog_id draft3) 7000 st' = (NextError TypeError, st').
Proof.
  eexists. split; [reflexivity|]. split; reflexivity.
Qed.

(* ================================================================= *)
(** ** Lifecycle: state changes, updates, reading time *)

Lemma includes_draft_published (s : string) :
  JS.includes ["draft"; "published"] s = true <-> s = "draft" \/ s = "published".
Proof.
  unfold JS.includes. simpl. rewrite orb_false_r, orb_true_iff.
  rewrite !String.eqb_eq. tauto.
Qed.

(** C5. A state outside draft and published, or none at all, is answered 400
    before the blog is looked up: the answer is the same for every requester
    and every id, and the store is untouched. For a state of the list the
    lookup comes first (404), then the ownership check (403), and only the
    author's request stores the blog with the new state. *)
Theorem updateBlogState_validates_first (req_user : User) (id : ObjectId)
    (req_state : option string) (now : Z) (st : Store) :
  ((forall s, req_state = Some s -> s <> "draft" /\ s <> "published") ->
     updateBlogState req_user id req_state now st
     = (Failure 400 "Invalid state. Must be either draft or published", st))
  /\
  (forall s, req_state = Some s -> s = "draft" \/ s = "published" ->
     (Blog_findById st id = None ->
        updateBlogState req_user id req_state now st
        = (Failure 404 "Blog not found", st))
     /\ (forall b, Blog_findById st id = Some b ->
           author b <> user_id req_user ->
           updateBlogState req_user id req_state now st
           = (Failure 403 "Not authorized to update this blog", st))
     /\ (forall b, Blog_findById st id = Some b ->
           author b = user_id req_user ->
           exists b' st',
             updateBlogState req_user id req_state now st
             = (Success 200
                  (mkBlogReply (Some ("Blog " ++ s ++ " successfully")) b'),
                st')
             /\ Blog_findById st' id = Some b'
             /\ state b' = s
             /\ author b' = author b
             /\ read_count b' = read_count b
             /\ reading_time b' = reading_time b
             /\ body b' = body b)).
Proof.
  split.
  - intros Hout. unfold updateBlogState.
    destruct req_state as [s|]; [|reflexivity].
    destruct (JS.includes ["draft"; "published"] s) eqn:Ei; [|reflexivity].
    apply includes_draft_published in Ei.
    destruct (Hout s eq_refl) as [Hd Hp]. tauto.
  - intros s Hs Hin. subst req_state.
    apply includes_draft_published in Hin.
    unfold updateBlogState. rewrite Hin. simpl negb. cbv iota.
    split; [|split].
    + intros Hf. rewrite Hf. reflexivity.
    + intros b Hf Hne. rewrite Hf.
      apply String.eqb_neq in Hne. rewrite Hne. reflexivity.
    + intros b Hf Heq. rewrite Hf.
      apply String.eqb_eq in Heq. rewrite Heq. simpl negb. cbv iota.
      unfold Blog_save, or_else.
      destruct (String.eqb s (state b)) eqn:Es; simpl.
      * apply String.eqb_eq in Es.
        exists (set_state s b), st.
        assert (Hb : set_state s b = b).
        { unfold set_state. rewrite Es. apply blog_eta. }
        repeat split; try reflexivity. now rewrite Hb.
      * eexists. eexists. split; [reflexivity|].
        split; [|repeat split; reflexivity].
        apply Blog_findById_replace with (b := b); [assumption|].
        simpl. now apply Blog_findById_id with (st := st).
Qed.

(** John asks to archive a blog that does not exist; Jane publishes her
    draft. *)
Lemma updateBlogState_validates_first_witness :
  updateBlogState john "64b0000000000000000000ff" (Some "archived") 7000
                  example_store
  = (Failure 400 "Invalid state. Must be either draft or published",
     example_store)
  /\ exists b' st',
       Blog_findById st' (blog_id draft3) = Some b' /\ state b' = "published"
       /\ fst (updateBlogState jane (blog_id draft3) (Some "published") 7000
                               example_store)
          = Success 200 (mkBlogReply (Some "Blog published successfully") b').
Proof.
  split.
  - apply (proj1 (updateBlogState_validates_first
                    john "64b0000000000000000000ff" (Some "archived") 7000
                    example_store)).
    intros s Hs. inversion Hs; subst s. split; discriminate.
  - destruct (proj2 (updateBlogState_validates_first
                       jane (blog_id draft3) (Some "published") 7000
                       example_store)
                    "published" eq_refl (or_intror eq_refl))
      as [_ [_ Hown]].
    destruct (Hown draft3 eq_refl eq_refl) as [b' [st' [Hu [Hf [Hs _]]]]].
    exists b', st'. split; [exact Hf|]. split; [exact Hs|].
    rewrite Hu. reflexivity.
Defined.

(** What the update stores for a patch that passes the validators and does
    not collide on the title: every path of the patch, as sent. *)
Lemma updateBlog_by_author (req_user : User) (id : ObjectId) (p : Patch)
    (now : Z) (st : Store) (b : Blog) :
  Blog_findById st id = Some b ->
  author b = user_id req_user ->
  valid_patch p = true ->
  title_taken id (title (apply_patch now p b)) (blogs st) = false ->
  updateBlog req_user id p now st
  = (Success 200
       (mkBlogReply (Some "Blog updated successfully") (Some (apply_patch now p b))),
     set_blogs (replace_blog (apply_patch now p b) (blogs st)) st)
  /\ Blog_findById (snd (updateBlog req_user id p now st)) id
     = Some (apply_patch now p b).
Proof.
  intros Hf Ha Hv Ht.
  assert (Hu : updateBlog req_user id p now st
               = (Success 200
                    (mkBlogReply (Some "Blog updated successfully")
                                 (Some (apply_patch now p b))),
                  set_blogs (replace_blog (apply_patch now p b) (blogs st)) st)).
  { unfold updateBlog. rewrite Hf.
    apply String.eqb_eq in Ha. rewrite Ha. simpl negb. cbv iota.
    unfold Blog_findByIdAndUpdate. rewrite Hv, Hf, Ht. reflexivity. }
  split; [exact Hu|]. rewrite Hu. simpl snd.
  apply Blog_findById_replace with (b := b); [assumption|].
  simpl. now apply Blog_findById_id with (st := st).
Qed.

(** The update does not go through the pre-save hook: the stored reading
    time is the patch's, or else the old one, whatever the new body is. *)
Lemma updateBlog_reading_time (req_user : User) (id : ObjectId) (p : Patch)
    (now : Z) (st : Store) (b : Blog) :
  Blog_findById st id = Some b ->
  author b = user_id req_user ->
  valid_patch p = true ->
  title_taken id (title (apply_patch now p b)) (blogs st) = false ->
  exists b',
    Blog_findById (snd (updateBlog req_user id p now st)) id = Some b'
    /\ body b' = or_else (p_body p) (body b)
    /\ reading_time b' = or_else (p_reading_time p) (reading_time b).
Proof.
  intros Hf Ha Hv Ht.
  destruct (updateBlog_by_author req_user id p now st b Hf Ha Hv Ht) as [_ Hs].
  exists (apply_patch now p b). split; [exact Hs|]. split; reflexivity.
Qed.

(** C2, at the failing input. Jane sends, for her own draft, a patch that
    names another author, the published state and a read count of 100: the
    update answers 200 and the stored blog carries all three. *)
Theorem updateBlog_overwrites_protected_fields :
  let patch :=
    mkPatch None None (Some (user_id john)) (Some "published") (Some 100)
            None None None in
  let '(response, st') := updateBlog jane (blog_id draft3) patch 6000 example_store in
  author draft3 = user_id jane
  /\ state draft3 = "draft"
  /\ read_count draft3 = 0
  /\ exists b',
       response = Success 200 (mkBlogReply (Some "Blog updated successfully") (Some b'))
       /\ Blog_findById st' (blog_id draft3) = Some b'
       /\ author b' = user_id john
       /\ state b' = "published"
       /\ read_count b' = 100.
Proof.
  vm_compute. repeat split. eexists. repeat split.
Qed.

(* ----------------------------------------------------------------- *)
(** *** The word count of the pre-save hook *)

Lemma append_nonempty (cur : string) (c : ascii) :
  cur ++ String c EmptyString <> EmptyString.
Proof. destruct cur; discriminate. Qed.

(** White space that follows white space adds no piece. *)
Lemma words_skip_leading (s : string) :
  filter nonempty (JS.split_ws_go true EmptyString s)
  = filter nonempty (JS.split_ws_go false EmptyString (JS.trimStart s)).
Proof.
  induction s as [|c r IH]; [reflexivity|].
  simpl. destruct (JS.isWhiteSpace c) eqn:Ec.
  - exact IH.
  - simpl. rewrite Ec. reflexivity.
Qed.

Lemma words_trimStart (s : string) :
  filter nonempty (JS.split_ws s)
  = filter nonempty (JS.split_ws (JS.trimStart s)).
Proof.
  unfold JS.split_ws. destruct s as [|c r]; [reflexivity|].
  simpl. destruct (JS.isWhiteSpace c) eqn:Ec.
  - simpl. apply words_skip_leading.
  - simpl. rewrite Ec. reflexivity.
Qed.

(** A string of white space only. *)
Lemma words_blank (s : string) :
  JS.trimEnd s = EmptyString ->
  forall b cur,
    filter nonempty (JS.split_ws_go b cur s) = filter nonempty [cur].
Proof.
  induction s as [|c r IH]; intros Ht b cur; [reflexivity|].
  simpl in Ht. destruct (JS.trimEnd r) eqn:Er; [|discriminate].
  destruct (JS.isWhiteSpace c) eqn:Ec; [|discriminate].
  simpl. rewrite Ec. destruct b.
  - now apply IH.
  - simpl. rewrite (IH eq_refl true EmptyString). simpl.
    destruct (nonempty cur); reflexivity.
Qed.

Lemma words_trimEnd (s : string) :
  forall b cur,
    filter nonempty (JS.split_ws_go b cur s)
    = filter nonempty (JS.split_ws_go b cur (JS.trimEnd s)).
Proof.
  induction s as [|c r IH]; intros b cur; [reflexivity|].
  simpl JS.trimEnd. destruct (JS.trimEnd r) as [|c' r'] eqn:Er.
  - destruct (JS.isWhiteSpace c) eqn:Ec.
    + simpl. rewrite Ec. destruct b.
      * now apply words_blank.
      * simpl. rewrite (words_blank r Er true EmptyString). simpl.
        destruct (nonempty cur); reflexivity.
    + simpl. rewrite Ec. now apply words_blank.
  - simpl. destruct (JS.isWhiteSpace c); [destruct b|]; simpl;
      rewrite IH; reflexivity.
Qed.

Lemma spec_words_trim (s : string) :
  filter nonempty (JS.split_ws s) = filter nonempty (JS.split_ws (JS.trim s)).
Proof.
  rewrite words_trimStart. unfold JS.split_ws, JS.trim. apply words_trimEnd.
Qed.

Lemma trimEnd_fixed_tail (c : ascii) (r : string) :
  JS.trimEnd (String c r) = String c r -> JS.trimEnd r = r.
Proof.
  simpl. destruct (JS.trimEnd r) as [|c' r'] eqn:Er.
  - destruct (JS.isWhiteSpace c); [discriminate|].
    intros He. inversion He. reflexivity.
  - intros He. inversion He. reflexivity.
Qed.

Lemma trimEnd_fixed_ws (c : ascii) (r : string) :
  JS.isWhiteSpace c = true ->
  JS.trimEnd (String c r) = String c r -> r <> EmptyString.
Proof.
  intros Hc. simpl. destruct r as [|c' r']; [|discriminate].
  simpl. rewrite Hc. discriminate.
Qed.

(** In a string with no white space at its end, read from a state that
    cannot emit an empty piece, no piece is empty. *)
Lemma pieces_nonempty (s : string) :
  forall b cur,
    JS.trimEnd s = s ->
    (b = true -> s <> EmptyString) ->
    (b = false ->
       cur <> EmptyString
       \/ exists c r, s = String c r /\ JS.isWhiteSpace c = false) ->
    forallb nonempty (JS.split_ws_go b cur s) = true.
Proof.
  induction s as [|c r IH]; intros b cur Hfix Ht Hf.
  - destruct b; [now destruct Ht|].
    destruct (Hf eq_refl) as [Hc | [c [r [He _]]]]; [|discriminate].
    simpl. unfold nonempty. apply String.eqb_neq in Hc. now rewrite Hc.
  - pose proof (trimEnd_fixed_tail c r Hfix) as Hr.
    simpl. destruct (JS.isWhiteSpace c) eqn:Ec.
    + pose proof (trimEnd_fixed_ws c r Ec Hfix) as Hne.
      destruct b.
      * apply IH; [assumption|trivial|discriminate].
      * destruct (Hf eq_refl) as [Hc | [c0 [r0 [He Hw]]]].
        -- simpl. unfold nonempty at 1. apply String.eqb_neq in Hc.
           rewrite Hc. simpl. apply IH; [assumption|trivial|discriminate].
        -- inversion He; subst. congruence.
    + apply IH; [assumption|discriminate|].
      intros _. left. apply append_nonempty.
Qed.

Lemma trimStart_head (s : string) :
  JS.trimStart s = EmptyString
  \/ exists c r, JS.trimStart s = String c r /\ JS.isWhiteSpace c = false.
Proof.
  induction s as [|c r IH]; [now left|].
  simpl. destruct (JS.isWhiteSpace c) eqn:Ec; [exact IH|].
  right. exists c, r. split; [reflexivity|assumption].
Qed.

Lemma trimEnd_idempotent (s : string) : JS.trimEnd (JS.trimEnd s) = JS.trimEnd s.
Proof.
  induction s as [|c r IH]; [reflexivity|].
  simpl. destruct (JS.trimEnd r) as [|c' r'] eqn:Er.
  - destruct (JS.isWhiteSpace c) eqn:Ec; [reflexivity|].
    simpl. now rewrite Ec.
  - change (JS.trimEnd (String c (String c' r')) = String c (String c' r')).
    simpl JS.trimEnd at 1. cbn [JS.trimEnd]. cbn [JS.trimEnd] in IH.
    rewrite IH. reflexivity.
Qed.

Lemma trimEnd_head (c : ascii) (r : string) :
  JS.isWhiteSpace c = false ->
  exists r', JS.trimEnd (String c r) = String c r'.
Proof.
  intros Hc. simpl. destruct (JS.trimEnd r).
  - rewrite Hc. now exists EmptyString.
  - eexists. reflexivity.
Qed.

(** After [trim], a string that is not empty splits into pieces none of
    which is empty. *)
Lemma split_trim_nonempty (s : string) :
  JS.trim s <> EmptyString ->
  forallb nonempty (JS.split_ws (JS.trim s)) = true.
Proof.
  intros Hne. unfold JS.split_ws. apply pieces_nonempty.
  - apply trimEnd_idempotent.
  - discriminate.
  - intros _. right. unfold JS.trim in *.
    destruct (trimStart_head s) as [He | [c [r [He Hc]]]].
    + rewrite He in Hne. now destruct Hne.
    + rewrite He. destruct (trimEnd_head c r Hc) as [r' Hr'].
      exists c, r'. split; assumption.
Qed.

Lemma filter_all {A : Type} (p : A -> bool) (l : list A) :
  forallb p l = true -> filter p l = l.
Proof.
  induction l as [|x r IH]; simpl; [reflexivity|].
  intros Hp. apply andb_true_iff in Hp. destruct Hp as [Hx Hr].
  rewrite Hx. now rewrite IH.
Qed.

(** The count of the pre-save hook is the count of the non-empty pieces of
    the body whenever the body has a character that is not white space. *)
Lemma wordCount_is_spec_word_count (body : string) :
  JS.trim body <> EmptyString ->
  wordCount body = spec_word_count body.
Proof.
  intros Hne. unfold wordCount, spec_word_count.
  rewrite spec_words_trim.
  now rewrite (filter_all _ _ (split_trim_nonempty body Hne)).
Qed.

(** A body of white space only: one piece for the hook, no word. *)
Lemma wordCount_blank_body :
  wordCount "   " = 1 /\ spec_word_count "   " = 0.
Proof. split; reflexivity. Qed.

(** On creation the hook runs: the reading time stored is the rule's, in the
    specification's word count, for every body that has a word. *)
Lemma createBlog_reading_time_rule (newId : ObjectId) (now : Z) (req_user : User)
    (cb : CreateBody) (st st' : Store) (r : BlogReply Blog) :
  createBlog newId now req_user cb st = (Success 201 r, st') ->
  JS.trim (body (data r)) <> EmptyString ->
  reading_time (data r) = JS.ceil_div (spec_word_count (body (data r))) 200.
Proof.
  intros Hc Hne. apply createBlog_success in Hc.
  destruct Hc as [_ [_ [_ [_ [_ [_ Hrt]]]]]].
  rewrite Hrt. now rewrite wordCount_is_spec_word_count.
Qed.

(** The scenario of the test suite: a body of 400 words reads in 2 minutes,
    and the new blog is a draft that nobody has read. *)
Lemma createBlog_400_words :
  exists r st',
    createBlog "64b000000000000000000004" 4000 jane
               (mkCreateBody (Some "A") None None (Some (str_repeat "word " 400)))
               example_store = (Success 201 r, st')
    /\ reading_time (data r) = 2
    /\ state (data r) = "draft"
    /\ read_count (data r) = 0
    /\ Blog_findById st' "64b000000000000000000004" = Some (data r).
Proof.
  eexists. eexists. split; [vm_compute; reflexivity|]. repeat split.
Qed.

(** C3, at the failing input. Jane replaces the one-word body of her draft
    by a body of 400 words: the update answers 200 and the stored blog has
    the new body and the old reading time, 1, where the rule gives 2. *)
Theorem updateBlog_leaves_reading_time_stale :
  let patch :=
    mkPatch None None None None None None None (Some (str_repeat "word " 400)) in
  let '(response, st') := updateBlog jane (blog_id draft3) patch 6000 example_store in
  reading_time draft3 = JS.ceil_div (spec_word_count (body draft3)) 200
  /\ exists b',
       response = Success 200 (mkBlogReply (Some "Blog updated successfully") (Some b'))
       /\ Blog_findById st' (blog_id draft3) = Some b'
       /\ body b' = str_repeat "word " 400
       /\ reading_time b' = 1
       /\ JS.ceil_div (spec_word_count (body b')) 200 = 2
       /\ JS.ceil_div (wordCount (body b')) wordsPerMinute = 2.
Proof.
  vm_compute. split; [reflexivity|]. eexists. repeat split.
Qed.

(* ================================================================= *)
(** ** Signin *)

Section Signin.

Context `{Collaborators}.

(** C9. A signin that fails because no user has the email and a signin that
    fails because the password does not verify get the same response. With
    both fields present it is 401 "Invalid credentials" in either case; with
    one of them missing it is the 400 sent before any lookup. Nothing in the
    response depends on which check failed. *)
Theorem signin_failure_undifferentiated (req_email req_password : option string)
    (st : Store) :
  User_findOne_email (or_else req_email "") st = None
  \/ (exists u, User_findOne_email (or_else req_email "") st = Some u
                /\ comparePassword u (or_else req_password "") = false) ->
  signin req_email req_password st
  = if JS.truthy req_email && JS.truthy req_password
    then Failure 401 "Invalid credentials"
    else Failure 400 "Please provide email and password".
Proof.
  intros Hfail. unfold signin.
  destruct (JS.truthy req_email); [|reflexivity].
  destruct (JS.truthy req_password); [|reflexivity]. simpl.
  destruct Hfail as [Hnone | [u [Hu Hc]]].
  - now rewrite Hnone.
  - now rewrite Hu, Hc.
Qed.

End Signin.

(** An unknown address, and Jane's address with a wrong password. *)
Lemma signin_failure_undifferentiated_witness :
  signin (Some "nobody@test.com") (Some "pw-jane") example_store
  = Failure 401 "Invalid credentials"
  /\ signin (Some "jane@test.com") (Some "letmein") example_store
     = Failure 401 "Invalid credentials".
Proof.
  split.
  - apply (@signin_failure_undifferentiated example_collaborators
             (Some "nobody@test.com") (Some "pw-jane") example_store).
    left. reflexivity.
  - apply (@signin_failure_undifferentiated example_collaborators
             (Some "jane@test.com") (Some "letmein") example_store).
    right. exists jane. split; reflexivity.
Defined.

(* ================================================================= *)
(** ** Listings: sorting *)

Lemma insert_doc_perm (spec : list (string * Z)) (x : Blog) (l : list Blog) :
  Permutation (insert_doc spec x l) (x :: l).
Proof.
  induction l as [|y r IH]; simpl.
  - apply Permutation_refl.
  - destruct (sort_cmp spec x y); try apply Permutation_refl.
    apply perm_trans with (y :: x :: r).
    + now apply perm_skip.
    + apply perm_swap.
Qed.

Lemma Blog_sort_perm (spec : list (string * Z)) (l : list Blog) :
  Permutation (Blog_sort spec l) l.
Proof.
  induction l as [|x r IH]; simpl.
  - apply perm_nil.
  - apply perm_trans with (x :: Blog_sort spec r).
    + apply insert_doc_perm.
    + now apply perm_skip.
Qed.

(** The empty sort object leaves the documents as they come. *)
Lemma Blog_sort_empty (l : list Blog) : Blog_sort [] l = l.
Proof.
  induction l as [|x r IH]; simpl; [reflexivity|].
  rewrite IH. destruct r; reflexivity.
Qed.

Section Descending.

(** A sort key [k] that is a numeric path read by [key]. *)
Variable k : string.
Variable key : Blog -> Z.
Hypothesis key_path : forall b, numeric_path k b = Some (key b).

Lemma sort_cmp_desc (a b : Blog) :
  sort_cmp [(k, -1)] a b = CompOpp (key a ?= key b).
Proof.
  simpl. unfold compare_path. rewrite !key_path.
  destruct (key a ?= key b); reflexivity.
Qed.

Lemma insert_doc_desc (x : Blog) (l : list Blog) :
  Sorted (desc key) l -> Sorted (desc key) (insert_doc [(k, -1)] x l).
Proof.
  induction 1 as [|y r Hs IH Hhd].
  - simpl. repeat constructor.
  - cbn [insert_doc]. rewrite sort_cmp_desc.
    destruct (Z.compare_spec (key x) (key y)) as [He | Hlt | Hgt]; cbn [CompOpp].
    + constructor; [now constructor|]. constructor. unfold desc. lia.
    + constructor; [exact IH|].
      destruct r as [|z r'].
      * simpl. constructor. unfold desc. lia.
      * cbn [insert_doc]. rewrite sort_cmp_desc.
        inversion Hhd as [|? ? Hzy]; subst.
        destruct (key x ?= key z); cbn [CompOpp]; constructor;
          unfold desc in *; lia.
    + constructor; [now constructor|]. constructor. unfold desc. lia.
Qed.

(** [.sort({ k: -1 })] returns the documents by descending [k]. *)
Lemma Blog_sort_desc (l : list Blog) :
  Sorted (desc key) (Blog_sort [(k, -1)] l).
Proof.
  induction l as [|x r IH]; simpl.
  - constructor.
  - now apply insert_doc_desc.
Qed.

End Descending.

(* ================================================================= *)
(** ** Listings: paging *)

Lemma pow_53_1024 : 2 ^ 53 < 2 ^ 1024.
Proof. apply Z.pow_lt_mono_r; lia. Qed.

(** Up to 2^53 in magnitude an integer is its own Number. *)
Lemma of_Z_safe (z : Z) : Z.abs z <= 2 ^ 53 -> JS.of_Z z = JS.Int z.
Proof.
  intros Hz. unfold JS.of_Z. rewrite (to_double_safe z Hz).
  pose proof pow_53_1024 as Hp.
  destruct (Z.ltb_spec (Z.abs z) (2 ^ 1024)); [reflexivity|lia].
Qed.

(** Rounding does not reach zero. *)
Lemma to_double_nonzero (z : Z) : z <> 0 -> JS.to_double z <> 0.
Proof.
  intros Hz. unfold JS.to_double.
  destruct (Z.leb_spec (Z.abs z) (2 ^ 53)) as [_ | Hbig]; [assumption|].
  set (a := Z.abs z) in *.
  assert (Hlog : 53 <= Z.log2 a).
  { rewrite <- (Z.log2_pow2 53) by lia. apply Z.log2_le_mono. lia. }
  set (e := Z.log2 a - 52).
  assert (He : 0 <= e) by (unfold e; lia).
  assert (Hq : 0 < Z.shiftr a e).
  { rewrite Z.shiftr_div_pow2 by assumption.
    apply Z.div_str_pos. split; [apply Z.pow_pos_nonneg; lia|].
    apply Z.le_trans with (2 ^ Z.log2 a).
    - apply Z.pow_le_mono_r; unfold e; lia.
    - apply Z.log2_spec. lia. }
  assert (Hm : forall m, 0 < m -> Z.sgn z * Z.shiftl m e <> 0).
  { intros m Hpos. rewrite Z.shiftl_mul_pow2 by assumption.
    assert (0 < 2 ^ e) by (apply Z.pow_pos_nonneg; lia).
    destruct (Z.sgn_spec z) as [[? ->] | [[? ->] | [? ->]]]; nia. }
  cbv zeta.
  destruct (_ <? _); [now apply Hm|].
  destruct (_ <? _); [apply Hm; lia|].
  destruct (Z.even _); apply Hm; lia.
Qed.

Lemma of_Z_nonzero (z : Z) :
  z <> 0 -> JS.of_Z z <> JS.Int 0 /\ JS.of_Z z <> JS.NaN.
Proof.
  intros Hz. unfold JS.of_Z.
  destruct (Z.abs (JS.to_double z) <? 2 ^ 1024); split; try discriminate.
  intros He. inversion He as [Hd]. now apply (to_double_nonzero z Hz).
Qed.

(** A numeral one past 2^53 is read as 2^53. *)
Lemma parseInt_rounds :
  JS.numeral "9007199254740993" = Some (2 ^ 53 + 1)
  /\ JS.parseInt "9007199254740993" = JS.Int (2 ^ 53).
Proof. split; vm_compute; reflexivity. Qed.

Lemma parseInt_or_defaults (x : option string) (d : Z) :
  defaults_to x d (JS.parseInt_or x d).
Proof.
  unfold defaults_to, JS.parseInt_or, JS.parseInt. split; [|split].
  - intros ->. reflexivity.
  - intros s -> [Hn | Hz]; rewrite ?Hn, ?Hz; reflexivity.
  - intros s n -> Hp Hn. rewrite Hp.
    destruct (of_Z_nonzero n Hn) as [H0 Hnan].
    assert (Hv : match JS.of_Z n with
                 | JS.Int v => if v =? 0 then JS.Int d else JS.Int v
                 | JS.Infinity m => JS.Infinity m
                 | JS.NaN => JS.Int d
                 end = JS.of_Z n).
    { destruct (JS.of_Z n) as [v| |]; [|reflexivity|congruence].
      destruct (Z.eqb_spec v 0); [subst; congruence|reflexivity]. }
    rewrite Hv. repeat split; try assumption.
    intros Hs. now apply of_Z_safe.
Qed.

Lemma parseInt_or_nonzero (x : option string) (d : Z) :
  d <> 0 -> JS.parseInt_or x d <> JS.Int 0 /\ JS.parseInt_or x d <> JS.NaN.
Proof.
  intros Hd. unfold JS.parseInt_or.
  assert (HD : JS.Int d <> JS.Int 0) by (intros He; inversion He; contradiction).
  destruct x as [s|]; [|split; [assumption|discriminate]].
  destruct (JS.parseInt s) as [v| |]; try (split; [assumption|discriminate]).
  - destruct (Z.eqb_spec v 0); split; try assumption; try discriminate.
    intros He. inversion He. contradiction.
  - split; discriminate.
Qed.

(** The offset of a page, while the product is an integer a Number holds
    exactly. *)
Lemma skip_safe (p l : Z) :
  1 <= p -> 1 <= l -> (p - 1) * l <= 2 ^ 53 ->
  JS.mul (JS.sub (JS.Int p) (JS.Int 1)) (JS.Int l) = JS.Int ((p - 1) * l).
Proof.
  intros Hp Hl Hs. unfold JS.sub.
  rewrite of_Z_safe by nia.
  unfold JS.mul. apply of_Z_safe. nia.
Qed.

Lemma skip_first_page (l : Z) :
  JS.mul (JS.sub (JS.Int 1) (JS.Int 1)) (JS.Int l) = JS.Int 0.
Proof.
  unfold JS.sub. rewrite of_Z_safe by (simpl; lia).
  unfold JS.mul. replace ((1 - 1) * l) with 0 by lia.
  apply of_Z_safe. simpl. lia.
Qed.

(** [ceil_div] is the ceiling of the quotient. *)
Lemma ceil_div_ceiling (a b : Z) :
  0 < b -> (JS.ceil_div a b - 1) * b < a <= JS.ceil_div a b * b.
Proof.
  intros Hb. unfold JS.ceil_div.
  pose proof (Z.div_mod (- a) b ltac:(lia)) as Hdm.
  pose proof (Z.mod_pos_bound (- a) b Hb) as Hm.
  nia.
Qed.

Lemma ceil_quot_Int (a l : Z) :
  l <> 0 -> JS.ceil_quot a (JS.Int l) = JS.Int (JS.ceil_div a l).
Proof.
  intros Hl. unfold JS.ceil_quot.
  destruct (Z.eqb_spec l 0); [contradiction|reflexivity].
Qed.

Lemma insert_ranked_perm (rank : Blog -> Z) (x : Blog) (l : list Blog) :
  Permutation (insert_ranked rank x l) (x :: l).
Proof.
  induction l as [|y r IH]; simpl.
  - apply Permutation_refl.
  - destruct (rank y <? rank x); [|apply Permutation_refl].
    apply perm_trans with (y :: x :: r).
    + now apply perm_skip.
    + apply perm_swap.
Qed.

(** Whatever the plan, it yields the documents it was given. *)
Lemma scan_by_perm (rank : Blog -> Z) (l : list Blog) :
  Permutation (scan_by rank l) l.
Proof.
  induction l as [|x r IH]; simpl.
  - apply perm_nil.
  - apply perm_trans with (x :: scan_by rank r).
    + apply insert_ranked_perm.
    + now apply perm_skip.
Qed.

(** A collection scan yields insertion order. *)
Lemma scan_by_constant (c : Z) (l : list Blog) : scan_by (fun _ => c) l = l.
Proof.
  induction l as [|x r IH]; simpl; [reflexivity|].
  rewrite IH. destruct r; simpl; [reflexivity|].
  now rewrite Z.ltb_irrefl.
Qed.

Lemma In_firstn {A : Type} (n : nat) (l : list A) (x : A) :
  In x (firstn n l) -> In x l.
Proof.
  revert l. induction n as [|n IH]; intros l; simpl; [contradiction|].
  destruct l as [|y r]; simpl; [trivial|].
  intros [He | Hin]; [now left | right; now apply IH].
Qed.

Lemma In_skipn {A : Type} (n : nat) (l : list A) (x : A) :
  In x (skipn n l) -> In x l.
Proof.
  revert l. induction n as [|n IH]; intros l; simpl; [trivial|].
  destruct l as [|y r]; simpl; [trivial|]. intros Hin. right. now apply IH.
Qed.

Lemma window_incl {A : Type} (n k : nat) (l : list A) (x : A) :
  In x (firstn n (skipn k l)) -> In x l.
Proof. intros Hin. eapply In_skipn, In_firstn, Hin. Qed.

Lemma window_whole {A : Type} (n k : nat) (l : list A) :
  List.length (firstn n (skipn k l)) = List.length l ->
  firstn n (skipn k l) = l.
Proof.
  intros Hlen. rewrite length_firstn, length_skipn in Hlen.
  assert (Hk : k = 0%nat \/ l = []).
  { destruct l as [|a l']; [now right|]. left.
    cbn [List.length] in Hlen. lia. }
  destruct Hk as [-> | ->].
  - cbn [skipn]. apply firstn_all2. rewrite Nat.sub_0_r in Hlen. lia.
  - destruct k; destruct n; reflexivity.
Qed.

Lemma window_sorted (key : Blog -> Z) (n k : nat) (l : list Blog) :
  Sorted (desc key) l -> Sorted (desc key) (firstn n (skipn k l)).
Proof.
  intros Hs. apply Sorted_StronglySorted in Hs; [|intros x y z; unfold desc; lia].
  apply StronglySorted_Sorted.
  assert (Hskip : forall m l1, StronglySorted (desc key) l1 ->
                    StronglySorted (desc key) (skipn m l1)).
  { induction m as [|m IH]; intros l1 H1; simpl; [assumption|].
    destruct l1 as [|y r1]; [assumption|]. inversion H1; subst. now apply IH. }
  assert (Hfirst : forall m l1, StronglySorted (desc key) l1 ->
                     StronglySorted (desc key) (firstn m l1)).
  { induction m as [|m IH]; intros l1 H1; simpl; [constructor|].
    destruct l1 as [|y r1]; [constructor|]. inversion H1; subst.
    constructor; [now apply IH|].
    apply Forall_forall. intros z Hz. apply In_firstn in Hz.
    eapply Forall_forall; eassumption. }
  now apply Hfirst, Hskip.
Qed.

Lemma page_slice_all {A : Type} (limit : Z) (l : list A) :
  Z.of_nat (List.length l) <= limit -> page_slice 0 limit l = l.
Proof.
  intros Hl. unfold page_slice. simpl. apply firstn_all2. lia.
Qed.

(** Skipping, or taking, more than there is. *)
Lemma skipn_beyond {A : Type} (n m : nat) (l : list A) :
  (List.length l <= n)%nat -> (List.length l <= m)%nat -> skipn n l = skipn m l.
Proof. intros Hn Hm. now rewrite !skipn_all2. Qed.

Lemma drop_skipn {A : Type} (n : Z) (l : list A) :
  drop n l = skipn (Z.to_nat n) l.
Proof.
  unfold drop. destruct (Z.le_gt_cases n (Z.of_nat (List.length l))).
  - now rewrite Z.min_l.
  - rewrite Z.min_r by lia. apply skipn_beyond; lia.
Qed.

Lemma take_firstn {A : Type} (n : Z) (l : list A) :
  take n l = firstn (Z.to_nat n) l.
Proof.
  unfold take. destruct (Z.le_gt_cases n (Z.of_nat (List.length l))).
  - now rewrite Z.min_l.
  - rewrite Z.min_r by lia. now rewrite !firstn_all2 by lia.
Qed.

Section Find.

Context `{Collaborators}.

Lemma result_set_perm (f : Filter) (spec : list (string * Z))
    (limit skip : JS.Number) (st : Store) :
  Permutation (result_set f spec limit skip st) (filter (matches f) (blogs st)).
Proof.
  unfold result_set.
  apply perm_trans with (scan_by (plan_rank f spec limit skip (blogs st))
                                 (filter (matches f) (blogs st))).
  - apply Blog_sort_perm.
  - apply scan_by_perm.
Qed.

Lemma result_set_length (f : Filter) (spec : list (string * Z))
    (limit skip : JS.Number) (st : Store) :
  Z.of_nat (List.length (result_set f spec limit skip st))
  = Blog_countDocuments f st.
Proof.
  unfold Blog_countDocuments.
  now rewrite (Permutation_length (result_set_perm f spec limit skip st)).
Qed.

Lemma result_set_In (f : Filter) (spec : list (string * Z))
    (limit skip : JS.Number) (st : Store) (b : Blog) :
  In b (result_set f spec limit skip st) ->
  In b (blogs st) /\ matches f b = true.
Proof.
  intros Hin. apply filter_In.
  eapply Permutation_in; [apply result_set_perm|exact Hin].
Qed.

Lemma store_reads_safe (z : Z) :
  Z.abs z <= 2 ^ 53 -> store_reads (JS.Int z) = Some z.
Proof.
  intros Hz. unfold store_reads.
  destruct (Z.leb_spec (Z.abs z) (2 ^ 53)); [reflexivity|lia].
Qed.

(** What a find command answers is a run of consecutive documents of its
    result set. *)
Lemma Blog_find_window (f : Filter) (spec : list (string * Z))
    (limit skip : JS.Number) (st : Store) (l : list Blog) :
  Blog_find f spec limit skip st = inr l ->
  exists n k, l = firstn n (skipn k (result_set f spec limit skip st)).
Proof.
  unfold Blog_find. fold (result_set f spec limit skip st).
  destruct (store_reads _) as [lim|]; [|discriminate].
  destruct (store_reads skip) as [s|]; [|discriminate].
  destruct ((lim <? 0) || (s <? 0)); [discriminate|].
  unfold ret. intros Hr. inversion Hr as [Hl]. clear Hr Hl.
  rewrite drop_skipn.
  set (rest := skipn (Z.to_nat s) (result_set f spec limit skip st)).
  assert (Hdocs : exists n,
            (if lim =? 0 then rest else take lim rest) = firstn n rest).
  { destruct (lim =? 0).
    - exists (List.length rest). symmetry. apply firstn_all.
    - rewrite take_firstn. eexists. reflexivity. }
  destruct Hdocs as [n ->].
  destruct (JS.negative limit).
  - rewrite firstn_firstn. eexists. exists (Z.to_nat s). reflexivity.
  - exists n, (Z.to_nat s). reflexivity.
Qed.

(** With a positive limit and an offset, both integers a Number holds
    exactly, the answer is the page. *)
Lemma Blog_find_page (f : Filter) (spec : list (string * Z)) (l s : Z)
    (st : Store) :
  0 < l <= 2 ^ 53 -> 0 <= s <= 2 ^ 53 ->
  Blog_find f spec (JS.Int l) (JS.Int s) st
  = inr (page_slice s l (result_set f spec (JS.Int l) (JS.Int s) st)).
Proof.
  intros Hl Hs. unfold Blog_find.
  fold (result_set f spec (JS.Int l) (JS.Int s) st).
  assert (Hneg : JS.negative (JS.Int l) = false).
  { simpl. apply Z.ltb_ge. lia. }
  rewrite Hneg, !store_reads_safe by lia.
  replace ((l <? 0) || (s <? 0)) with false.
  - replace (l =? 0) with false.
    + now rewrite drop_skipn, take_firstn.
    + symmetry. apply Z.eqb_neq. lia.
  - symmetry. apply orb_false_iff. split; apply Z.ltb_ge; lia.
Qed.

Lemma Blog_find_answers (f : Filter) (spec : list (string * Z)) (l s : Z)
    (st : Store) :
  Z.abs l <= 2 ^ 53 -> 0 <= s <= 2 ^ 53 ->
  exists r, Blog_find f spec (JS.Int l) (JS.Int s) st = inr r.
Proof.
  intros Hl Hs. unfold Blog_find.
  assert (Hlim : store_reads (if JS.negative (JS.Int l)
                              then JS.neg (JS.Int l) else JS.Int l)
                 = Some (Z.abs l)).
  { simpl. destruct (Z.ltb_spec l 0).
    - rewrite store_reads_safe by lia. f_equal. lia.
    - rewrite store_reads_safe by lia. f_equal. lia. }
  rewrite Hlim, store_reads_safe by lia.
  replace ((Z.abs l <? 0) || (s <? 0)) with false.
  - eexists. reflexivity.
  - symmetry. apply orb_false_iff. split; apply Z.ltb_ge; lia.
Qed.

(** A negative offset is refused. *)
Lemma Blog_find_negative_skip (f : Filter) (spec : list (string * Z))
    (limit : JS.Number) (s : Z) (st : Store) :
  - 2 ^ 53 <= s < 0 ->
  Blog_find f spec limit (JS.Int s) st = inl MongoServerError.
Proof.
  intros Hs. unfold Blog_find. rewrite (store_reads_safe s) by lia.
  destruct (store_reads _) as [lim|]; [|reflexivity].
  replace (s <? 0) with true by (symmetry; apply Z.ltb_lt; lia).
  now rewrite orb_true_r.
Qed.

End Find.

Section Listings.

Context `{Collaborators}.

(** What a 200 of the public listing is made of. *)
Lemma getPublishedBlogs_success (q : ListQuery) (st st' : Store)
    (r : ListReply PopulatedBlog) :
  getPublishedBlogs q st = (Success 200 r, st') ->
  let page_ := JS.parseInt_or (q_page q) 1 in
  let limit_ := JS.parseInt_or (q_limit q) 20 in
  let skip_ := JS.mul (JS.sub page_ (JS.Int 1)) limit_ in
  exists f l,
    published_query q st = inr f
    /\ Blog_find f (published_sort q) limit_ skip_ st = inr l
    /\ st' = st
    /\ r = mkListReply (Z.of_nat (List.length (map (populate st) l)))
                       (Blog_countDocuments f st) page_
                       (JS.ceil_quot (Blog_countDocuments f st) limit_)
                       (map (populate st) l).
Proof.
  unfold getPublishedBlogs.
  destruct (published_query q st) as [e|f]; simpl; [discriminate|].
  destruct (Blog_find f (published_sort q) _ _ st) as [e|l] eqn:Ef; simpl;
    [discriminate|].
  intros Hr. inversion Hr; subst. exists f, l.
  split; [reflexivity|]. split; [first [exact Ef | reflexivity]|].
  split; reflexivity.
Qed.

Lemma getUserBlogs_success (req_user : User) (q : ListQuery) (st st' : Store)
    (r : ListReply Blog) :
  getUserBlogs req_user q st = (Success 200 r, st') ->
  let page_ := JS.parseInt_or (q_page q) 1 in
  let limit_ := JS.parseInt_or (q_limit q) 20 in
  let skip_ := JS.mul (JS.sub page_ (JS.Int 1)) limit_ in
  exists l,
    Blog_find (own_query req_user q) [("createdAt", -1)] limit_ skip_ st = inr l
    /\ st' = st
    /\ r = mkListReply (Z.of_nat (List.length l))
                       (Blog_countDocuments (own_query req_user q) st) page_
                       (JS.ceil_quot (Blog_countDocuments (own_query req_user q) st)
                                     limit_)
                       l.
Proof.
  unfold getUserBlogs.
  destruct (Blog_find (own_query req_user q) _ _ _ st) as [e|l] eqn:Ef; simpl;
    [discriminate|].
  intros Hr. inversion Hr; subst. exists l.
  split; [first [exact Ef | reflexivity]|]. split; reflexivity.
Qed.

(** Both listings at a page and a limit of at least 1, while the limit and
    the offset are integers a Number holds exactly. *)
Lemma getUserBlogs_page (req_user : User) (q : ListQuery) (st : Store)
    (p l : Z) :
  JS.parseInt_or (q_page q) 1 = JS.Int p ->
  JS.parseInt_or (q_limit q) 20 = JS.Int l ->
  1 <= p -> 1 <= l <= 2 ^ 53 -> (p - 1) * l <= 2 ^ 53 ->
  let all := result_set (own_query req_user q) [("createdAt", -1)]
               (JS.Int l) (JS.Int ((p - 1) * l)) st in
  getUserBlogs req_user q st
  = (Success 200
       (mkListReply (Z.of_nat (List.length (page_slice ((p - 1) * l) l all)))
                    (Z.of_nat (List.length all)) (JS.Int p)
                    (JS.Int (JS.ceil_div (Z.of_nat (List.length all)) l))
                    (page_slice ((p - 1) * l) l all)),
     st).
Proof.
  intros Hp Hl Hp1 Hl1 Hs. cbv zeta. rewrite result_set_length.
  unfold getUserBlogs. rewrite Hp, Hl, skip_safe by lia.
  rewrite Blog_find_page by nia. cbn [bind try_next ret].
  rewrite ceil_quot_Int by lia. reflexivity.
Qed.

Lemma getPublishedBlogs_page (q : ListQuery) (st : Store) (f : Filter)
    (p l : Z) :
  published_query q st = inr f ->
  JS.parseInt_or (q_page q) 1 = JS.Int p ->
  JS.parseInt_or (q_limit q) 20 = JS.Int l ->
  1 <= p -> 1 <= l <= 2 ^ 53 -> (p - 1) * l <= 2 ^ 53 ->
  let all := result_set f (published_sort q)
               (JS.Int l) (JS.Int ((p - 1) * l)) st in
  getPublishedBlogs q st
  = (Success 200
       (mkListReply (Z.of_nat (List.length (page_slice ((p - 1) * l) l all)))
                    (Z.of_nat (List.length all)) (JS.Int p)
                    (JS.Int (JS.ceil_div (Z.of_nat (List.length all)) l))
                    (map (populate st) (page_slice ((p - 1) * l) l all))),
     st).
Proof.
  intros Hq Hp Hl Hp1 Hl1 Hs. cbv zeta. rewrite result_set_length.
  unfold getPublishedBlogs. rewrite Hp, Hl, skip_safe, Hq by lia.
  cbn [bind try_next ret].
  rewrite Blog_find_page by nia. cbn [bind try_next ret].
  rewrite length_map, ceil_quot_Int by lia. reflexivity.
Qed.

(** C8, as the code has it. In both listings [page] is 1 and [limit] is 20
    when the parameter is absent, is not a numeral or reads as zero, and
    otherwise the Number [parseInt] gives, a negative one included. Every 200
    carries that page, pages = ceil(total / limit), the total of the whole
    result set and, as count, the number of documents returned, which are
    consecutive documents of the result set. With page and limit at least 1,
    while the limit and the offset (page - 1) * limit are integers a Number
    holds exactly, both listings answer 200 with the documents of the result
    set from that offset on, at most [limit] of them, and pages is the
    ceiling of the exact quotient (the collection has fewer than 2^53
    blogs, so that the rounding of the quotient does not move it). *)
Theorem listing_paging (req_user : User) (q : ListQuery) (st : Store) :
  let page_ := JS.parseInt_or (q_page q) 1 in
  let limit_ := JS.parseInt_or (q_limit q) 20 in
  let skip_ := JS.mul (JS.sub page_ (JS.Int 1)) limit_ in
  defaults_to (q_page q) 1 page_
  /\ defaults_to (q_limit q) 20 limit_
  /\ (forall r st', getUserBlogs req_user q st = (Success 200 r, st') ->
        page r = page_
        /\ total r = Z.of_nat (List.length
                                 (filter (matches (own_query req_user q))
                                         (blogs st)))
        /\ count r = Z.of_nat (List.length (items r))
        /\ pages r = JS.ceil_quot (total r) limit_
        /\ exists n k,
             items r
             = firstn n (skipn k (result_set (own_query req_user q)
                                             [("createdAt", -1)] limit_ skip_ st)))
  /\ (forall r st' f, published_query q st = inr f ->
        getPublishedBlogs q st = (Success 200 r, st') ->
        page r = page_
        /\ total r = Z.of_nat (List.length (filter (matches f) (blogs st)))
        /\ count r = Z.of_nat (List.length (items r))
        /\ pages r = JS.ceil_quot (total r) limit_
        /\ exists n k,
             items r
             = map (populate st)
                   (firstn n (skipn k (result_set f (published_sort q)
                                                  limit_ skip_ st))))
  /\ (forall p l, page_ = JS.Int p -> limit_ = JS.Int l ->
        1 <= p -> 1 <= l <= 2 ^ 53 -> (p - 1) * l <= 2 ^ 53 ->
        Z.of_nat (List.length (blogs st)) < 2 ^ 53 ->
        skip_ = JS.Int ((p - 1) * l)
        /\ (exists r,
              getUserBlogs req_user q st = (Success 200 r, st)
              /\ items r
                 = page_slice ((p - 1) * l) l
                     (result_set (own_query req_user q) [("createdAt", -1)]
                                 limit_ skip_ st)
              /\ pages r = JS.Int (JS.ceil_div (total r) l)
              /\ (JS.ceil_div (total r) l - 1) * l < total r
                 <= JS.ceil_div (total r) l * l)
        /\ (forall f, published_query q st = inr f ->
              exists r,
                getPublishedBlogs q st = (Success 200 r, st)
                /\ items r
                   = map (populate st)
                       (page_slice ((p - 1) * l) l
                          (result_set f (published_sort q) limit_ skip_ st))
                /\ pages r = JS.Int (JS.ceil_div (total r) l)
                /\ (JS.ceil_div (total r) l - 1) * l < total r
                   <= JS.ceil_div (total r) l * l)).
Proof.
  intros page_ limit_ skip_.
  split; [apply parseInt_or_defaults|].
  split; [apply parseInt_or_defaults|].
  split; [|split].
  - intros r st' Hr.
    apply getUserBlogs_success in Hr. cbv zeta in Hr.
    destruct Hr as [l [Hf [_ ->]]].
    apply Blog_find_window in Hf. destruct Hf as [n [k ->]].
    cbn [page total items count pages].
    repeat split; try reflexivity. exists n, k. reflexivity.
  - intros r st' f Hq Hr.
    apply getPublishedBlogs_success in Hr. cbv zeta in Hr.
    destruct Hr as [f' [l [Hq' [Hf [_ ->]]]]].
    rewrite Hq in Hq'. inversion Hq'; subst f'.
    apply Blog_find_window in Hf. destruct Hf as [n [k ->]].
    cbn [page total items count pages].
    repeat split; try reflexivity. exists n, k. reflexivity.
  - intros p l Hp Hl Hp1 Hl1 Hs _.
    assert (Hskip : skip_ = JS.Int ((p - 1) * l)).
    { unfold skip_. rewrite Hp, Hl. apply skip_safe; lia. }
    split; [exact Hskip|]. rewrite Hskip, Hl. split.
    + eexists. split;
        [apply getUserBlogs_page with (p := p) (l := l);
           [exact Hp | exact Hl | lia | lia | lia]|].
      cbn [items pages total]. split; [reflexivity|]. split; [reflexivity|].
      apply ceil_div_ceiling. lia.
    + intros f Hq.
      eexists. split;
        [apply getPublishedBlogs_page with (p := p) (l := l);
           [exact Hq | exact Hp | exact Hl | lia | lia | lia]|].
      cbn [items pages total]. split; [reflexivity|]. split; [reflexivity|].
      apply ceil_div_ceiling. lia.
Qed.

End Listings.

(** The test of the suite: Jane's two blogs, one per page, second page. *)
Lemma listing_paging_witness :
  exists r,
    getUserBlogs jane (mkListQuery (Some "2") (Some "1") None None None None None)
                 example_store = (Success 200 r, example_store)
    /\ page r = JS.Int 2 /\ pages r = JS.Int 2 /\ count r = 1 /\ total r = 2
    /\ items r = [post1].
Proof.
  pose proof (@listing_paging example_collaborators jane
                (mkListQuery (Some "2") (Some "1") None None None None None)
                example_store) as Hp.
  cbv zeta in Hp. destruct Hp as [_ [_ [Hown [_ Hans]]]].
  destruct (Hans 2 1 eq_refl eq_refl) as [_ [[r [Hr [Hi [Hps _]]]] _]];
    [lia | lia | lia | simpl; lia |].
  exists r. split; [exact Hr|].
  destruct (Hown r example_store Hr) as [Hpg [Ht [Hc [_ _]]]].
  rewrite Hps, Hc, Ht, Hi, Hpg. vm_compute. repeat split.
Defined.

(** A negative limit is kept, and so is a negative page. With [limit=-5]
    Jane's listing answers 200 with pages = 0 for a total of 2, where a limit
    of 20 gives 1; with [page=-3] the offset is -80 and the store refuses the
    query, where page 1 gives a 200. Both hold whatever the store's plan. *)
Lemma listing_negative_values_counterexample :
  let q_lim := mkListQuery None (Some "-5") None None None None None in
  let q_pag := mkListQuery (Some "-3") None None None None None None in
  JS.parseInt "-5" = JS.Int (-5)
  /\ spec_page_or (q_limit q_lim) 20 = JS.Int 20
  /\ JS.parseInt_or (q_limit q_lim) 20 = JS.Int (-5)
  /\ (forall C : Collaborators,
      exists r,
        @getUserBlogs C jane q_lim example_store = (Success 200 r, example_store)
        /\ total r = 2
        /\ pages r = JS.Int 0
        /\ pages r <> JS.ceil_quot (total r) (spec_page_or (q_limit q_lim) 20))
  /\ JS.parseInt "-3" = JS.Int (-3)
  /\ spec_page_or (q_page q_pag) 1 = JS.Int 1
  /\ JS.parseInt_or (q_page q_pag) 1 = JS.Int (-3)
  /\ JS.mul (JS.sub (JS.parseInt_or (q_page q_pag) 1) (JS.Int 1))
            (JS.parseInt_or (q_limit q_pag) 20) = JS.Int (-80)
  /\ (forall C : Collaborators,
      @getUserBlogs C jane q_pag example_store
      = (NextError MongoServerError, example_store))
  /\ (exists r,
        getUserBlogs jane no_query example_store = (Success 200 r, example_store)
        /\ pages r = JS.Int 1).
Proof.
  cbv zeta. repeat split; try reflexivity.
  - intros C.
    destruct (@Blog_find_answers C
                (own_query jane (mkListQuery None (Some "-5") None None None
                                             None None))
                [("createdAt", -1)] (-5) 0 example_store) as [l Hl];
      [simpl; lia | lia |].
    exists (mkListReply (Z.of_nat (List.length l)) 2 (JS.Int 1) (JS.Int 0) l).
    split; [|split; [reflexivity|split; [reflexivity|discriminate]]].
    unfold getUserBlogs.
    change (JS.parseInt_or (q_page _) 1) with (JS.Int 1).
    change (JS.parseInt_or (q_limit _) 20) with (JS.Int (-5)).
    rewrite skip_first_page, Hl. reflexivity.
  - eexists. split; reflexivity.
Qed.

(** [page=9007199254740993] is one past 2^53: the page the listing works
    with, and reports, is 9007199254740992. *)
Lemma listing_rounded_page :
  let q := mkListQuery (Some "9007199254740993") None None None None None None in
  exists r,
    getUserBlogs jane q example_store = (Success 200 r, example_store)
    /\ page r = JS.Int 9007199254740992
    /\ total r = 2 /\ pages r = JS.Int 1 /\ items r = [].
Proof.
  cbv zeta. eexists. split; [vm_compute; reflexivity|]. repeat split.
Qed.

(** A numeral of 400 digits reads as Infinity: the offset of the first page
    is 0 * Infinity, which is NaN, and whatever the store makes of that, a
    200 reports no page at all. *)
Lemma listing_long_limit :
  let q := mkListQuery None (Some (str_repeat "9" 400)) None None None None None in
  JS.parseInt_or (q_limit q) 20 = JS.Infinity false
  /\ JS.mul (JS.sub (JS.parseInt_or (q_page q) 1) (JS.Int 1))
            (JS.parseInt_or (q_limit q) 20) = JS.NaN
  /\ forall (C : Collaborators) r st',
       @getUserBlogs C jane q example_store = (Success 200 r, st') ->
       total r = 2 /\ pages r = JS.Int 0.
Proof.
  cbv zeta.
  assert (Hl : JS.parseInt_or (Some (str_repeat "9" 400)) 20 = JS.Infinity false)
    by (vm_compute; reflexivity).
  split; [exact Hl|]. split; [cbn [q_limit q_page]; rewrite Hl; reflexivity|].
  intros C r st' Hr.
  apply (@getUserBlogs_success C) in Hr. cbv zeta in Hr.
  destruct Hr as [l [_ [_ ->]]]. cbn [total pages q_limit].
  rewrite Hl. split; reflexivity.
Qed.

(** A negative limit asks for a single batch. With [limit=-5] Jane gets her
    two blogs from a store whose first reply holds 101 documents, and one of
    the two from a store whose first reply holds one: a first page whose
    limit reaches the total in magnitude need not hold the whole result
    set. *)
Lemma negative_limit_single_batch :
  let q := mkListQuery None (Some "-5") None None None None None in
  (exists r,
     @getUserBlogs example_collaborators jane q example_store
     = (Success 200 r, example_store)
     /\ page r = JS.Int 1 /\ total r = 2 /\ items r = [draft3; post1])
  /\ (exists r,
        @getUserBlogs one_document_batch jane q example_store
        = (Success 200 r, example_store)
        /\ page r = JS.Int 1 /\ total r = 2 /\ items r = [draft3]).
Proof.
  cbv zeta. split; eexists; (split; [reflexivity|]); repeat split.
Qed.

(* ================================================================= *)
(** ** Listings: the author filter and the sort *)

Lemma find_first {A : Type} (p : A -> bool) (pre post : list A) (x : A) :
  Forall (fun y => p y = false) pre -> p x = true ->
  find p (pre ++ x :: post)%list = Some x.
Proof.
  intros Hpre Hx. induction Hpre as [|y pre' Hy _ IH]; simpl.
  - now rewrite Hx.
  - now rewrite Hy.
Qed.

Lemma matches_author_published (a : ObjectId) (b : Blog) :
  matches (with_author a published_filter) b = published_by a b.
Proof.
  unfold matches, published_by. simpl. now rewrite !andb_true_r.
Qed.

Lemma matches_state_author (f : Filter) (s : string) (a : ObjectId) (b : Blog) :
  f_state f = Some s -> f_author f = Some a ->
  matches f b = true -> state b = s /\ author b = a.
Proof.
  unfold matches. intros -> ->. rewrite !andb_true_iff.
  intros [[[Hs Ha] _] _]. split; now apply String.eqb_eq.
Qed.

Lemma map_doc_populate (st : Store) (l : list Blog) :
  map doc (map (populate st) l) = l.
Proof.
  rewrite map_map. simpl. apply map_id.
Qed.

Lemma truthy_Some (s : string) : s <> "" -> JS.truthy (Some s) = true.
Proof.
  intros Hs. simpl. apply String.eqb_neq in Hs. now rewrite Hs.
Qed.

Section AuthorFilter.

Context `{Collaborators}.

(** With a user found, the filter pins the state and that user's id,
    whatever the other parameters add. *)
Lemma published_query_author_found (q : ListQuery) (st : Store) (a : string)
    (re : string -> bool) (u : User) (f : Filter) :
  q_author q = Some a -> a <> "" -> RegExp_i a = Some re ->
  User_findOne_name re st = Some u ->
  published_query q st = inr f ->
  f_state f = Some "published" /\ f_author f = Some (user_id u).
Proof.
  intros Ha Hne Hre Hu. unfold published_query, new_RegExp_i.
  rewrite Ha, (truthy_Some a Hne). simpl or_else. rewrite Hre. simpl.
  rewrite Hu. simpl.
  destruct (JS.truthy (q_title q)).
  - destruct (RegExp_i (or_else (q_title q) "")); simpl; [|discriminate].
    destruct (JS.truthy (q_tags q)); intros Hf; inversion Hf; split; reflexivity.
  - simpl.
    destruct (JS.truthy (q_tags q)); intros Hf; inversion Hf; split; reflexivity.
Qed.

Lemma published_query_author_only (q : ListQuery) (st : Store) (a : string)
    (re : string -> bool) (u : User) :
  q_author q = Some a -> a <> "" -> RegExp_i a = Some re ->
  User_findOne_name re st = Some u ->
  JS.truthy (q_title q) = false -> JS.truthy (q_tags q) = false ->
  published_query q st = inr (with_author (user_id u) published_filter).
Proof.
  intros Ha Hne Hre Hu Ht Hg. unfold published_query, new_RegExp_i.
  rewrite Ha, (truthy_Some a Hne). simpl or_else. rewrite Hre. simpl.
  rewrite Hu. simpl. rewrite Ht. simpl. rewrite Hg. reflexivity.
Qed.

(** With no user found the author condition is left out of the filter: the
    query is the one of a request that names no author. *)
Lemma published_query_author_not_found (q : ListQuery) (st : Store) (a : string)
    (re : string -> bool) :
  q_author q = Some a -> a <> "" -> RegExp_i a = Some re ->
  User_findOne_name re st = None ->
  published_query q st
  = published_query
      (mkListQuery (q_page q) (q_limit q) (q_order_by q) (q_title q) (q_tags q)
                   None (q_state q)) st.
Proof.
  intros Ha Hne Hre Hu. unfold published_query, new_RegExp_i.
  rewrite Ha, (truthy_Some a Hne). simpl or_else. rewrite Hre. simpl.
  rewrite Hu. reflexivity.
Qed.

(** C6, as the code has it. When some user's first or last name matches the
    pattern of the [author] parameter, the listing is about the first such
    user of the collection and no other: every document returned is a
    published blog of that user, and for a request with no title or tags
    filter the total is the number of that user's published blogs, a page
    that counts as many documents as the total holds exactly those blogs,
    and so does a first page whose limit reaches the total. *)
Theorem author_filter_first_match (q : ListQuery) (st : Store) (a : string)
    (re : string -> bool) (pre post : list User) (u : User) :
  q_author q = Some a -> a <> "" -> RegExp_i a = Some re ->
  users st = (pre ++ u :: post)%list ->
  Forall (fun v => name_matches re v = false) pre ->
  name_matches re u = true ->
  (forall r st', getPublishedBlogs q st = (Success 200 r, st') ->
     (forall pb, In pb (items r) ->
        In (doc pb) (blogs st)
        /\ state (doc pb) = "published"
        /\ author (doc pb) = user_id u)
     /\ (JS.truthy (q_title q) = false -> JS.truthy (q_tags q) = false ->
           total r = Z.of_nat (List.length
                                 (filter (published_by (user_id u)) (blogs st)))
           /\ (count r = total r ->
               Permutation (map doc (items r))
                           (filter (published_by (user_id u)) (blogs st)))
           /\ (page r = JS.Int 1 ->
               forall l, JS.parseInt_or (q_limit q) 20 = JS.Int l ->
               0 < l <= 2 ^ 53 -> total r <= l ->
               Permutation (map doc (items r))
                           (filter (published_by (user_id u)) (blogs st)))))
  /\ (JS.truthy (q_title q) = false -> JS.truthy (q_tags q) = false ->
      forall l s,
        JS.parseInt_or (q_limit q) 20 = JS.Int l -> Z.abs l <= 2 ^ 53 ->
        JS.mul (JS.sub (JS.parseInt_or (q_page q) 1) (JS.Int 1))
               (JS.parseInt_or (q_limit q) 20) = JS.Int s ->
        0 <= s <= 2 ^ 53 ->
        exists r, getPublishedBlogs q st = (Success 200 r, st)).
Proof.
  intros Ha Hne Hre Husers Hpre Hu.
  assert (Hfind : User_findOne_name re st = Some u).
  { unfold User_findOne_name. rewrite Husers. now apply find_first. }
  split.
  - intros r st' Hr.
    pose proof Hr as Hr0.
    apply getPublishedBlogs_success in Hr. cbv zeta in Hr.
    destruct Hr as [f [l [Hq [Hf [_ ->]]]]].
    pose proof Hf as Hf0.
    apply Blog_find_window in Hf. destruct Hf as [n [k Hlist]].
    cbn [items total page count]. split.
    + intros pb Hin. apply in_map_iff in Hin.
      destruct Hin as [b [<- Hb]]. simpl doc.
      rewrite Hlist in Hb. apply window_incl in Hb.
      apply result_set_In in Hb. destruct Hb as [Hb Hm].
      destruct (published_query_author_found q st a re u f Ha Hne Hre Hfind Hq)
        as [Hs Hau].
      destruct (matches_state_author f _ _ b Hs Hau Hm) as [Hst Hath].
      repeat split; assumption.
    + intros Ht Hg.
      rewrite (published_query_author_only q st a re u Ha Hne Hre Hfind Ht Hg)
        in Hq.
      inversion Hq; subst f.
      assert (Hfil : filter (matches (with_author (user_id u) published_filter))
                            (blogs st)
                     = filter (published_by (user_id u)) (blogs st)).
      { apply filter_ext. intros b. apply matches_author_published. }
      assert (Hperm : forall lim sk,
                Permutation
                  (result_set (with_author (user_id u) published_filter)
                              (published_sort q) lim sk st)
                  (filter (published_by (user_id u)) (blogs st))).
      { intros lim sk. rewrite <- Hfil. apply result_set_perm. }
      unfold Blog_countDocuments. rewrite Hfil.
      split; [reflexivity|]. split.
      * intros Hc. rewrite map_doc_populate, Hlist.
        rewrite length_map, Hlist in Hc. apply Nat2Z.inj in Hc.
        set (lim := JS.parseInt_or (q_limit q) 20) in *.
        set (sk := JS.mul (JS.sub (JS.parseInt_or (q_page q) 1) (JS.Int 1)) lim)
          in *.
        rewrite <- (Permutation_length (Hperm lim sk)) in Hc.
        rewrite (window_whole _ _ _ Hc). apply Hperm.
      * intros Hp lim Hlim Hpos Htot.
        rewrite map_doc_populate.
        rewrite Hp, Hlim, skip_first_page in Hf0.
        rewrite Blog_find_page in Hf0 by lia.
        inversion Hf0 as [Hl]. rewrite page_slice_all.
        -- apply Hperm.
        -- rewrite (Permutation_length (Hperm (JS.Int lim) (JS.Int 0))).
           exact Htot.
  - intros Ht Hg l s Hl Hlb Hs Hsb.
    destruct (Blog_find_answers (with_author (user_id u) published_filter)
                (published_sort q) l s st Hlb Hsb) as [res Hf].
    unfold getPublishedBlogs.
    rewrite (published_query_author_only q st a re u Ha Hne Hre Hfind Ht Hg).
    simpl. rewrite Hs, Hl, Hf. eexists. reflexivity.
Qed.

(** The sort object of the public listing, case by case. *)
Lemma published_sort_cases (q : ListQuery) :
  (JS.truthy (q_order_by q) = false -> published_sort q = [("createdAt", -1)])
  /\ (forall k, q_order_by q = Some k -> In k validSortFields ->
        published_sort q = [(k, -1)])
  /\ (forall k, q_order_by q = Some k -> k <> "" -> ~ In k validSortFields ->
        published_sort q = []).
Proof.
  unfold published_sort. split; [|split].
  - intros ->. reflexivity.
  - intros k -> Hin.
    assert (Hk : k <> "").
    { intros ->. simpl in Hin. intuition discriminate. }
    rewrite (truthy_Some k Hk). simpl or_else.
    replace (JS.includes validSortFields k) with true; [reflexivity|].
    symmetry. unfold JS.includes. apply existsb_exists.
    exists k. split; [assumption|apply String.eqb_refl].
  - intros k -> Hk Hnin. rewrite (truthy_Some k Hk). simpl or_else.
    replace (JS.includes validSortFields k) with false; [reflexivity|].
    symmetry. apply not_true_is_false. intros Hi.
    unfold JS.includes in Hi. apply existsb_exists in Hi.
    destruct Hi as [x [Hx He]]. apply String.eqb_eq in He. now subst x.
Qed.


(** With an [order_by] outside the three fields the sort object is empty and
    the documents of a 200 are consecutive documents of what the store's
    plan yields: no sort is applied to them. *)
Lemma unknown_order_by_plan_order (q : ListQuery) (st st' : Store)
    (r : ListReply PopulatedBlog) (k : string) :
  q_order_by q = Some k -> k <> "" -> ~ In k validSortFields ->
  getPublishedBlogs q st = (Success 200 r, st') ->
  let limit_ := JS.parseInt_or (q_limit q) 20 in
  let skip_ := JS.mul (JS.sub (JS.parseInt_or (q_page q) 1) (JS.Int 1)) limit_ in
  exists f n m,
    published_query q st = inr f
    /\ map doc (items r)
       = firstn n (skipn m (scan_by (plan_rank f [] limit_ skip_ (blogs st))
                                    (filter (matches f) (blogs st)))).
Proof.
  intros Hq Hk Hnin Hr.
  destruct (published_sort_cases q) as [_ [_ Hunk]].
  apply getPublishedBlogs_success in Hr. cbv zeta in Hr.
  destruct Hr as [f [l [Hf [Hfind [_ ->]]]]].
  apply Blog_find_window in Hfind. destruct Hfind as [n [m ->]].
  cbv zeta. exists f, n, m. split; [assumption|].
  cbn [items]. rewrite map_doc_populate, (Hunk k Hq Hk Hnin).
  unfold result_set. now rewrite Blog_sort_empty.
Qed.

End AuthorFilter.

(** [author=doe] matches Jane Doe and John Doe; the listing is Jane's. *)
Lemma author_filter_first_match_witness :
  exists r,
    getPublishedBlogs (mkListQuery None None None None None (Some "doe") None)
                      example_store = (Success 200 r, example_store)
    /\ total r = 1
    /\ Permutation (map doc (items r)) [post1].
Proof.
  pose proof (@author_filter_first_match example_collaborators
                (mkListQuery None None None None None (Some "doe") None)
                example_store "doe" (icontains "doe") [] [john] jane
                eq_refl ltac:(discriminate) eq_refl eq_refl
                (Forall_nil _) eq_refl) as [Hall Hans].
  destruct (Hans eq_refl eq_refl 20 0 eq_refl ltac:(simpl; lia) eq_refl
                 ltac:(lia)) as [r Hr].
  exists r. split; [exact Hr|].
  destruct (Hall r example_store Hr) as [_ Hex].
  destruct (Hex eq_refl eq_refl) as [Ht [_ Hperm]].
  split; [exact Ht|].
  apply (Hperm ltac:(apply getPublishedBlogs_success in Hr; cbv zeta in Hr;
                     destruct Hr as [f [l [_ [_ [_ ->]]]]]; reflexivity)
               20 eq_refl ltac:(lia)).
  rewrite Ht. vm_compute. discriminate.
Defined.

(** [author=doe]: John Doe matches and his published blog is in the store,
    yet the listing leaves it out and counts one blog. [author=zzz]: no user
    matches, and the listing is the whole published listing, two blogs. *)
Lemma author_filter_counterexample :
  let q_doe := mkListQuery None None None None None (Some "doe") None in
  let q_zzz := mkListQuery None None None None None (Some "zzz") None in
  (name_matches (icontains "doe") john = true
   /\ In post2 (blogs example_store)
   /\ published_by (user_id john) post2 = true
   /\ exists r,
        getPublishedBlogs q_doe example_store = (Success 200 r, example_store)
        /\ total r = 1
        /\ ~ In post2 (map doc (items r)))
  /\
  (forallb (fun u => negb (name_matches (icontains "zzz") u))
           (users example_store) = true
   /\ exists r,
        getPublishedBlogs q_zzz example_store = (Success 200 r, example_store)
        /\ total r = 2
        /\ map doc (items r) = [post2; post1]).
Proof.
  cbv zeta. split.
  - split; [reflexivity|]. split; [simpl; tauto|]. split; [reflexivity|].
    eexists. split; [reflexivity|]. split; [reflexivity|].
    simpl. intros [He | []]. discriminate He.
  - split; [reflexivity|].
    eexists. split; [reflexivity|]. split; reflexivity.
Qed.

(** C7. With an [order_by] that is not one of the three fields the sort
    object sent to the store is empty, where a request with no [order_by]
    sends [{ createdAt: -1 }]: the listing is then made of consecutive
    documents of whatever the store's plan yields, unsorted. At
    [order_by=title], a store that scans the collection answers oldest
    first, which is not descending [createdAt]; a store that scans the index
    on state and [createdAt] answers the same request newest first; the
    request with no [order_by] is answered newest first by both. *)
Theorem getPublishedBlogs_unknown_order_by_unsorted :
  (forall (C : Collaborators) (q : ListQuery) (k : string),
      q_order_by q = Some k -> k <> "" -> ~ In k validSortFields ->
      published_sort q = []
      /\ forall st r st',
           @getPublishedBlogs C q st = (Success 200 r, st') ->
           exists f n m,
             @published_query C q st = inr f
             /\ map doc (items r)
                = firstn n
                    (skipn m
                       (scan_by
                          (@plan_rank C f []
                             (JS.parseInt_or (q_limit q) 20)
                             (JS.mul (JS.sub (JS.parseInt_or (q_page q) 1)
                                             (JS.Int 1))
                                     (JS.parseInt_or (q_limit q) 20))
                             (blogs st))
                          (filter (matches f) (blogs st)))))
  /\
  let q := mkListQuery None None (Some "title") None None None None in
  ~ In "title" validSortFields
  /\ published_sort q = []
  /\ published_sort no_query = [("createdAt", -1)]
  /\ (exists r,
        @getPublishedBlogs example_collaborators q example_store
        = (Success 200 r, example_store)
        /\ map doc (items r) = [post1; post2]
        /\ map (fun pb => createdAt (doc pb)) (items r) = [1000; 2000]
        /\ ~ Sorted (desc createdAt) (map doc (items r)))
  /\ (exists r,
        @getPublishedBlogs indexed_collaborators q example_store
        = (Success 200 r, example_store)
        /\ map doc (items r) = [post2; post1])
  /\ (exists r,
        @getPublishedBlogs example_collaborators no_query example_store
        = (Success 200 r, example_store)
        /\ map doc (items r) = [post2; post1])
  /\ (exists r,
        @getPublishedBlogs indexed_collaborators no_query example_store
        = (Success 200 r, example_store)
        /\ map doc (items r) = [post2; post1]).
Proof.
  split.
  - intros C q k Hq Hk Hnin.
    split; [now apply (proj2 (proj2 (published_sort_cases q)) k)|].
    intros st r st' Hr.
    exact (@unknown_order_by_plan_order C q st st' r k Hq Hk Hnin Hr).
  - cbv zeta. split.
    + simpl. intros [He | [He | [He | []]]]; discriminate He.
    + split; [reflexivity|]. split; [reflexivity|]. split; [|split; [|split]].
      * eexists. split; [reflexivity|]. split; [reflexivity|].
        split; [reflexivity|].
        simpl. intros Hs. inversion Hs as [|? ? _ Hhd]; subst.
        inversion Hhd as [|? ? Hd]; subst. unfold desc in Hd. simpl in Hd. lia.
      * eexists. split; reflexivity.
      * eexists. split; reflexivity.
      * eexists. split; reflexivity.
Qed.

(* ================================================================= *)
(** ** Further properties of the middleware and the handlers *)


Section Protect.
Context `{Collaborators}.

Lemma protect_cases (A : Type) (authorization : option string) (st : Store) :
  (exists tok id u,
      bearer authorization = Some (Some tok) /\ tok <> ""
      /\ jwt_verify (Some tok) = Some id /\ User_findById st id = Some u
      /\ @protect _ A authorization st = inl u)
  \/ (unauthenticated authorization st
      /\ exists m, @protect _ A authorization st = inr (Failure 401 m)).
Proof.
  unfold protect, unauthenticated.
  destruct (bearer authorization) as [[tok|]|] eqn:Eb.
  - destruct (String.eqb_spec tok "") as [-> | Hne].
    + right. split; [|eexists; reflexivity].
      intros t Ht Hn. inversion Ht; subst. now destruct Hn.
    + rewrite (truthy_Some tok Hne). simpl negb. cbv iota.
      destruct (jwt_verify (Some tok)) as [id|] eqn:Ev.
      * destruct (User_findById st id) as [u|] eqn:Eu.
        -- left. exists tok, id, u. repeat split; assumption.
        -- right. split; [|eexists; reflexivity].
           intros t Ht _. inversion Ht; subst. now rewrite Ev.
      * right. split; [|eexists; reflexivity].
        intros t Ht _. inversion Ht; subst. now rewrite Ev.
  - right. split; [|eexists; reflexivity]. intros t Ht. discriminate.
  - right. split; [|eexists; reflexivity]. intros t Ht. discriminate.
Qed.

Lemma protect_accepts (A : Type) (authorization : option string)
    (st : Store) (u : User) :
  @protect _ A authorization st = inl u
  <-> exists tok,
        bearer authorization = Some (Some tok) /\ tok <> ""
        /\ jwt_verify (Some tok) = Some (user_id u)
        /\ User_findById st (user_id u) = Some u.
Proof.
  split.
  - intros Hp.
    destruct (protect_cases A authorization st)
      as [[tok [id [v [Hb [Hne [Hv [Hu Hpv]]]]]]] | [_ [m Hm]]].
    + rewrite Hp in Hpv. inversion Hpv; subst v.
      pose proof (User_findById_id st id u Hu) as Hid. subst id.
      exists tok. repeat split; assumption.
    + rewrite Hp in Hm. discriminate.
  - intros [tok [Hb [Hne [Hv Hu]]]].
    unfold protect. rewrite Hb, (truthy_Some tok Hne). simpl negb. cbv iota.
    now rewrite Hv, Hu.
Qed.

Lemma protect_rejects (A : Type) (authorization : option string) (st : Store) :
  unauthenticated authorization st ->
  exists m, @protect _ A authorization st = inr (Failure 401 m).
Proof.
  intros Hun.
  destruct (protect_cases A authorization st)
    as [[tok [id [v [Hb [Hne [Hv [Hu _]]]]]]] | [_ Hm]]; [|exact Hm].
  specialize (Hun tok Hb Hne). rewrite Hv in Hun. congruence.
Qed.

(** X2. A request with no Authorization header, with a header that carries
    no token, with a token that fails verification or with a token for an id
    no user has is answered 401 by every route behind [protect], with the
    same message on all five, and the store is left as it was. *)
Theorem protected_routes_require_identity (authorization : option string)
    (st : Store) :
  unauthenticated authorization st ->
  exists m,
    (forall newId now cb,
        POST_blog authorization newId now cb st = (Failure 401 m, st))
    /\ (forall q, GET_user_blogs authorization q st = (Failure 401 m, st))
    /\ (forall id p now, PUT_blog authorization id p now st = (Failure 401 m, st))
    /\ (forall id s now,
          PATCH_blog_state authorization id s now st = (Failure 401 m, st))
    /\ (forall id, DELETE_blog authorization id st = (Failure 401 m, st)).
Proof.
  intros Hun.
  destruct (protect_rejects unit authorization st Hun) as [m Hm].
  assert (Hall : forall A, @protect _ A authorization st = inr (Failure 401 m)).
  { intros A. revert Hm. unfold protect.
    destruct (negb (JS.truthy _)); [intros Hm; inversion Hm; reflexivity|].
    destruct (jwt_verify _) as [id|]; [|intros Hm; inversion Hm; reflexivity].
    destruct (User_findById st id); [discriminate|].
    intros Hm; inversion Hm; reflexivity. }
  exists m.
  unfold POST_blog, GET_user_blogs, PUT_blog, PATCH_blog_state, DELETE_blog.
  repeat split; intros; now rewrite Hall.
Qed.

(** A request [protect] lets through has the same user for [optionalAuth]. *)
Lemma protect_optionalAuth_agree (A : Type) (authorization : option string)
    (st : Store) (u : User) :
  @protect _ A authorization st = inl u ->
  optionalAuth authorization st = Some u
  /\ forall id now, GET_blog authorization id now st = getBlog (Some u) id now st.
Proof.
  intros Hp. apply protect_accepts in Hp.
  destruct Hp as [tok [Hb [_ [Hv Hu]]]].
  assert (Ho : optionalAuth authorization st = Some u).
  { unfold optionalAuth. now rewrite Hb, Hv. }
  split; [exact Ho|]. intros id now. unfold GET_blog. now rewrite Ho.
Qed.


End Protect.

Lemma str_append_nil_r (s : string) : s ++ "" = s.
Proof. induction s as [|c r IH]; simpl; [reflexivity|now rewrite IH]. Qed.

Lemma str_append_assoc (s t u : string) : (s ++ t) ++ u = s ++ (t ++ u).
Proof. induction s as [|c r IH]; simpl; [reflexivity|now rewrite IH]. Qed.

Lemma split_on_go_no_sep (sep : ascii) (s cur : string) :
  has_char sep s = false -> JS.split_on_go sep cur s = [cur ++ s].
Proof.
  revert cur. induction s as [|c r IH]; intros cur Hs; simpl.
  - now rewrite str_append_nil_r.
  - simpl in Hs. apply orb_false_iff in Hs. destruct Hs as [Hc Hr].
    rewrite Hc. rewrite (IH _ Hr). now rewrite str_append_assoc.
Qed.

Section Tokens.
Context `{Collaborators}.

(** The header "Bearer <token>" gives the token back when the token has no
    space in it. *)
Lemma bearer_of_token (tok : string) :
  has_char " "%char tok = false ->
  bearer (Some ("Bearer " ++ tok)) = Some (Some tok).
Proof.
  intros Hs. unfold bearer. simpl.
  unfold JS.split_on. simpl.
  now rewrite (split_on_go_no_sep " "%char tok "" Hs).
Qed.

Lemma signin_success_inv (req_email req_password : option string)
    (st : Store) (r : SigninReply) :
  signin req_email req_password st = Success 200 r
  <-> exists e p user,
        req_email = Some e /\ e <> "" /\ req_password = Some p /\ p <> ""
        /\ User_findOne_email e st = Some user
        /\ comparePassword user p = true
        /\ r = mkSigninReply "Login successful" (user_id user) (first_name user)
                             (last_name user) (email user)
                             (jwt_sign (user_id user)).
Proof.
  unfold signin. split.
  - destruct req_email as [e|]; [|discriminate].
    destruct req_password as [p|];
      [|destruct (JS.truthy (Some e)); discriminate].
    destruct (String.eqb_spec e "") as [-> | He]; [discriminate|].
    destruct (String.eqb_spec p "") as [-> | Hp].
    { destruct (JS.truthy (Some e)); discriminate. }
    rewrite (truthy_Some e He), (truthy_Some p Hp). simpl.
    destruct (User_findOne_email e st) as [user|] eqn:Eu; [|discriminate].
    destruct (comparePassword user p) eqn:Ec; simpl; [|discriminate].
    intros Hr. inversion Hr.
    exists e, p, user. repeat split; assumption.
  - intros [e [p [user [-> [He [-> [Hp [Hu [Hc ->]]]]]]]]].
    rewrite (truthy_Some e He), (truthy_Some p Hp). simpl.
    now rewrite Hu, Hc.
Qed.

(** X4. The token a successful signin returns opens the protected routes:
    sent back as "Bearer <token>" it passes [protect] as a user with the id
    of the reply, provided the token library verifies what it signed and
    the token is not empty and has no space in it. *)
Theorem signin_token_opens_protect (A : Type) (req_email req_password : option string)
    (st : Store) (r : SigninReply) :
  signin req_email req_password st = Success 200 r ->
  jwt_verify (Some (si_token r)) = Some (si_id r) ->
  si_token r <> "" ->
  has_char " "%char (si_token r) = false ->
  exists u,
    @protect _ A (Some ("Bearer " ++ si_token r)) st = inl u
    /\ user_id u = si_id r.
Proof.
  intros Hs Hv Hne Hsp.
  apply signin_success_inv in Hs.
  destruct Hs as [e [p [user [_ [_ [_ [_ [Hu [_ Hr]]]]]]]]].
  assert (Hid : si_id r = user_id user) by (rewrite Hr; reflexivity).
  assert (Hfind : exists u, User_findById st (si_id r) = Some u).
  { unfold User_findOne_email in Hu. apply find_some in Hu.
    destruct Hu as [Hin _]. unfold User_findById.
    destruct (find (fun u => String.eqb (user_id u) (si_id r)) (users st))
      as [u|] eqn:Ef; [now exists u|].
    apply (find_none _ _ Ef) in Hin. rewrite Hid, String.eqb_refl in Hin.
    discriminate. }
  destruct Hfind as [u Hfu]. exists u.
  split; [|now apply User_findById_id with (st := st)].
  unfold protect. rewrite (bearer_of_token _ Hsp), (truthy_Some _ Hne).
  simpl negb. cbv iota. now rewrite Hv, Hfu.
Qed.

(** X3. Through the single-blog route, the author of a blog who presents a
    token that [protect] would accept is recognised: the blog is returned
    with the author's summary, draft or not, and the view is counted. *)
Theorem GET_blog_author_sees_draft (A : Type) (authorization : option string)
    (id : ObjectId) (now : Z) (st : Store) (u : User) (b : Blog) :
  @protect _ A authorization st = inl u ->
  Blog_findById st id = Some b ->
  author b = user_id u ->
  exists b' st',
    GET_blog authorization id now st
    = (Success 200 (mkBlogReply None (mkPopulated b' (Some (author_view u)))), st')
    /\ Blog_findById st' id = Some b'
    /\ read_count b' = JS.add (read_count b) 1
    /\ state b' = state b.
Proof.
  intros Hp Hf Ha.
  destruct (protect_optionalAuth_agree A authorization st u Hp) as [_ Hg].
  apply protect_accepts in Hp. destruct Hp as [tok [_ [_ [_ Hu]]]].
  assert (Hr : author_resolves st b).
  { unfold author_resolves. rewrite Ha, Hu. discriminate. }
  assert (Hv : viewer_allowed (Some u) b).
  { right. exists u. split; [reflexivity|now symmetry]. }
  destruct (getBlog_allowed (Some u) id now st b Hf Hr Hv)
    as [b' [st' [Hget [Hf' [_ [Hc [_ [Hs _]]]]]]]].
  exists b', st'. rewrite Hg, Hget.
  unfold populate. simpl. rewrite Ha, Hu. simpl.
  repeat split; assumption.
Qed.

(** X5. Signin answers 200 exactly when both fields are present, a user
    has the email and the password verifies; the reply then carries that
    user's id, names and email and the token signed for the id, and nothing
    of the stored password. *)
Theorem signin_success_iff (req_email req_password : option string)
    (st : Store) (r : SigninReply) :
  signin req_email req_password st = Success 200 r
  <-> exists e p user,
        req_email = Some e /\ e <> "" /\ req_password = Some p /\ p <> ""
        /\ User_findOne_email e st = Some user
        /\ comparePassword user p = true
        /\ r = mkSigninReply "Login successful" (user_id user) (first_name user)
                             (last_name user) (email user)
                             (jwt_sign (user_id user)).
Proof. apply signin_success_inv. Qed.

End Tokens.

Lemma find_replace_blog_other (bs : list Blog) (id' : ObjectId) (b' : Blog) :
  blog_id b' <> id' ->
  find (fun x => String.eqb (blog_id x) id') (replace_blog b' bs)
  = find (fun x => String.eqb (blog_id x) id') bs.
Proof.
  intros Hne. induction bs as [|x bs IH]; simpl; [reflexivity|].
  destruct (String.eqb_spec (blog_id x) (blog_id b')) as [He | Hd].
  - simpl. apply String.eqb_neq in Hne. rewrite Hne.
    rewrite He, Hne. exact IH.
  - simpl. now rewrite IH.
Qed.

Lemma find_remove_blog (bs : list Blog) (id : ObjectId) :
  find (fun x => String.eqb (blog_id x) id) (remove_blog id bs) = None.
Proof.
  induction bs as [|x bs IH]; simpl; [reflexivity|].
  destruct (String.eqb (blog_id x) id) eqn:Ex; simpl; [exact IH|].
  now rewrite Ex.
Qed.

Lemma find_remove_blog_other (bs : list Blog) (id id' : ObjectId) :
  id' <> id ->
  find (fun x => String.eqb (blog_id x) id') (remove_blog id bs)
  = find (fun x => String.eqb (blog_id x) id') bs.
Proof.
  intros Hne. induction bs as [|x bs IH]; simpl; [reflexivity|].
  destruct (String.eqb_spec (blog_id x) id) as [He | Hd]; simpl.
  - rewrite IH. subst id. apply not_eq_sym in Hne.
    apply String.eqb_neq in Hne. now rewrite Hne.
  - now rewrite IH.
Qed.

Lemma find_app_last (bs : list Blog) (b : Blog) (id : ObjectId) :
  find (fun x => String.eqb (blog_id x) id) (bs ++ [b])
  = match find (fun x => String.eqb (blog_id x) id) bs with
    | Some x => Some x
    | None => if String.eqb (blog_id b) id then Some b else None
    end.
Proof.
  induction bs as [|x bs IH]; simpl; [reflexivity|].
  destruct (String.eqb (blog_id x) id); [reflexivity|exact IH].
Qed.

(** The hook counts at least one word. *)
Lemma split_ws_go_length (s : string) (b : bool) (cur : string) :
  (1 <= List.length (JS.split_ws_go b cur s))%nat.
Proof.
  revert b cur. induction s as [|c r IH]; intros b cur; simpl; [lia|].
  destruct (JS.isWhiteSpace c); [destruct b|]; simpl; try apply IH.
  specialize (IH true ""). lia.
Qed.

Lemma wordCount_positive (body : string) : 1 <= wordCount body.
Proof.
  unfold wordCount, JS.split_ws.
  pose proof (split_ws_go_length (JS.trim body) false ""). lia.
Qed.

(** What [createBlog] answers in each case. *)
Lemma createBlog_cases (newId : ObjectId) (now : Z) (req_user : User)
    (cb : CreateBody) (st : Store) :
  (exists b,
      createBlog newId now req_user cb st
      = (Success 201 (mkBlogReply (Some "Blog created successfully") b),
         set_blogs (blogs st ++ [b]) st)
      /\ blog_id b = newId
      /\ (exists t, cb_title cb = Some t /\ title b = JS.trim t /\ title b <> "")
      /\ cb_body cb = Some (body b) /\ body b <> ""
      /\ title_taken newId (title b) (blogs st) = false
      /\ author b = user_id req_user
      /\ state b = "draft" /\ read_count b = 0
      /\ reading_time b = JS.ceil_div (wordCount (body b)) wordsPerMinute
      /\ createdAt b = now)
  \/ (createBlog newId now req_user cb st = (NextError ValidationError, st)
      /\ (match cb_title cb with Some t => JS.trim t = "" | None => True end
          \/ match cb_body cb with Some bd => bd = "" | None => True end))
  \/ (createBlog newId now req_user cb st = (NextError DuplicateKeyError, st)
      /\ exists t, cb_title cb = Some t
                   /\ title_taken newId (JS.trim t) (blogs st) = true).
Proof.
  unfold createBlog, Blog_create.
  destruct (cb_title cb) as [t|]; simpl;
    [|right; left; split; [reflexivity|now left]].
  destruct (cb_body cb) as [bd|]; simpl;
    [|right; left; split; [reflexivity|now right]].
  unfold valid_title, valid_body.
  destruct (String.eqb_spec (JS.trim t) "") as [Ht | Ht]; simpl;
    [right; left; split; [reflexivity|now left]|].
  destruct (String.eqb_spec bd "") as [Hb | Hb]; simpl;
    [right; left; split; [reflexivity|now right]|].
  destruct (title_taken newId (JS.trim t) (blogs st)) eqn:Et; simpl.
  - right. right. split; [reflexivity|]. exists t. split; [reflexivity|assumption].
  - left. eexists. split; [reflexivity|]. simpl.
    split; [reflexivity|]. split; [exists t; repeat split; assumption|].
    repeat split; assumption.
Qed.


Lemma wordCount_blank (body : string) :
  JS.trim body = EmptyString -> wordCount body = 1 /\ spec_word_count body = 0.
Proof.
  intros Ht. unfold wordCount, spec_word_count.
  rewrite spec_words_trim, Ht. split; reflexivity.
Qed.

(** X8. The word count of the pre-save hook is the number of pieces of the
    body between runs of white space that are not empty, and 1 when there is
    none: an empty piece is counted only for a body with no word at all. *)
Theorem wordCount_at_least_one_word (body : string) :
  wordCount body = Z.max 1 (spec_word_count body).
Proof.
  destruct (String.eqb_spec (JS.trim body) "") as [Ht | Ht].
  - destruct (wordCount_blank body Ht) as [-> ->]. reflexivity.
  - pose proof (wordCount_positive body) as Hp.
    rewrite <- (wordCount_is_spec_word_count body Ht). lia.
Qed.

Section Creation.
Context `{Collaborators}.

(** X7. A created blog reads in at least one minute, and its reading time
    is the hook's word count divided by 200 and rounded up: a body of up to
    200 words gives 1. *)
Theorem createBlog_reading_time_bounds (newId : ObjectId) (now : Z)
    (req_user : User) (cb : CreateBody) (st st' : Store) (r : BlogReply Blog) :
  createBlog newId now req_user cb st = (Success 201 r, st') ->
  1 <= reading_time (data r)
  /\ 200 * (reading_time (data r) - 1) < wordCount (body (data r))
     <= 200 * reading_time (data r)
  /\ (wordCount (body (data r)) <= 200 -> reading_time (data r) = 1).
Proof.
  intros Hc. apply createBlog_success in Hc.
  destruct Hc as [_ [_ [_ [_ [_ [_ Hrt]]]]]].
  pose proof (wordCount_positive (body (data r))) as Hw.
  pose proof (ceil_div_ceiling (wordCount (body (data r))) 200 ltac:(lia)) as Hc.
  unfold wordsPerMinute in Hrt. rewrite <- Hrt in Hc. lia.
Qed.

(** X6. A blog created under a fresh id by a user of the store can be
    looked up under that id, leaves every other lookup as it was, and is a
    private draft: the anonymous fetch and the fetch of any other user are
    answered 403, the author's fetch 200 with read_count 1. *)
Theorem created_blog_is_a_private_draft (newId : ObjectId) (now now' : Z)
    (req_user : User) (cb : CreateBody) (st st' : Store) (r : BlogReply Blog) :
  createBlog newId now req_user cb st = (Success 201 r, st') ->
  Blog_findById st newId = None ->
  User_findById st (user_id req_user) = Some req_user ->
  Blog_findById st' newId = Some (data r)
  /\ (forall id, id <> newId -> Blog_findById st' id = Blog_findById st id)
  /\ getBlog None newId now' st' = (Failure 403 "Access denied", st')
  /\ (forall v, user_id v <> user_id req_user ->
        getBlog (Some v) newId now' st' = (Failure 403 "Access denied", st'))
  /\ exists b' st'',
       getBlog (Some req_user) newId now' st'
       = (Success 200
            (mkBlogReply None (mkPopulated b' (Some (author_view req_user)))),
          st'')
       /\ read_count b' = 1
       /\ title b' = title (data r) /\ body b' = body (data r).
Proof.
  intros Hc Hfresh Hu.
  destruct (createBlog_cases newId now req_user cb st)
    as [[b [Hb Hprops]] | [[Hb _] | [Hb _]]];
    rewrite Hb in Hc; try discriminate.
  inversion Hc; subst. clear Hc. simpl data.
  destruct Hprops as [Hid [_ [_ [_ [_ [Ha [Hs [Hrc _]]]]]]]].
  set (st' := set_blogs (blogs st ++ [b]) st).
  assert (Hf : Blog_findById st' newId = Some b).
  { unfold Blog_findById in *. simpl. rewrite find_app_last, Hfresh.
    subst newId. now rewrite String.eqb_refl. }
  assert (Hr : author_resolves st' b).
  { unfold author_resolves, User_findById. simpl.
    rewrite Ha. unfold User_findById in Hu. rewrite Hu. discriminate. }
  assert (Hdraft : state b <> "published") by (rewrite Hs; discriminate).
  split; [exact Hf|]. split; [|split; [|split]].
  - intros id Hne. unfold Blog_findById. simpl. rewrite find_app_last.
    destruct (find _ (blogs st)); [reflexivity|].
    rewrite Hid. apply not_eq_sym in Hne. apply String.eqb_neq in Hne.
    now rewrite Hne.
  - apply getBlog_anonymous_draft with (b := b); assumption.
  - intros v Hv. apply getBlog_denied with (b := b); try assumption.
    intros [Hp | [w [Hw Hwid]]]; [contradiction|].
    inversion Hw; subst w. congruence.
  - assert (Hv : viewer_allowed (Some req_user) b).
    { right. exists req_user. split; [reflexivity|now symmetry]. }
    destruct (getBlog_allowed (Some req_user) newId now' st' b Hf Hr Hv)
      as [b' [st'' [Hget [_ [_ [Hc' [_ [_ [_ [Hbd Hst]]]]]]]]]].
    exists b', st''. rewrite Hget.
    assert (Hpop : author_doc (populate st' b) = Some (author_view req_user)).
    { unfold populate, User_findById. simpl. rewrite Ha.
      unfold User_findById in Hu. now rewrite Hu. }
    rewrite Hpop. split; [reflexivity|].
    split; [rewrite Hc', Hrc; reflexivity|].
    split; [|exact Hbd].
    revert Hget. unfold getBlog. rewrite Hf. simpl.
    apply String.eqb_neq in Hdraft. rewrite Hdraft. simpl.
    unfold User_findById in Hu. unfold User_findById. simpl.
    rewrite Ha, Hu. simpl. rewrite String.eqb_refl. simpl.
    unfold Blog_save. destruct (negb _); simpl; intros Hg; inversion Hg; reflexivity.
Qed.

End Creation.

Lemma states_valid_replace (st : Store) (b' : Blog) :
  states_valid st ->
  state b' = "draft" \/ state b' = "published" ->
  states_valid (set_blogs (replace_blog b' (blogs st)) st).
Proof.
  intros Hall Hb x Hx. simpl in Hx. apply In_replace_blog in Hx.
  destruct Hx as [-> | Hx]; [assumption|now apply Hall].
Qed.

Lemma valid_state_enum (s : string) :
  valid_state s = true <-> s = "draft" \/ s = "published".
Proof. unfold valid_state, state_enum. apply includes_draft_published. Qed.

Section Mutations.
Context `{Collaborators}.

(** X9. The author's delete answers 200 and removes the blog: the id is no
    longer found, every other lookup and the users are as before, any later
    fetch of the id is answered 404, and so is a second delete. *)
Theorem deleteBlog_removes (req_user : User) (id : ObjectId) (st : Store)
    (b : Blog) :
  Blog_findById st id = Some b ->
  author b = user_id req_user ->
  let st' := snd (deleteBlog req_user id st) in
  fst (deleteBlog req_user id st)
    = Success 200 (mkBlogReply (Some "Blog deleted successfully") tt)
  /\ Blog_findById st' id = None
  /\ (forall id', id' <> id -> Blog_findById st' id' = Blog_findById st id')
  /\ users st' = users st
  /\ (forall v now, getBlog v id now st' = (Failure 404 "Blog not found", st'))
  /\ deleteBlog req_user id st' = (Failure 404 "Blog not found", st').
Proof.
  intros Hf Ha. unfold deleteBlog. rewrite Hf.
  apply String.eqb_eq in Ha. rewrite Ha. simpl.
  assert (Hnone : Blog_findById (set_blogs (remove_blog id (blogs st)) st) id = None).
  { unfold Blog_findById. simpl. apply find_remove_blog. }
  split; [reflexivity|]. split; [exact Hnone|].
  split; [|split; [reflexivity|split]].
  - intros id' Hne. unfold Blog_findById. simpl.
    now apply find_remove_blog_other.
  - intros v now. now apply getBlog_not_found.
  - rewrite Hnone. reflexivity.
Qed.

(** X10. A user who is not the author of a blog can neither update it, nor
    change its state, nor delete it: each of the three is answered 403 and
    the store is left as it was, whatever the patch or the state asked. *)
Theorem only_the_author_mutates (req_user : User) (id : ObjectId) (st : Store)
    (b : Blog) :
  Blog_findById st id = Some b ->
  author b <> user_id req_user ->
  (forall p now,
      updateBlog req_user id p now st
      = (Failure 403 "Not authorized to update this blog", st))
  /\ (forall s now, s = "draft" \/ s = "published" ->
        updateBlogState req_user id (Some s) now st
        = (Failure 403 "Not authorized to update this blog", st))
  /\ deleteBlog req_user id st
     = (Failure 403 "Not authorized to delete this blog", st).
Proof.
  intros Hf Hne. apply String.eqb_neq in Hne.
  split; [|split].
  - intros p now. unfold updateBlog. now rewrite Hf, Hne.
  - intros s now Hs. apply includes_draft_published in Hs.
    unfold updateBlogState. now rewrite Hs, Hf, Hne.
  - unfold deleteBlog. now rewrite Hf, Hne.
Qed.

Lemma Blog_save_cases (now : Z) (modified : bool) (b : Blog) (st : Store) :
  Blog_save now modified false b st = (b, st)
  \/ Blog_save now modified false b st
     = (set_updatedAt now b,
        set_blogs (replace_blog (set_updatedAt now b) (blogs st)) st).
Proof. unfold Blog_save. destruct modified; [now right|now left]. Qed.

Lemma getBlog_store (req_user : option User) (id : ObjectId) (now : Z)
    (st : Store) :
  snd (getBlog req_user id now st) = st
  \/ exists b,
       Blog_findById st id = Some b
       /\ snd (getBlog req_user id now st)
          = set_blogs
              (replace_blog
                 (set_updatedAt now (set_read_count (JS.add (read_count b) 1) b))
                 (blogs st)) st.
Proof.
  unfold getBlog.
  destruct (Blog_findById st id) as [b|] eqn:Ef; simpl; [|now left].
  destruct (negb (String.eqb (state b) "published")).
  - destruct req_user as [u|]; simpl; [|now left].
    destruct (option_map author_view (User_findById st (author b))) eqn:Ea;
      simpl; [|now left].
    destruct (negb (String.eqb (av_id a) (user_id u))); simpl; [now left|].
    destruct (Blog_save_cases now (negb (JS.add (read_count b) 1 =? read_count b))
                (set_read_count (JS.add (read_count b) 1) b) st) as [E | E];
      rewrite E; [left; reflexivity|].
    right. exists b. split; reflexivity.
  - simpl.
    destruct (Blog_save_cases now (negb (JS.add (read_count b) 1 =? read_count b))
                (set_read_count (JS.add (read_count b) 1) b) st) as [E | E];
      rewrite E; [left; reflexivity|].
    right. exists b. split; reflexivity.
Qed.

Lemma updateBlogState_store (req_user : User) (id : ObjectId)
    (req_state : option string) (now : Z) (st : Store) :
  snd (updateBlogState req_user id req_state now st) = st
  \/ exists b s,
       Blog_findById st id = Some b /\ author b = user_id req_user
       /\ req_state = Some s /\ (s = "draft" \/ s = "published")
       /\ snd (updateBlogState req_user id req_state now st)
          = set_blogs (replace_blog (set_updatedAt now (set_state s b)) (blogs st)) st.
Proof.
  unfold updateBlogState.
  destruct req_state as [s|]; [|now left].
  destruct (JS.includes ["draft"; "published"] s) eqn:Ei; [|now left].
  simpl negb. cbv iota.
  destruct (Blog_findById st id) as [b|] eqn:Ef; [|now left].
  destruct (String.eqb_spec (author b) (user_id req_user)); [|now left].
  simpl negb. cbv iota. unfold or_else.
  destruct (Blog_save_cases now (negb (String.eqb s (state b))) (set_state s b) st)
    as [E | E]; rewrite E; [left; reflexivity|].
  right. exists b, s. apply includes_draft_published in Ei.
  repeat split; assumption.
Qed.

Lemma updateBlog_store (req_user : User) (id : ObjectId) (p : Patch) (now : Z)
    (st : Store) :
  snd (updateBlog req_user id p now st) = st
  \/ exists b,
       Blog_findById st id = Some b /\ author b = user_id req_user
       /\ valid_patch p = true
       /\ title_taken id (title (apply_patch now p b)) (blogs st) = false
       /\ snd (updateBlog req_user id p now st)
          = set_blogs (replace_blog (apply_patch now p b) (blogs st)) st.
Proof.
  unfold updateBlog.
  destruct (Blog_findById st id) as [b|] eqn:Ef; simpl; [|now left].
  destruct (String.eqb_spec (author b) (user_id req_user)); simpl; [|now left].
  unfold Blog_findByIdAndUpdate. rewrite Ef.
  destruct (valid_patch p) eqn:Ev; simpl; [|now left].
  destruct (title_taken id _ (blogs st)) eqn:Et; simpl; [now left|].
  right. exists b. repeat split; assumption.
Qed.

Lemma deleteBlog_store (req_user : User) (id : ObjectId) (st : Store) :
  snd (deleteBlog req_user id st) = st
  \/ snd (deleteBlog req_user id st) = set_blogs (remove_blog id (blogs st)) st.
Proof.
  unfold deleteBlog.
  destruct (Blog_findById st id) as [b|]; simpl; [|now left].
  destruct (negb _); simpl; [now left|now right].
Qed.

Lemma Blog_findById_replace_other (st : Store) (id id' : ObjectId) (b' : Blog) :
  blog_id b' = id -> id' <> id ->
  Blog_findById (set_blogs (replace_blog b' (blogs st)) st) id'
  = Blog_findById st id'.
Proof.
  intros Hb Hne. unfold Blog_findById. simpl.
  apply find_replace_blog_other. congruence.
Qed.

(** X12. A handler called for one id never touches the blog of another id:
    after a fetch, an update, a state change, a delete or a create for [id],
    the lookup of every other id gives what it gave before. *)
Theorem handlers_touch_one_blog (req_user : User) (viewer : option User)
    (id id' : ObjectId) (st : Store) :
  id' <> id ->
  (forall now,
      Blog_findById (snd (getBlog viewer id now st)) id' = Blog_findById st id')
  /\ (forall p now,
        Blog_findById (snd (updateBlog req_user id p now st)) id'
        = Blog_findById st id')
  /\ (forall s now,
        Blog_findById (snd (updateBlogState req_user id s now st)) id'
        = Blog_findById st id')
  /\ Blog_findById (snd (deleteBlog req_user id st)) id' = Blog_findById st id'
  /\ (forall now cb,
        Blog_findById (snd (createBlog id now req_user cb st)) id'
        = Blog_findById st id').
Proof.
  intros Hne. split; [|split; [|split; [|split]]].
  - intros now. destruct (getBlog_store viewer id now st) as [-> | [b [Hf ->]]];
      [reflexivity|].
    apply Blog_findById_replace_other with (id := id); [|assumption].
    simpl. now apply Blog_findById_id with (st := st).
  - intros p now.
    destruct (updateBlog_store req_user id p now st)
      as [-> | [b [Hf [_ [_ [_ ->]]]]]]; [reflexivity|].
    apply Blog_findById_replace_other with (id := id); [|assumption].
    simpl. now apply Blog_findById_id with (st := st).
  - intros s now.
    destruct (updateBlogState_store req_user id s now st)
      as [-> | [b [s' [Hf [_ [_ [_ ->]]]]]]]; [reflexivity|].
    apply Blog_findById_replace_other with (id := id); [|assumption].
    simpl. now apply Blog_findById_id with (st := st).
  - destruct (deleteBlog_store req_user id st) as [-> | ->]; [reflexivity|].
    unfold Blog_findById. simpl. now apply find_remove_blog_other.
  - intros now cb.
    destruct (createBlog_cases id now req_user cb st)
      as [[b [-> [Hid _]]] | [[-> _] | [-> _]]]; try reflexivity.
    unfold Blog_findById. simpl. rewrite find_app_last.
    destruct (find _ (blogs st)); [reflexivity|].
    rewrite Hid. apply not_eq_sym in Hne. apply String.eqb_neq in Hne.
    now rewrite Hne.
Qed.

(** X13. Create, fetch, state change and delete store no state outside
    draft and published: create enters at draft, the fetch saves the state
    it found, the state route has its allow-list, and delete stores nothing.
    The update is not among them: its body goes to the store as it was
    sent. *)
Theorem states_stay_valid (st : Store) :
  states_valid st ->
  (forall newId now u cb, states_valid (snd (createBlog newId now u cb st)))
  /\ (forall v id now, states_valid (snd (getBlog v id now st)))
  /\ (forall u id s now, states_valid (snd (updateBlogState u id s now st)))
  /\ (forall u id, states_valid (snd (deleteBlog u id st))).
Proof.
  intros Hall. split; [|split; [|split]].
  - intros newId now u cb.
    destruct (createBlog_cases newId now u cb st)
      as [[b [-> Hp]] | [[-> _] | [-> _]]]; try exact Hall.
    destruct Hp as [_ [_ [_ [_ [_ [_ [Hs _]]]]]]].
    simpl. intros x Hx. apply in_app_or in Hx.
    destruct Hx as [Hx | [<- | []]]; [now apply Hall|now left].
  - intros v id now.
    destruct (getBlog_store v id now st) as [-> | [b [Hf ->]]]; [exact Hall|].
    apply states_valid_replace; [assumption|]. simpl.
    apply Hall. now apply Blog_findById_In with (id := id).
  - intros u id s now.
    destruct (updateBlogState_store u id s now st)
      as [-> | [b [s' [_ [_ [_ [Hs ->]]]]]]]; [exact Hall|].
    now apply states_valid_replace.
  - intros u id.
    destruct (deleteBlog_store u id st) as [-> | ->]; [exact Hall|].
    simpl. intros x Hx. unfold remove_blog in Hx. apply filter_In in Hx.
    now apply Hall.
Qed.

(** X14. Every blog keeps an author among the users through create (by a
    user of the store), fetch, state change, delete, and through every
    update whose patch names no author. *)
Theorem authors_keep_resolving (st : Store) :
  authors_resolve st ->
  (forall newId now u cb, User_findById st (user_id u) <> None ->
     authors_resolve (snd (createBlog newId now u cb st)))
  /\ (forall v id now, authors_resolve (snd (getBlog v id now st)))
  /\ (forall u id p now, p_author p = None ->
        authors_resolve (snd (updateBlog u id p now st)))
  /\ (forall u id s now, authors_resolve (snd (updateBlogState u id s now st)))
  /\ (forall u id, authors_resolve (snd (deleteBlog u id st))).
Proof.
  intros Hall. split; [|split; [|split; [|split]]].
  - intros newId now u cb Hu. now apply createBlog_authors_resolve.
  - intros v id now. now apply getBlog_authors_resolve.
  - intros u id p now Hp. now apply updateBlog_authors_resolve.
  - intros u id s now. now apply updateBlogState_authors_resolve.
  - intros u id. now apply deleteBlog_authors_resolve.
Qed.

End Mutations.

Lemma page_slice_length {A : Type} (offset limit : Z) (l : list A) :
  0 <= offset -> 0 < limit ->
  Z.of_nat (List.length (page_slice offset limit l))
  = Z.max 0 (Z.min limit (Z.of_nat (List.length l) - offset)).
Proof.
  intros Ho Hl. unfold page_slice. rewrite length_firstn, length_skipn. lia.
Qed.

Lemma matches_own_query (u : User) (q : ListQuery) (b : Blog) :
  matches (own_query u q) b = true ->
  author b = user_id u
  /\ (JS.truthy (q_state q) = true -> state b = or_else (q_state q) "").
Proof.
  unfold own_query. destruct (JS.truthy (q_state q)); unfold matches; simpl.
  - rewrite !andb_true_r, andb_true_iff, !String.eqb_eq.
    intros [Hs Ha]. split; [assumption|]. intros _. assumption.
  - rewrite !andb_true_r, String.eqb_eq. intros Ha.
    split; [assumption|discriminate].
Qed.

Lemma matches_own_query_all (u : User) (q : ListQuery) (b : Blog) :
  JS.truthy (q_state q) = false ->
  matches (own_query u q) b = String.eqb (author b) (user_id u).
Proof.
  intros Hq. unfold own_query. rewrite Hq. unfold matches. simpl.
  now rewrite !andb_true_r.
Qed.

Section QueryShape.
Context `{Collaborators}.


End QueryShape.


Lemma truthy_or_else (o : option string) (s : string) :
  o = Some s -> s <> "" -> JS.truthy o = true /\ or_else o "" = s.
Proof. intros -> Hs. split; [now apply truthy_Some|reflexivity]. Qed.

Section ListingContents.
Context `{Collaborators}.


(** X19. When the [author] or the [title] parameter does not compile as a
    regular expression the public listing lists nothing: the SyntaxError goes
    to the error handler and the store is untouched. *)
Theorem malformed_pattern_is_an_error (q : ListQuery) (st : Store) :
  (JS.truthy (q_author q) = true /\ RegExp_i (or_else (q_author q) "") = None)
  \/ (JS.truthy (q_title q) = true /\ RegExp_i (or_else (q_title q) "") = None) ->
  getPublishedBlogs q st = (NextError SyntaxError, st).
Proof.
  intros Hbad. unfold getPublishedBlogs, published_query, new_RegExp_i.
  destruct Hbad as [[Ha Hre] | [Ht Hre]].
  - rewrite Ha, Hre. reflexivity.
  - destruct (JS.truthy (q_author q)).
    + destruct (RegExp_i (or_else (q_author q) "")); [|reflexivity]. simpl.
      destruct (User_findOne_name b st); simpl; rewrite Ht, Hre; reflexivity.
    + simpl. rewrite Ht, Hre. reflexivity.
Qed.

(** X20. The own-blogs listing returns only blogs of the requester, drafts
    included, newest first, and only those of the state asked for when a
    state is given; with no state filter the total is the number of the
    requester's blogs, a page that counts as many documents as the total
    holds them all, and so does a first page whose limit reaches the
    total. *)
Theorem own_listing_shows_own_blogs (req_user : User) (q : ListQuery)
    (st st' : Store) (r : ListReply Blog) :
  getUserBlogs req_user q st = (Success 200 r, st') ->
  st' = st
  /\ (forall b, In b (items r) ->
        In b (blogs st)
        /\ author b = user_id req_user
        /\ (forall s, q_state q = Some s -> s <> "" -> state b = s))
  /\ Sorted (desc createdAt) (items r)
  /\ (JS.truthy (q_state q) = false ->
        total r
        = Z.of_nat (List.length
                      (filter (fun b => String.eqb (author b) (user_id req_user))
                              (blogs st)))
        /\ (count r = total r ->
            Permutation (items r)
                        (filter (fun b => String.eqb (author b) (user_id req_user))
                                (blogs st)))
        /\ (page r = JS.Int 1 ->
            forall l, JS.parseInt_or (q_limit q) 20 = JS.Int l ->
            0 < l <= 2 ^ 53 -> total r <= l ->
            Permutation (items r)
                        (filter (fun b => String.eqb (author b) (user_id req_user))
                                (blogs st)))).
Proof.
  intros Hr.
  apply getUserBlogs_success in Hr. cbv zeta in Hr.
  destruct Hr as [l [Hf [-> ->]]].
  pose proof Hf as Hf0.
  apply Blog_find_window in Hf. destruct Hf as [n [k Hlist]].
  cbn [items total page count]. split; [reflexivity|]. split; [|split].
  - intros b Hb. rewrite Hlist in Hb.
    apply window_incl in Hb. apply result_set_In in Hb.
    destruct Hb as [Hb Hm].
    destruct (matches_own_query req_user q b Hm) as [Ha Hs].
    split; [assumption|]. split; [assumption|].
    intros s Hq Hne. destruct (truthy_or_else _ _ Hq Hne) as [Ht Ho].
    rewrite <- Ho. now apply Hs.
  - rewrite Hlist. apply window_sorted. unfold result_set.
    apply (Blog_sort_desc "createdAt" createdAt). reflexivity.
  - intros Hq.
    assert (Hfil : filter (matches (own_query req_user q)) (blogs st)
                   = filter (fun b => String.eqb (author b) (user_id req_user))
                            (blogs st)).
    { apply filter_ext. intros b. now apply matches_own_query_all. }
    assert (Hperm : forall lim sk,
              Permutation
                (result_set (own_query req_user q) [("createdAt", -1)] lim sk st)
                (filter (fun b => String.eqb (author b) (user_id req_user))
                        (blogs st))).
    { intros lim sk. rewrite <- Hfil. apply result_set_perm. }
    unfold Blog_countDocuments. rewrite Hfil.
    split; [reflexivity|]. split.
    + intros Hc. rewrite Hlist. rewrite Hlist in Hc. apply Nat2Z.inj in Hc.
      set (lim := JS.parseInt_or (q_limit q) 20) in *.
      set (sk := JS.mul (JS.sub (JS.parseInt_or (q_page q) 1) (JS.Int 1)) lim)
        in *.
      rewrite <- (Permutation_length (Hperm lim sk)) in Hc.
      rewrite (window_whole _ _ _ Hc). apply Hperm.
    + intros Hp lim Hlim Hpos Htot.
      rewrite Hp, Hlim, skip_first_page in Hf0.
      rewrite Blog_find_page in Hf0 by lia.
      inversion Hf0 as [Hl]. rewrite page_slice_all.
      * apply Hperm.
      * rewrite (Permutation_length (Hperm (JS.Int lim) (JS.Int 0))).
        exact Htot.
Qed.

(** X21. With page and limit at least 1, while the limit and the offset
    (page - 1) * limit are integers a Number holds exactly, the count of a
    listing is what is left of the result set after the offset, capped by
    the limit, and a page past the last one is empty (the total and the
    number of pages, the ceiling of total / limit, are still reported; the
    collection has fewer than 2^53 blogs). *)
Theorem listing_page_size (req_user : User) (q : ListQuery) (st : Store)
    (p l : Z) :
  JS.parseInt_or (q_page q) 1 = JS.Int p ->
  JS.parseInt_or (q_limit q) 20 = JS.Int l ->
  1 <= p -> 1 <= l <= 2 ^ 53 -> (p - 1) * l <= 2 ^ 53 ->
  Z.of_nat (List.length (blogs st)) < 2 ^ 53 ->
  (forall r st', getUserBlogs req_user q st = (Success 200 r, st') ->
     count r = Z.max 0 (Z.min l (total r - (p - 1) * l))
     /\ pages r = JS.Int (JS.ceil_div (total r) l)
     /\ (JS.ceil_div (total r) l < p -> items r = []))
  /\ (forall r st', getPublishedBlogs q st = (Success 200 r, st') ->
        count r = Z.max 0 (Z.min l (total r - (p - 1) * l))
        /\ pages r = JS.Int (JS.ceil_div (total r) l)
        /\ (JS.ceil_div (total r) l < p -> items r = [])).
Proof.
  intros Hp Hl Hp1 Hl1 Hs _.
  assert (Hnil : forall (A : Type) (x : list A), Z.of_nat (List.length x) = 0 -> x = []).
  { intros A x Hz. destruct x; [reflexivity|simpl in Hz; lia]. }
  assert (Hpast : forall t, JS.ceil_div t l < p ->
                    Z.max 0 (Z.min l (t - (p - 1) * l)) = 0).
  { intros t Hlt. pose proof (ceil_div_ceiling t l ltac:(lia)) as Hc. nia. }
  split.
  - intros r st' Hr.
    rewrite (getUserBlogs_page req_user q st p l Hp Hl Hp1 Hl1 Hs) in Hr.
    injection Hr as Hrr _. subst r. cbn [count total items pages].
    rewrite ?length_map, page_slice_length by nia.
    split; [reflexivity|]. split; [reflexivity|].
    intros Hlt. apply Hnil. rewrite page_slice_length by nia.
    now apply Hpast.
  - intros r st' Hr.
    destruct (published_query q st) as [e|f] eqn:Hq.
    { unfold getPublishedBlogs in Hr. rewrite Hq in Hr. discriminate. }
    rewrite (getPublishedBlogs_page q st f p l Hq Hp Hl Hp1 Hl1 Hs) in Hr.
    injection Hr as Hrr _. subst r. cbn [count total items pages].
    rewrite ?length_map, page_slice_length by nia.
    split; [reflexivity|]. split; [reflexivity|].
    intros Hlt.
    replace (page_slice ((p - 1) * l) l
               (result_set f (published_sort q) (JS.Int l)
                           (JS.Int ((p - 1) * l)) st))
      with (@nil Blog); [reflexivity|].
    symmetry. apply Hnil. rewrite page_slice_length by nia.
    now apply Hpast.
Qed.

End ListingContents.


Lemma replace_blog_ids (b' : Blog) (bs : list Blog) :
  map blog_id (replace_blog b' bs) = map blog_id bs.
Proof.
  unfold replace_blog. rewrite map_map. apply map_ext. intros x.
  destruct (String.eqb_spec (blog_id x) (blog_id b')); congruence.
Qed.

Lemma NoDup_map_inj_in {A B : Type} (f : A -> B) (l : list A) (x y : A) :
  NoDup (map f l) -> In x l -> In y l -> f x = f y -> x = y.
Proof.
  induction l as [|a l IH]; simpl; [contradiction|].
  intros Hnd Hx Hy He. inversion Hnd as [|? ? Hnin Hnd']; subst.
  destruct Hx as [<- | Hx], Hy as [<- | Hy]; try reflexivity.
  - exfalso. apply Hnin. rewrite He. now apply in_map.
  - exfalso. apply Hnin. rewrite <- He. now apply in_map.
  - now apply IH.
Qed.

(** Removing documents keeps a key of the collection free of repeats. *)
Lemma remove_blog_NoDup {K : Type} (key : Blog -> K) (id : ObjectId)
    (bs : list Blog) :
  NoDup (map key bs) -> NoDup (map key (remove_blog id bs)).
Proof.
  unfold remove_blog. intros Hnd.
  induction bs as [|a bs IH]; simpl; [constructor|].
  simpl in Hnd. inversion Hnd as [|? ? Hnin Hrest]; subst.
  destruct (negb (String.eqb (blog_id a) id)); simpl; [|now apply IH].
  constructor; [|now apply IH].
  intros Hin. apply Hnin. apply in_map_iff in Hin.
  destruct Hin as [x [Hx Hi]]. apply filter_In in Hi.
  apply in_map_iff. exists x. tauto.
Qed.

Lemma NoDup_map_snoc {A B : Type} (f : A -> B) (l : list A) (x : A) :
  NoDup (map f l) -> ~ In (f x) (map f l) -> NoDup (map f (l ++ [x])%list).
Proof.
  intros Hnd Hnin. rewrite map_app. simpl.
  apply (NoDup_Add (a := f x) (l := map f l)).
  - rewrite <- (app_nil_r (map f l)) at 1. apply Add_app.
  - split; assumption.
Qed.

(** With unique ids, replacing the document of an id by one of the same
    title leaves the titles as they are. *)
Lemma replace_blog_titles_same (b b' : Blog) (bs : list Blog) :
  NoDup (map blog_id bs) -> In b bs ->
  blog_id b' = blog_id b -> title b' = title b ->
  map title (replace_blog b' bs) = map title bs.
Proof.
  intros Hnd Hin Hid Ht. unfold replace_blog. rewrite map_map.
  apply map_ext_in. intros x Hx.
  destruct (String.eqb_spec (blog_id x) (blog_id b')) as [He | _];
    [|reflexivity].
  assert (x = b) by (apply (NoDup_map_inj_in blog_id bs); congruence).
  congruence.
Qed.

Lemma title_taken_false (id : ObjectId) (t : string) (bs : list Blog) (x : Blog) :
  title_taken id t bs = false -> In x bs -> blog_id x <> id -> title x <> t.
Proof.
  unfold title_taken. intros Ht Hin Hne He.
  assert (existsb (fun y => negb (String.eqb (blog_id y) id)
                            && String.eqb (title y) t) bs = true).
  { apply existsb_exists. exists x. split; [assumption|].
    apply String.eqb_neq in Hne. rewrite Hne. simpl. now apply String.eqb_eq. }
  congruence.
Qed.

Lemma replace_blog_titles_new (b b' : Blog) (bs : list Blog) :
  NoDup (map blog_id bs) -> NoDup (map title bs) -> In b bs ->
  blog_id b' = blog_id b ->
  title_taken (blog_id b) (title b') bs = false ->
  NoDup (map title (replace_blog b' bs)).
Proof.
  intros Hid Hti Hin Hb Htk.
  apply in_split in Hin. destruct Hin as [l1 [l2 ->]].
  assert (Hother : forall x, In x (l1 ++ l2) -> blog_id x <> blog_id b).
  { intros x Hx He. rewrite map_app in Hid. simpl in Hid.
    apply NoDup_remove_2 in Hid. apply Hid. rewrite <- map_app, <- He.
    now apply in_map. }
  assert (Hrep : replace_blog b' (l1 ++ b :: l2)%list = (l1 ++ b' :: l2)%list).
  { unfold replace_blog. rewrite map_app. simpl.
    rewrite Hb, String.eqb_refl. f_equal; [|f_equal].
    - rewrite <- (map_id l1) at 2. apply map_ext_in. intros x Hx.
      destruct (String.eqb_spec (blog_id x) (blog_id b)) as [He | _];
        [|reflexivity].
      exfalso. apply (Hother x); [apply in_or_app; now left|assumption].
    - rewrite <- (map_id l2) at 2. apply map_ext_in. intros x Hx.
      destruct (String.eqb_spec (blog_id x) (blog_id b)) as [He | _];
        [|reflexivity].
      exfalso. apply (Hother x); [apply in_or_app; now right|assumption]. }
  rewrite Hrep, map_app. simpl.
  rewrite map_app in Hti. simpl in Hti. apply NoDup_remove_1 in Hti.
  apply (NoDup_Add (a := title b') (l := (map title l1 ++ map title l2)%list)).
  - apply Add_app.
  - split; [assumption|]. rewrite <- map_app. intros Hx.
    apply in_map_iff in Hx. destruct Hx as [x [Hxt Hx]].
    apply (title_taken_false (blog_id b) (title b') (l1 ++ b :: l2)%list x Htk);
      [|now apply Hother|assumption].
    apply in_app_or in Hx. apply in_or_app. simpl. tauto.
Qed.

Section Uniqueness.
Context `{Collaborators}.

(** X15. In a store where ids and titles are unique they stay unique
    through every handler: a create under a fresh id or an update that would
    give two blogs the same title is refused by the unique index. *)
Theorem ids_and_titles_stay_unique (st : Store) :
  ids_unique st -> titles_unique st ->
  (forall newId now u cb, Blog_findById st newId = None ->
     ids_unique (snd (createBlog newId now u cb st))
     /\ titles_unique (snd (createBlog newId now u cb st)))
  /\ (forall v id now,
        ids_unique (snd (getBlog v id now st))
        /\ titles_unique (snd (getBlog v id now st)))
  /\ (forall u id p now,
        ids_unique (snd (updateBlog u id p now st))
        /\ titles_unique (snd (updateBlog u id p now st)))
  /\ (forall u id s now,
        ids_unique (snd (updateBlogState u id s now st))
        /\ titles_unique (snd (updateBlogState u id s now st)))
  /\ (forall u id,
        ids_unique (snd (deleteBlog u id st))
        /\ titles_unique (snd (deleteBlog u id st))).
Proof.
  unfold ids_unique, titles_unique. intros Hid Hti.
  split; [|split; [|split; [|split]]].
  - intros newId now u cb Hfresh.
    destruct (createBlog_cases newId now u cb st)
      as [[b [-> Hp]] | [[-> _] | [-> _]]]; try (split; assumption).
    destruct Hp as [Hb [_ [_ [_ [Htk _]]]]]. simpl.
    assert (Hno : forall x, In x (blogs st) -> blog_id x <> newId).
    { intros x Hx He. unfold Blog_findById in Hfresh.
      apply (find_none _ _ Hfresh) in Hx. apply String.eqb_eq in He. congruence. }
    split; apply NoDup_map_snoc; try assumption.
    + intros Hin. apply in_map_iff in Hin. destruct Hin as [x [Hx Hi]].
      apply (Hno x Hi). congruence.
    + intros Hin. apply in_map_iff in Hin. destruct Hin as [x [Hx Hi]].
      now apply (title_taken_false newId (title b) (blogs st) x Htk Hi (Hno x Hi)).
  - intros v id now.
    destruct (getBlog_store v id now st) as [-> | [b [Hf ->]]];
      [split; assumption|]. simpl.
    split; [now rewrite replace_blog_ids|].
    rewrite (replace_blog_titles_same b); try assumption; try reflexivity.
    now apply Blog_findById_In with (id := id).
  - intros u id p now.
    destruct (updateBlog_store u id p now st)
      as [-> | [b [Hf [_ [_ [Htk ->]]]]]]; [split; assumption|]. simpl.
    split; [now rewrite replace_blog_ids|].
    apply (replace_blog_titles_new b); try assumption; try reflexivity.
    + now apply Blog_findById_In with (id := id).
    + now rewrite (Blog_findById_id st id b Hf).
  - intros u id s now.
    destruct (updateBlogState_store u id s now st)
      as [-> | [b [s' [Hf [_ [_ [_ ->]]]]]]]; [split; assumption|]. simpl.
    split; [now rewrite replace_blog_ids|].
    rewrite (replace_blog_titles_same b); try assumption; try reflexivity.
    now apply Blog_findById_In with (id := id).
  - intros u id.
    destruct (deleteBlog_store u id st) as [-> | ->]; [split; assumption|].
    simpl. split; now apply remove_blog_NoDup.
Qed.

(** X16. The author's update is refused, with the store untouched, when the
    patch carries a state outside the enum, a title that trims to nothing or
    an empty body (ValidationError), and when its title is the title of
    another blog (DuplicateKeyError). *)
Theorem updateBlog_rejects_invalid_patch (req_user : User) (id : ObjectId)
    (p : Patch) (now : Z) (st : Store) (b : Blog) :
  Blog_findById st id = Some b ->
  author b = user_id req_user ->
  ((exists s, p_state p = Some s /\ s <> "draft" /\ s <> "published")
   \/ (exists t, p_title p = Some t /\ JS.trim t = "")
   \/ p_body p = Some "" ->
   updateBlog req_user id p now st = (NextError ValidationError, st))
  /\ (forall t x, valid_patch p = true -> p_title p = Some t ->
        In x (blogs st) -> blog_id x <> id -> title x = JS.trim t ->
        updateBlog req_user id p now st = (NextError DuplicateKeyError, st)).
Proof.
  intros Hf Ha. apply String.eqb_eq in Ha.
  split.
  - intros Hbad.
    assert (Hv : valid_patch p = false).
    { unfold valid_patch.
      destruct Hbad as [[s [Hs [Hd Hp]]] | [[t [Ht He]] | Hb]].
      - rewrite Hs.
        replace (valid_state s) with false; [now rewrite andb_false_r|].
        symmetry. apply not_true_is_false. intros Hv.
        apply valid_state_enum in Hv. tauto.
      - rewrite Ht. simpl. rewrite He. reflexivity.
      - rewrite Hb. simpl. now rewrite andb_false_r. }
    unfold updateBlog. rewrite Hf, Ha. simpl.
    unfold Blog_findByIdAndUpdate. now rewrite Hv.
  - intros t x Hv Ht Hx Hne Hxt.
    unfold updateBlog. rewrite Hf, Ha. simpl.
    unfold Blog_findByIdAndUpdate. rewrite Hv, Hf.
    replace (title_taken id (title (apply_patch now p b)) (blogs st)) with true;
      [reflexivity|].
    symmetry. unfold title_taken. apply existsb_exists. exists x.
    split; [assumption|]. apply String.eqb_neq in Hne. rewrite Hne. simpl.
    apply String.eqb_eq. unfold apply_patch. simpl. rewrite Ht. simpl. assumption.
Qed.

(** X17. A successful update is the author's, returns the blog as stored,
    keeps the id and the creation time, stamps the update time, stores the
    patched title, description and tags trimmed and the patched body as
    sent, and leaves every path the patch does not name as it was. *)
Theorem updateBlog_keeps_unpatched_fields (req_user : User) (id : ObjectId)
    (p : Patch) (now : Z) (st st' : Store) (r : BlogReply (option Blog)) :
  updateBlog req_user id p now st = (Success 200 r, st') ->
  exists b b',
    Blog_findById st id = Some b
    /\ author b = user_id req_user
    /\ data r = Some b'
    /\ Blog_findById st' id = Some b'
    /\ blog_id b' = id /\ createdAt b' = createdAt b /\ updatedAt b' = now
    /\ match p_title p with Some t => title b' = JS.trim t /\ title b' <> ""
                          | None => title b' = title b end
    /\ match p_description p with Some d => description b' = Some (JS.trim d)
                                | None => description b' = description b end
    /\ match p_tags p with Some ts => tags b' = map JS.trim ts
                         | None => tags b' = tags b end
    /\ match p_body p with Some bd => body b' = bd /\ bd <> ""
                         | None => body b' = body b end
    /\ (p_author p = None -> author b' = author b)
    /\ (p_state p = None -> state b' = state b)
    /\ (p_read_count p = None -> read_count b' = read_count b)
    /\ (p_reading_time p = None -> reading_time b' = reading_time b).
Proof.
  unfold updateBlog.
  destruct (Blog_findById st id) as [b|] eqn:Ef; simpl; [|discriminate].
  destruct (String.eqb_spec (author b) (user_id req_user)) as [Ha | _]; simpl;
    [|discriminate].
  unfold Blog_findByIdAndUpdate. rewrite Ef.
  destruct (valid_patch p) eqn:Ev; simpl; [|discriminate].
  destruct (title_taken id _ (blogs st)) eqn:Et; simpl; [discriminate|].
  intros Hu. inversion Hu; subst r st'. clear Hu.
  pose proof (Blog_findById_id st id b Ef) as Hid.
  exists b, (apply_patch now p b).
  split; [reflexivity|]. split; [assumption|]. split; [reflexivity|].
  split; [apply Blog_findById_replace with (b := b); assumption|].
  unfold valid_patch in Ev. rewrite !andb_true_iff in Ev.
  destruct Ev as [[Evt Evb] _].
  unfold apply_patch; simpl.
  split; [assumption|]. split; [reflexivity|]. split; [reflexivity|].
  split; [|split; [|split; [|split]]].
  - destruct (p_title p) as [t|]; simpl in *; [|reflexivity].
    split; [reflexivity|]. unfold valid_title in Evt.
    now apply String.eqb_neq, negb_true_iff.
  - destruct (p_description p); reflexivity.
  - destruct (p_tags p); reflexivity.
  - destruct (p_body p) as [bd|]; simpl in *; [|reflexivity].
    split; [reflexivity|]. unfold valid_body in Evb.
    now apply String.eqb_neq, negb_true_iff.
  - repeat split; intros ->; reflexivity.
Qed.

End Uniqueness.

Lemma title_taken_false_iff (id : ObjectId) (t : string) (bs : list Blog) :
  title_taken id t bs = false
  <-> forall x, In x bs -> blog_id x <> id -> title x <> t.
Proof.
  split.
  - intros Ht x Hx Hne. now apply (title_taken_false id t bs x).
  - intros Hall. apply not_true_is_false. intros Ht.
    unfold title_taken in Ht. apply existsb_exists in Ht.
    destruct Ht as [x [Hx Hc]]. apply andb_true_iff in Hc.
    destruct Hc as [Hid He]. apply negb_true_iff, String.eqb_neq in Hid.
    apply String.eqb_eq in He. now apply (Hall x Hx Hid).
Qed.

(** X11. A create answers 201 exactly when the title is present and not
    empty once trimmed, the body is present and not empty, and no other blog
    has the trimmed title. Any other create stores nothing and hands a
    ValidationError or a DuplicateKeyError to the error handler. *)
Theorem createBlog_succeeds_iff (newId : ObjectId) (now : Z) (req_user : User)
    (cb : CreateBody) (st : Store) :
  ((exists r st', createBlog newId now req_user cb st = (Success 201 r, st'))
   <-> exists t bd,
         cb_title cb = Some t /\ JS.trim t <> "" /\ cb_body cb = Some bd
         /\ bd <> ""
         /\ forall x, In x (blogs st) -> blog_id x <> newId ->
                      title x <> JS.trim t)
  /\ (createBlog newId now req_user cb st = (NextError ValidationError, st)
      \/ createBlog newId now req_user cb st = (NextError DuplicateKeyError, st)
      \/ exists r st', createBlog newId now req_user cb st = (Success 201 r, st')).
Proof.
  destruct (createBlog_cases newId now req_user cb st)
    as [[b [Hc Hp]] | [[Hc Hwhy] | [Hc [t [Ht Htk]]]]].
  - split; [|right; right; eexists; eexists; exact Hc].
    split; [intros _|intros _; eexists; eexists; exact Hc].
    destruct Hp as [_ [[t [Ht [Htt Hne]]] [Hb [Hbne [Htk _]]]]].
    exists t, (body b). rewrite <- Htt.
    repeat split; try assumption. now apply title_taken_false_iff.
  - split; [|now left]. split.
    + intros [r [st' Hr]]. rewrite Hc in Hr. discriminate.
    + intros [t [bd [Ht [Hne [Hb [Hbne _]]]]]]. exfalso.
      rewrite Ht, Hb in Hwhy. destruct Hwhy; contradiction.
  - split; [|right; now left]. split.
    + intros [r [st' Hr]]. rewrite Hc in Hr. discriminate.
    + intros [t' [bd [Ht' [_ [_ [_ Hfree]]]]]]. exfalso.
      rewrite Ht in Ht'. inversion Ht'; subst t'.
      apply title_taken_false_iff in Hfree. congruence.
Qed.

(* ----------------------------------------------------------------- *)
(** *** The properties at concrete requests *)

(** No header at all. *)
Lemma protected_routes_require_identity_witness :
  exists m,
    PUT_blog None (blog_id draft3) no_patch 6000 example_store
    = (Failure 401 m, example_store)
    /\ DELETE_blog None (blog_id draft3) example_store
       = (Failure 401 m, example_store).
Proof.
  destruct (@protected_routes_require_identity example_collaborators None
              example_store) as [m [_ [_ [Hput [_ Hdel]]]]].
  - intros tok Hb. discriminate Hb.
  - exists m. split; [apply Hput|apply Hdel].
Defined.

(** Jane, with her token, asks for her draft. *)
Lemma GET_blog_author_sees_draft_witness :
  exists b' st',
    GET_blog (Some "Bearer tok:64a000000000000000000001") (blog_id draft3) 5000
             example_store
    = (Success 200 (mkBlogReply None (mkPopulated b' (Some (author_view jane)))),
       st')
    /\ Blog_findById st' (blog_id draft3) = Some b'
    /\ read_count b' = JS.add (read_count draft3) 1
    /\ state b' = state draft3.
Proof.
  apply (@GET_blog_author_sees_draft example_collaborators unit
           (Some "Bearer tok:64a000000000000000000001") (blog_id draft3) 5000
           example_store jane draft3); reflexivity.
Defined.

(** Jane signs in and sends the token back. *)
Lemma signin_token_opens_protect_witness :
  exists u,
    @protect example_collaborators unit
             (Some ("Bearer " ++ "tok:64a000000000000000000001")) example_store
    = inl u
    /\ user_id u = "64a000000000000000000001".
Proof.
  apply (@signin_token_opens_protect example_collaborators unit
           (Some "jane@test.com") (Some "pw-jane") example_store
           (mkSigninReply "Login successful" (user_id jane) (first_name jane)
                          (last_name jane) (email jane)
                          "tok:64a000000000000000000001"));
    try reflexivity.
  discriminate.
Defined.

(** Jane creates a fourth blog; nobody else can read it. *)
Lemma created_blog_is_a_private_draft_witness :
  let c := createBlog "64b000000000000000000004" 4000 jane
             (mkCreateBody (Some " Fourth ") None (Some ["n"]) (Some "a b c"))
             example_store in
  getBlog None "64b000000000000000000004" 5000 (snd c)
  = (Failure 403 "Access denied", snd c)
  /\ getBlog (Some john) "64b000000000000000000004" 5000 (snd c)
     = (Failure 403 "Access denied", snd c).
Proof.
  intros c.
  assert (E : exists r, c = (Success 201 r, snd c)) by (eexists; reflexivity).
  destruct E as [r E].
  destruct (created_blog_is_a_private_draft "64b000000000000000000004" 4000 5000 jane
              (mkCreateBody (Some " Fourth ") None (Some ["n"]) (Some "a b c"))
              example_store (snd c) r E eq_refl eq_refl)
    as [_ [_ [Hanon [Hother _]]]].
  split; [exact Hanon|]. apply Hother. discriminate.
Defined.

Lemma createBlog_reading_time_bounds_witness :
  let c := createBlog "64b000000000000000000004" 4000 jane
             (mkCreateBody (Some "A") None None (Some (str_repeat "word " 400)))
             example_store in
  exists r, c = (Success 201 r, snd c) /\ 1 <= reading_time (data r).
Proof.
  intros c.
  assert (E : exists r, c = (Success 201 r, snd c))
    by (eexists; vm_compute; reflexivity).
  destruct E as [r E]. exists r. split; [exact E|].
  exact (proj1 (createBlog_reading_time_bounds
                  "64b000000000000000000004" 4000 jane
                  (mkCreateBody (Some "A") None None
                                (Some (str_repeat "word " 400)))
                  example_store (snd c) r E)).
Defined.

(** Jane deletes her draft. *)
Lemma deleteBlog_removes_witness :
  Blog_findById (snd (deleteBlog jane (blog_id draft3) example_store))
                (blog_id draft3) = None.
Proof.
  pose proof (deleteBlog_removes jane (blog_id draft3)
                example_store draft3 eq_refl eq_refl) as Hd.
  cbv zeta in Hd. exact (proj1 (proj2 Hd)).
Defined.

(** John tries his hand at Jane's draft. *)
Lemma only_the_author_mutates_witness :
  deleteBlog john (blog_id draft3) example_store
  = (Failure 403 "Not authorized to delete this blog", example_store)
  /\ updateBlog john (blog_id draft3)
       (mkPatch (Some "Hacked Title") None None None None None None None) 6000
       example_store
     = (Failure 403 "Not authorized to update this blog", example_store).
Proof.
  destruct (only_the_author_mutates john (blog_id draft3) example_store draft3
              eq_refl ltac:(discriminate)) as [Hup [_ Hdel]].
  split; [exact Hdel|apply Hup].
Defined.

Lemma handlers_touch_one_blog_witness :
  Blog_findById (snd (deleteBlog jane (blog_id draft3) example_store))
                (blog_id post1)
  = Blog_findById example_store (blog_id post1).
Proof.
  exact (proj1 (proj2 (proj2 (proj2
           (handlers_touch_one_blog jane None
              (blog_id draft3) (blog_id post1) example_store
              ltac:(discriminate)))))).
Defined.

Lemma example_states_valid : states_valid example_store.
Proof.
  intros b [<- | [<- | [<- | []]]]; simpl; tauto.
Qed.

Lemma example_authors_resolve : authors_resolve example_store.
Proof.
  intros b [<- | [<- | [<- | []]]]; unfold author_resolves; simpl; discriminate.
Qed.

Lemma example_ids_unique : ids_unique example_store.
Proof.
  unfold ids_unique. simpl.
  repeat constructor; simpl; intros Hin; intuition discriminate.
Qed.

Lemma example_titles_unique : titles_unique example_store.
Proof.
  unfold titles_unique. simpl.
  repeat constructor; simpl; intros Hin; intuition discriminate.
Qed.

(** Jane publishes her draft. *)
Lemma states_stay_valid_witness :
  states_valid
    (snd (updateBlogState jane (blog_id draft3) (Some "published") 6000
                          example_store)).
Proof.
  apply (states_stay_valid example_store
           example_states_valid).
Defined.

Lemma authors_keep_resolving_witness :
  authors_resolve (snd (getBlog None (blog_id post1) 5000 example_store)).
Proof.
  apply (authors_keep_resolving example_store
           example_authors_resolve).
Defined.

Lemma ids_and_titles_stay_unique_witness :
  titles_unique
    (snd (updateBlog jane (blog_id draft3)
            (mkPatch (Some "Renamed") None None None None None None None)
            6000 example_store)).
Proof.
  apply (ids_and_titles_stay_unique example_store
           example_ids_unique example_titles_unique).
Defined.

(** Jane sends a state the enum does not have, then the title of another
    blog. *)
Lemma updateBlog_rejects_invalid_patch_witness :
  updateBlog jane (blog_id draft3)
    (mkPatch None None None (Some "archived") None None None None) 6000
    example_store
  = (NextError ValidationError, example_store)
  /\ updateBlog jane (blog_id draft3)
       (mkPatch (Some " Second ") None None None None None None None) 6000
       example_store
     = (NextError DuplicateKeyError, example_store).
Proof.
  split.
  - apply (proj1 (updateBlog_rejects_invalid_patch jane (blog_id draft3)
                    (mkPatch None None None (Some "archived") None None None None)
                    6000 example_store draft3 eq_refl eq_refl)).
    left. exists "archived". repeat split; discriminate.
  - apply (proj2 (updateBlog_rejects_invalid_patch jane (blog_id draft3)
                    (mkPatch (Some " Second ") None None None None None None None)
                    6000 example_store draft3 eq_refl eq_refl)
                 " Second " post2); try reflexivity.
    + simpl. tauto.
    + discriminate.
Defined.

(** The update of the test suite: a new title and a description. *)
Lemma updateBlog_keeps_unpatched_fields_witness :
  let u := updateBlog jane (blog_id draft3)
             (mkPatch (Some "Updated Title") (Some "Updated description")
                      None None None None None None) 6000 example_store in
  exists b',
    Blog_findById (snd u) (blog_id draft3) = Some b'
    /\ title b' = "Updated Title"
    /\ description b' = Some "Updated description"
    /\ body b' = body draft3
    /\ state b' = state draft3
    /\ read_count b' = read_count draft3.
Proof.
  intros u.
  assert (E : exists r, u = (Success 200 r, snd u)) by (eexists; reflexivity).
  destruct E as [r E].
  destruct (updateBlog_keeps_unpatched_fields jane (blog_id draft3)
              (mkPatch (Some "Updated Title") (Some "Updated description")
                       None None None None None None) 6000 example_store
              (snd u) r E)
    as [b [b' [Hf [_ [_ [Hf' [_ [_ [_ [Ht [Hd [_ [Hb [_ [Hs [Hc _]]]]]]]]]]]]]]]].
  simpl in Ht, Hd, Hb. inversion Hf; subst b.
  exists b'. split; [exact Hf'|]. split; [exact (proj1 Ht)|].
  split; [exact Hd|]. split; [exact Hb|].
  split; [exact (Hs eq_refl)|exact (Hc eq_refl)].
Defined.


(** A title pattern with an open parenthesis. *)
Lemma malformed_pattern_is_an_error_witness :
  @getPublishedBlogs strict_collaborators
     (mkListQuery None None None (Some "(draft") None None None) example_store
  = (NextError SyntaxError, example_store).
Proof.
  apply (@malformed_pattern_is_an_error strict_collaborators).
  right. split; reflexivity.
Defined.

(** Jane lists her drafts. *)
Lemma own_listing_shows_own_blogs_witness :
  exists r,
    getUserBlogs jane (mkListQuery None None None None None None (Some "draft"))
                 example_store = (Success 200 r, example_store)
    /\ forall b, In b (items r) -> author b = user_id jane /\ state b = "draft".
Proof.
  eexists. split; [reflexivity|]. intros b Hin.
  destruct (@own_listing_shows_own_blogs example_collaborators jane
              (mkListQuery None None None None None None (Some "draft"))
              example_store example_store _ eq_refl) as [_ [Hall _]].
  destruct (Hall b Hin) as [_ [Ha Hs]].
  split; [exact Ha|]. apply Hs; [reflexivity|discriminate].
Defined.

(** Jane has two blogs; she asks for the third page of one. *)
Lemma listing_page_size_witness :
  exists r,
    getUserBlogs jane (mkListQuery (Some "3") (Some "1") None None None None None)
                 example_store = (Success 200 r, example_store)
    /\ items r = [] /\ count r = 0 /\ total r = 2 /\ pages r = JS.Int 2.
Proof.
  eexists. split; [reflexivity|].
  destruct (@listing_page_size example_collaborators jane
              (mkListQuery (Some "3") (Some "1") None None None None None)
              example_store 3 1 eq_refl eq_refl)
    as [Hown _]; [lia | lia | lia | simpl; lia |].
  destruct (Hown _ example_store eq_refl) as [Hc [Hps Hnil]].
  split; [apply Hnil; vm_compute; reflexivity|].
  split; [exact Hc|]. split; [reflexivity|exact Hps].
Defined.

